(** * xb-api: the book controllers and their cache protocol

    A shallow embedding of the Express controllers of xb-api
    ([getBooks], [getMostViewedBooks], [postBooks], [putBooks],
    [deleteBook] and the lookups) together with the parts of the
    JavaScript runtime they lean on: string conversion of values inside a
    template literal, truthiness, Numbers, [JSON.stringify] and
    [JSON.parse].

    An [async] controller is a program that suspends at every I/O call;
    it is embedded as a tree of commands ([Prog]) and run against a world
    made of the document store and the Redis cache. *)

From stdpp Require Import base strings list gmap pretty.
From Stdlib Require Import ZArith Lia Ascii String.

Local Open Scope string_scope.
Local Open Scope Z_scope.

Set Warnings "-register-all".

(** ** JavaScript values *)

(** The values a request body, a query parameter or a store result can
    hold. A Number is a double: [JNum n] is the double nearest to the
    integer [n] ([n] itself up to [2^53] in size), [JFrac m e] is the
    double nearest to [m / 2^e], which is how the doubles that are no
    integers are written, with [m] odd; then there are the two infinities
    and NaN. A string is held as its bytes in UTF-8, a surrogate that has
    no partner as the three bytes of its code unit. An object keeps its
    own properties in the order JavaScript enumerates them; its prototype
    is [Object.prototype], as for every object made by [JSON.parse] or
    by the query parser. *)
Inductive JsValue : Type :=
| JUndefined
| JNull
| JBool (b : bool)
| JNum (n : Z)
| JStr (s : string)
| JArr (items : list JsValue)
| JObj (props : list (string * JsValue))
| JFrac (m : Z) (e : positive)
| JInfinity (negative : bool)
| JNaN.

(** A pagination parameter as the controller reads it from
    [req.pagination]: a number, or nothing usable ([undefined] or [NaN],
    which JavaScript both treats as false). *)
Inductive PageParam : Type :=
| Absent
| Given (n : Z).

(** The errors a controller meets: the two made by [utils/errors], the
    [SyntaxError] and [TypeError] of the runtime, and the failures of the
    store and of the cache client. *)
Inductive Error : Type :=
| BadRequest (msg : string)
| NotFound (msg : string)
| SyntaxError
| TypeError
| StoreError (msg : string)
| CacheError (msg : string).

(** ** Numbers *)

(** A Number is an IEEE 754 double. A decimal numeral is read as the
    double nearest to it and a double is printed as the shortest decimal
    numeral that reads back as it, both by exact arithmetic on
    integers. *)
Module Num.

(** A double: zero, a finite value [m * 2^e] with [m] from [2^52] to
    [2^53 - 1] (less for a subnormal, where [e] is [-1074]), an infinity
    or NaN. *)
Inductive double : Type :=
| Zero
| Finite (negative : bool) (m e : Z)
| Infinite (negative : bool)
| NotANumber.

Definition eqb (a b : double) : bool :=
  match a, b with
  | Zero, Zero | NotANumber, NotANumber => true
  | Finite na ma ea, Finite nb mb eb => Bool.eqb na nb && (ma =? mb) && (ea =? eb)
  | Infinite na, Infinite nb => Bool.eqb na nb
  | _, _ => false
  end.

(** [floor (log2 (p / q))] for positive [p] and [q]. *)
Definition log2_ratio (p q : Z) : Z :=
  let l := Z.log2 p - Z.log2 q in
  if (if 0 <=? l then q * 2 ^ l <=? p else q <=? p * 2 ^ (- l)) then l else l - 1.

(** The double nearest to [p / q], for positive [p] and [q]; a tie goes
    to the even mantissa, and what reaches [2^1024] is infinite. *)
Definition nearest (negative : bool) (p q : Z) : double :=
  let e := Z.max (log2_ratio p q - 52) (-1074) in
  let num := if 0 <=? e then p else p * 2 ^ (- e) in
  let den := if 0 <=? e then q * 2 ^ e else q in
  let m := num / den in
  let r := num mod den in
  let m := if (den <? 2 * r) || ((den =? 2 * r) && Z.odd m) then m + 1 else m in
  let '(m, e) := if m =? 2 ^ 53 then (2 ^ 52, e + 1) else (m, e) in
  if m =? 0 then Zero
  else if 971 <? e then Infinite negative
  else Finite negative m e.

(** The double nearest to [n * 10^t], for a natural [n]. A numeral of
    [10^309] at least is infinite and one below [10^-324] is zero; these
    are settled by their size, the others by [nearest]. *)
Definition of_decimal (negative : bool) (n t : Z) : double :=
  if n =? 0 then Zero
  else if 309 <=? Z.log2 n / 4 + t then Infinite negative
  else if Z.log2 n / 3 + 1 + t <=? -324 then Zero
  else if 0 <=? t then nearest negative (n * 10 ^ t) 1
  else nearest negative n (10 ^ (- t)).

(** The Number a value is, if it is one. *)
Definition read (v : JsValue) : option double :=
  match v with
  | JNum 0 => Some Zero
  | JNum n => Some (nearest (n <? 0) (Z.abs n) 1)
  | JFrac 0 _ => Some Zero
  | JFrac m e => Some (nearest (m <? 0) (Z.abs m) (2 ^ Z.pos e))
  | JInfinity negative => Some (Infinite negative)
  | JNaN => Some NotANumber
  | _ => None
  end.

(** The value that stands for a double: an integer is [JNum], any
    other finite double is [JFrac] with an odd numerator. The sign of
    zero is not kept: [ToString], [JSON.stringify] and [ToBoolean] do not
    tell [-0] from [0], and the controllers apply nothing else to a
    Number. *)
Definition value (d : double) : JsValue :=
  match d with
  | Zero => JNum 0
  | Finite negative m e =>
      let sign (x : Z) := if negative then - x else x in
      if 0 <=? e then JNum (sign (m * 2 ^ e))
      else
        let g := Z.gcd m (2 ^ (- e)) in
        if g =? 2 ^ (- e) then JNum (sign (m / g))
        else JFrac (sign (m / g)) (Z.to_pos (- e - Z.log2 g))
  | Infinite negative => JInfinity negative
  | NotANumber => JNaN
  end.

(** The Number a numeral denotes: [n * 10^t], negated or not. An
    integer numeral below [2^53] is a double as it stands. *)
Definition numeral (negative : bool) (n t : Z) : JsValue :=
  if (t =? 0) && (n <? 2 ^ 53) then JNum (if negative then - n else n)
  else value (of_decimal negative n t).

(** [p / q < 10^n]. *)
Definition below_pow10 (p q n : Z) : bool :=
  if 0 <=? n then p <? q * 10 ^ n else p * 10 ^ (- n) <? q.

Fixpoint first_below (fuel : nat) (p q n0 : Z) : Z :=
  match fuel with
  | O => n0
  | S fuel => if below_pow10 p q n0 then n0 else first_below fuel p q (n0 + 1)
  end.

(** The least [n] with [p / q < 10^n], for positive [p] and [q]. With
    [l = floor (log2 (p / q))] it lies from [l * log10 2] to
    [(l + 1) * log10 2 + 1], so the search starts just below that. *)
Definition magnitude (p q : Z) : Z :=
  first_below 8 p q (log2_ratio p q * 30103 / 100000 - 1).

(** [floor (p / (q * 10^t))]. *)
Definition scaled (p q t : Z) : Z :=
  if 0 <=? t then p / (q * 10 ^ t) else (p * 10 ^ (- t)) / q.

(** The digits [s], [k] of them, and the exponent [n] of Number::toString
    for the positive double [x = p / q] of magnitude [n]:
    [s * 10^(n - k)] reads back as [x], [k] is as small as can be and,
    of the candidates left, [s] is the one nearest to [x], the even one
    on a tie. Only the two multiples of [10^(n - k)] that enclose [x]
    can be nearest; the upper one may be [10^k], which is written with
    the exponent [n + 1]. Seventeen digits tell any two doubles
    apart. *)
Fixpoint shortest (fuel : nat) (k : Z) (x : double) (p q n : Z) : Z * Z :=
  let t := n - k in
  let lo := scaled p q t in
  let hi := lo + 1 in
  let reads (s : Z) := eqb (of_decimal false s t) x in
  let twice := if 0 <=? t then (2 * p, q * 10 ^ t) else (2 * p * 10 ^ (- t), q) in
  let nearer_lo :=
    (twice.1 <? (lo + hi) * twice.2)
    || ((twice.1 =? (lo + hi) * twice.2) && Z.even lo) in
  match fuel with
  | O => (lo, n)
  | S fuel =>
      if reads lo && (nearer_lo || negb (reads hi)) then (lo, n)
      else if reads hi then (if hi =? 10 ^ k then (10 ^ (k - 1), n + 1) else (hi, n))
      else shortest fuel (k + 1) x p q n
  end.

Fixpoint zeros (n : nat) : string :=
  match n with
  | O => ""
  | S n => String "0" (zeros n)
  end.

(** Number::toString of a positive double, from its digits and its
    exponent. *)
Definition layout (digits : string) (n : Z) : string :=
  let k := Z.of_nat (String.length digits) in
  if (k <=? n) && (n <=? 21) then digits +:+ zeros (Z.to_nat (n - k))
  else if (0 <? n) && (n <=? 21) then
    substring 0 (Z.to_nat n) digits +:+ "."
      +:+ substring (Z.to_nat n) (Z.to_nat (k - n)) digits
  else if (-6 <? n) && (n <=? 0) then "0." +:+ zeros (Z.to_nat (- n)) +:+ digits
  else
    let e := n - 1 in
    let exponent := (if e <? 0 then "-" else "+") +:+ pretty (Z.abs e) in
    if k =? 1 then digits +:+ "e" +:+ exponent
    else substring 0 1 digits +:+ "." +:+ substring 1 (Z.to_nat (k - 1)) digits
           +:+ "e" +:+ exponent.

(** Number::toString, radix 10. *)
Definition print (d : double) : string :=
  match d with
  | Zero => "0"
  | Finite negative m e =>
      let p := if 0 <=? e then m * 2 ^ e else m in
      let q := if 0 <=? e then 1 else 2 ^ (- e) in
      let '(s, n) := shortest 17 1 (Finite false m e) p q (magnitude p q) in
      (if negative then "-" else "") +:+ layout (pretty s) n
  | Infinite negative => if negative then "-Infinity" else "Infinity"
  | NotANumber => "NaN"
  end.

(** ToString of a Number. An integer below [2^53] in size is a double
    and its own shortest numeral. *)
Definition to_string (v : JsValue) : string :=
  match v with
  | JNum n => if Z.abs n <? 2 ^ 53 then pretty n else print (default NotANumber (read v))
  | _ => print (default NotANumber (read v))
  end.

(** The text of a Number in JSON: [null] for what is not finite. *)
Definition json_text (v : JsValue) : string :=
  match v with
  | JNum n => if Z.abs n <? 2 ^ 53 then pretty n
              else match read v with
                   | Some (Finite _ _ _) => to_string v
                   | _ => "null"
                   end
  | _ => match read v with
         | Some Zero | Some (Finite _ _ _) => to_string v
         | _ => "null"
         end
  end.

End Num.

Module Js.

(** ToBoolean. *)
Definition truthy (v : JsValue) : bool :=
  match v with
  | JUndefined | JNull => false
  | JBool b => b
  | JNum n => negb (n =? 0)
  | JStr s => negb (String.eqb s "")
  | JArr _ | JObj _ => true
  | JFrac _ _ | JInfinity _ | JNaN =>
      match Num.read v with
      | Some Num.Zero | Some Num.NotANumber | None => false
      | Some _ => true
      end
  end.

Definition truthy_param (p : PageParam) : bool :=
  match p with
  | Absent => false
  | Given n => negb (n =? 0)
  end.

(** ToBoolean of a string-or-null, as [redis.get] resolves to. *)
Definition truthy_reply (r : option string) : bool :=
  match r with
  | None => false
  | Some s => negb (String.eqb s "")
  end.

(** [Array.prototype.join] with the given separator, on the strings the
    elements were converted to. *)
Fixpoint join (sep : string) (parts : list string) : string :=
  match parts with
  | [] => ""
  | [p] => p
  | p :: rest => p +:+ sep +:+ join sep rest
  end.

(** The object has an own property of that name. *)
Definition has_own (name : string) (props : list (string * JsValue)) : bool :=
  existsb (fun kv => String.eqb kv.1 name) props.

(** ToString, the conversion a template literal applies to an
    interpolated value. An object is converted by the [toString] it
    reads: the one of [Object.prototype], which answers
    [[object Object]] whatever the object holds, unless the object has
    an own property [toString]. No value of a parsed body or query is a
    function, so such a property cannot be called; [valueOf] is tried
    next, answers an object, not a primitive, whether own or inherited,
    and the conversion throws a TypeError. An array is converted by
    [Array.prototype.toString]: its elements converted in turn and
    joined by commas, [null] and [undefined] elements being printed as
    nothing. *)
Fixpoint toString (v : JsValue) : Error + string :=
  match v with
  | JUndefined => inr "undefined"
  | JNull => inr "null"
  | JBool true => inr "true"
  | JBool false => inr "false"
  | JNum _ | JFrac _ _ | JInfinity _ | JNaN => inr (Num.to_string v)
  | JStr s => inr s
  | JArr items =>
      match
        (fix elements (l : list JsValue) : Error + list string :=
           match l with
           | [] => inr []
           | e :: rest =>
               match (match e with
                      | JUndefined | JNull => inr ""
                      | _ => toString e
                      end) with
               | inl err => inl err
               | inr s =>
                   match elements rest with
                   | inl err => inl err
                   | inr ss => inr (s :: ss)
                   end
               end
           end) items
      with
      | inl err => inl err
      | inr parts => inr (join "," parts)
      end
  | JObj props =>
      if has_own "toString" props then inl TypeError else inr "[object Object]"
  end.

(** [a === b] against a string literal. *)
Definition strict_eq_str (v : JsValue) (lit : string) : bool :=
  match v with
  | JStr s => String.eqb s lit
  | _ => false
  end.

End Js.

(** ** JSON *)

Module JSON.

Definition hex_digit (n : Z) : ascii :=
  match n with
  | 0 => "0" | 1 => "1" | 2 => "2" | 3 => "3" | 4 => "4"
  | 5 => "5" | 6 => "6" | 7 => "7" | 8 => "8" | 9 => "9"
  | 10 => "a" | 11 => "b" | 12 => "c" | 13 => "d" | 14 => "e"
  | _ => "f"
  end%char.

Definition code (c : ascii) : Z := Z.of_N (N_of_ascii c).

Definition chr (n : Z) : ascii := ascii_of_N (Z.to_N n).

(** The double-quote character, code 34. *)
Definition dquote : ascii := Ascii false true false false false true false false.

(** Test texts are written with apostrophes where JSON has double
    quotes; [sq] puts the double quotes back. *)
Fixpoint sq (s : string) : string :=
  match s with
  | EmptyString => EmptyString
  | String c r => String (if Ascii.eqb c "'" then dquote else c) (sq r)
  end.

(** The code unit of a surrogate, from the three bytes that hold it:
    [ED], then a byte from [A0] to [BF], then a continuation byte. *)
Definition surrogate (c1 c2 c3 : ascii) : option Z :=
  if (code c1 =? 237) && (160 <=? code c2) && (code c2 <=? 191)
     && (128 <=? code c3) && (code c3 <=? 191)
  then Some (53248 + (code c2 - 128) * 64 + (code c3 - 128))
  else None.

(** QuoteJSONString, one character at a time. *)
Definition quote_char (c : ascii) : string :=
  if Ascii.eqb c dquote then String "\" (String dquote EmptyString)
  else if Ascii.eqb c "\" then "\\"
  else if code c =? 8 then "\b"
  else if code c =? 12 then "\f"
  else if code c =? 10 then "\n"
  else if code c =? 13 then "\r"
  else if code c =? 9 then "\t"
  else if code c <? 32 then
    "\u00" +:+ String (hex_digit (code c / 16))
                 (String (hex_digit (code c mod 16)) EmptyString)
  else String c EmptyString.

(** [\uXXXX] for a code unit. *)
Definition unicode_escape (u : Z) : string :=
  "\u" +:+ String (hex_digit (u / 4096))
             (String (hex_digit ((u / 256) mod 16))
                (String (hex_digit ((u / 16) mod 16))
                   (String (hex_digit (u mod 16)) EmptyString))).

(** A surrogate without its partner is written as an escape; every
    other character above the controls stands for itself. *)
Fixpoint quote_chars (s : string) : string :=
  match s with
  | EmptyString => EmptyString
  | String c r =>
      match r with
      | String c2 (String c3 r3) =>
          match surrogate c c2 c3 with
          | Some u => unicode_escape u +:+ quote_chars r3
          | None => quote_char c +:+ quote_chars r
          end
      | _ => quote_char c +:+ quote_chars r
      end
  end.

Definition quote (s : string) : string :=
  String dquote (quote_chars s +:+ String dquote EmptyString).

(** SerializeJSONProperty: [None] is JavaScript's [undefined], the
    result for a value that has no JSON text. A property holding such
    a value is left out of its object; an array element holding one is
    written [null]. *)
Fixpoint serialize (v : JsValue) : option string :=
  match v with
  | JUndefined => None
  | JNull => Some "null"
  | JBool true => Some "true"
  | JBool false => Some "false"
  | JNum _ | JFrac _ _ | JInfinity _ | JNaN => Some (Num.json_text v)
  | JStr s => Some (quote s)
  | JArr items =>
      Some ("[" +:+ Js.join ","
              (map (fun e => match serialize e with
                             | Some t => t
                             | None => "null"
                             end) items) +:+ "]")
  | JObj props =>
      Some ("{" +:+ Js.join ","
              ((fix members (ps : list (string * JsValue)) : list string :=
                  match ps with
                  | [] => []
                  | (k, x) :: rest =>
                      match serialize x with
                      | Some t => (quote k +:+ ":" +:+ t) :: members rest
                      | None => members rest
                      end
                  end) props) +:+ "}")
  end.

(** [JSON.stringify(v)]. *)
Definition stringify (v : JsValue) : option string := serialize v.

(** The text of an object, spelled out: its properties that have a
    text, in order. *)
Fixpoint members (ps : list (string * JsValue)) : list string :=
  match ps with
  | [] => []
  | (k, x) :: rest =>
      match serialize x with
      | Some t => (quote k +:+ ":" +:+ t) :: members rest
      | None => members rest
      end
  end.

Definition object_text (props : list (string * JsValue)) : string :=
  "{" +:+ Js.join "," (members props) +:+ "}".

(** *** Parsing *)

Definition is_ws (c : ascii) : bool :=
  (code c =? 32) || (code c =? 9) || (code c =? 10) || (code c =? 13).

Fixpoint skip_ws (s : list ascii) : list ascii :=
  match s with
  | c :: r => if is_ws c then skip_ws r else s
  | [] => []
  end.

Definition digit_val (c : ascii) : option Z :=
  if (48 <=? code c) && (code c <=? 57) then Some (code c - 48) else None.

Definition hex_val (c : ascii) : option Z :=
  if (48 <=? code c) && (code c <=? 57) then Some (code c - 48)
  else if (97 <=? code c) && (code c <=? 102) then Some (code c - 87)
  else if (65 <=? code c) && (code c <=? 70) then Some (code c - 55)
  else None.

(** The bytes of a code unit written [\uXXXX]; a surrogate takes the
    three bytes of its own value. *)
Definition utf8 (cp : Z) : list ascii :=
  if cp <? 128 then [chr cp]
  else if cp <? 2048 then [chr (192 + cp / 64); chr (128 + cp mod 64)]
  else [chr (224 + cp / 4096); chr (128 + (cp / 64) mod 64); chr (128 + cp mod 64)].

Fixpoint prepend (cs : list ascii) (s : string) : string :=
  match cs with
  | [] => s
  | c :: r => String c (prepend r s)
  end.

(** A high surrogate followed by a low one is one code point above
    [FFFF]: the two become its four bytes, wherever the two came from,
    an escape or the text itself. *)
Fixpoint join_surrogates (s : string) : string :=
  match s with
  | EmptyString => EmptyString
  | String c1 t =>
      match t with
      | String c2 (String c3 (String c4 (String c5 (String c6 r)))) =>
          match surrogate c1 c2 c3, surrogate c4 c5 c6 with
          | Some hi, Some lo =>
              if (hi <? 56320) && (56320 <=? lo) then
                let cp := 65536 + (hi - 55296) * 1024 + (lo - 56320) in
                String (chr (240 + cp / 262144))
                  (String (chr (128 + (cp / 4096) mod 64))
                     (String (chr (128 + (cp / 64) mod 64))
                        (String (chr (128 + cp mod 64)) (join_surrogates r))))
              else String c1 (join_surrogates t)
          | _, _ => String c1 (join_surrogates t)
          end
      | _ => String c1 (join_surrogates t)
      end
  end.

(** The characters of a string literal after its opening quote, up to
    and past the closing one, escapes resolved. *)
Fixpoint parse_chars (s : list ascii) : option (string * list ascii) :=
  match s with
  | [] => None
  | c :: r =>
      if Ascii.eqb c dquote then Some (EmptyString, r)
      else if Ascii.eqb c "\" then
        match r with
        | e :: r1 =>
            let simple (x : Z) :=
              match parse_chars r1 with
              | Some (t, rest) => Some (String (chr x) t, rest)
              | None => None
              end in
            if Ascii.eqb e dquote then simple 34
            else if Ascii.eqb e "\" then simple 92
            else if Ascii.eqb e "/" then simple 47
            else if Ascii.eqb e "b" then simple 8
            else if Ascii.eqb e "f" then simple 12
            else if Ascii.eqb e "n" then simple 10
            else if Ascii.eqb e "r" then simple 13
            else if Ascii.eqb e "t" then simple 9
            else if Ascii.eqb e "u" then
              match r1 with
              | h1 :: h2 :: h3 :: h4 :: r2 =>
                  match hex_val h1, hex_val h2, hex_val h3, hex_val h4 with
                  | Some a, Some b, Some c', Some d =>
                      match parse_chars r2 with
                      | Some (t, rest) =>
                          Some (prepend (utf8 (((a * 16 + b) * 16 + c') * 16 + d)) t, rest)
                      | None => None
                      end
                  | _, _, _, _ => None
                  end
              | _ => None
              end
            else None
        | [] => None
        end
      else if code c <? 32 then None
      else
        match parse_chars r with
        | Some (t, rest) => Some (String c t, rest)
        | None => None
        end
  end.

(** A string literal after its opening quote: the string it denotes and
    what follows it. *)
Definition parse_string (s : list ascii) : option (string * list ascii) :=
  match parse_chars s with
  | Some (t, rest) => Some (join_surrogates t, rest)
  | None => None
  end.

Fixpoint parse_digits (acc : Z) (s : list ascii) : Z * list ascii :=
  match s with
  | c :: r =>
      match digit_val c with
      | Some d => parse_digits (acc * 10 + d) r
      | None => (acc, s)
      end
  | [] => (acc, [])
  end.

(** The integer part of a number: [0], or a digit other than [0]
    followed by digits. *)
Definition parse_int (s : list ascii) : option (Z * list ascii) :=
  match s with
  | c :: r =>
      match digit_val c with
      | Some d => Some (if d =? 0 then (0, r) else parse_digits d r)
      | None => None
      end
  | [] => None
  end.

(** One digit at least: the value of the digits, how many they are and
    what follows them. *)
Definition parse_digits1 (s : list ascii) : option (Z * Z * list ascii) :=
  match s with
  | c :: _ =>
      match digit_val c with
      | Some _ =>
          let '(n, rest) := parse_digits 0 s in
          Some (n, Z.of_nat (List.length s - List.length rest), rest)
      | None => None
      end
  | [] => None
  end.

(** The fraction of a number, if it has one: a point and one digit at
    least. *)
Definition parse_fraction (s : list ascii) : option (Z * Z * list ascii) :=
  match s with
  | c :: r => if Ascii.eqb c "." then parse_digits1 r else Some (0, 0, s)
  | [] => Some (0, 0, [])
  end.

(** The exponent of a number, if it has one: [e] or [E], a sign or
    none, and one digit at least. *)
Definition parse_exponent (s : list ascii) : option (Z * list ascii) :=
  match s with
  | c :: r =>
      if Ascii.eqb c "e" || Ascii.eqb c "E" then
        match r with
        | sign :: r' =>
            match (if Ascii.eqb sign "-" || Ascii.eqb sign "+"
                   then parse_digits1 r' else parse_digits1 r) with
            | Some (x, _, rest) => Some (if Ascii.eqb sign "-" then - x else x, rest)
            | None => None
            end
        | [] => None
        end
      else Some (0, s)
  | [] => Some (0, [])
  end.

(** A number: a minus sign or none, the integer part, then a fraction
    and an exponent where they are written. With the digits [i] before
    the point and the [count] digits [f] after it, it denotes
    [(i * 10^count + f) * 10^(x - count)]. *)
Definition parse_number (s : list ascii) : option (JsValue * list ascii) :=
  let '(negative, s1) :=
    match s with
    | c :: r => if Ascii.eqb c "-" then (true, r) else (false, s)
    | [] => (false, [])
    end in
  match parse_int s1 with
  | Some (i, s2) =>
      match parse_fraction s2 with
      | Some (f, count, s3) =>
          match parse_exponent s3 with
          | Some (x, s4) =>
              Some (Num.numeral negative (i * 10 ^ count + f) (x - count), s4)
          | None => None
          end
      | None => None
      end
  | None => None
  end.

(** Property names that are array indices ([0] to [2^32 - 2], written
    canonically) are enumerated first, in ascending order; the others
    follow in the order they were created. *)
Definition index_of (k : string) : option Z :=
  match parse_int (list_ascii_of_string k) with
  | Some (n, []) => if n <? 4294967295 then Some n else None
  | _ => None
  end.

Fixpoint insert_index (n : Z) (k : string) (v : JsValue)
    (ps : list (string * JsValue)) : list (string * JsValue) :=
  match ps with
  | [] => [(k, v)]
  | (k', v') :: rest =>
      match index_of k' with
      | Some m => if m <? n then (k', v') :: insert_index n k v rest
                  else (k, v) :: ps
      | None => (k, v) :: ps
      end
  end.

Fixpoint replace_prop (k : string) (v : JsValue)
    (ps : list (string * JsValue)) : option (list (string * JsValue)) :=
  match ps with
  | [] => None
  | (k', v') :: rest =>
      if String.eqb k' k then Some ((k', v) :: rest)
      else match replace_prop k v rest with
           | Some rest' => Some ((k', v') :: rest')
           | None => None
           end
  end.

(** CreateDataProperty on an object under construction: a name seen
    again keeps its place and takes the new value. *)
Definition put_prop (k : string) (v : JsValue)
    (ps : list (string * JsValue)) : list (string * JsValue) :=
  match replace_prop k v ps with
  | Some ps' => ps'
  | None =>
      match index_of k with
      | Some n => insert_index n k v ps
      | None => ps ++ [(k, v)]
      end
  end.

(** What follows the word [w] at the head of [s]. *)
Fixpoint literal (w : string) (s : list ascii) : option (list ascii) :=
  match w, s with
  | EmptyString, _ => Some s
  | String a w', c :: r => if Ascii.eqb a c then literal w' r else None
  | String _ _, [] => None
  end.

(** The value grammar, by recursive descent. Every call spends one
    unit of fuel. *)
Fixpoint parse_value (fuel : nat) (s : list ascii) : option (JsValue * list ascii) :=
  match fuel with
  | O => None
  | S fuel =>
      match skip_ws s with
      | [] => None
      | c :: r =>
          if Ascii.eqb c "n" then
            match literal "ull" r with Some rest => Some (JNull, rest) | None => None end
          else if Ascii.eqb c "t" then
            match literal "rue" r with Some rest => Some (JBool true, rest) | None => None end
          else if Ascii.eqb c "f" then
            match literal "alse" r with Some rest => Some (JBool false, rest) | None => None end
          else if Ascii.eqb c dquote then
            match parse_string r with
            | Some (t, rest) => Some (JStr t, rest)
            | None => None
            end
          else if Ascii.eqb c "[" then
            match skip_ws r with
            | x :: r' =>
                if Ascii.eqb x "]" then Some (JArr [], r')
                else parse_elements fuel r []
            | [] => None
            end
          else if Ascii.eqb c "{" then
            match skip_ws r with
            | x :: r' =>
                if Ascii.eqb x "}" then Some (JObj [], r')
                else parse_members fuel r []
            | [] => None
            end
          else parse_number (c :: r)
      end
  end
with parse_elements (fuel : nat) (s : list ascii) (acc : list JsValue)
    : option (JsValue * list ascii) :=
  match fuel with
  | O => None
  | S fuel =>
      match parse_value fuel s with
      | Some (v, rest) =>
          match skip_ws rest with
          | x :: r' =>
              if Ascii.eqb x "," then parse_elements fuel r' (acc ++ [v])
              else if Ascii.eqb x "]" then Some (JArr (acc ++ [v]), r')
              else None
          | [] => None
          end
      | None => None
      end
  end
with parse_members (fuel : nat) (s : list ascii) (acc : list (string * JsValue))
    : option (JsValue * list ascii) :=
  match fuel with
  | O => None
  | S fuel =>
      match skip_ws s with
      | q :: r =>
          if Ascii.eqb q dquote then
            match parse_string r with
            | Some (k, r1) =>
                match skip_ws r1 with
                | colon :: r2 =>
                    if Ascii.eqb colon ":" then
                      match parse_value fuel r2 with
                      | Some (v, rest) =>
                          match skip_ws rest with
                          | x :: r' =>
                              if Ascii.eqb x "," then parse_members fuel r' (put_prop k v acc)
                              else if Ascii.eqb x "}" then Some (JObj (put_prop k v acc), r')
                              else None
                          | [] => None
                          end
                      | None => None
                      end
                    else None
                | [] => None
                end
            | None => None
            end
          else None
      | [] => None
      end
  end.

(** [JSON.parse(text)]; [None] is a thrown [SyntaxError]. Two units of
    fuel per character cover every call the descent can make. *)
Definition parse (text : string) : option JsValue :=
  let cs := list_ascii_of_string text in
  match parse_value (2 * List.length cs + 2) cs with
  | Some (v, rest) =>
      match skip_ws rest with
      | [] => Some v
      | _ :: _ => None
      end
  | None => None
  end.

End JSON.

(** ** Commands and programs *)

(** The I/O calls of the controllers, indexed by what each resolves to. *)
Inductive Cmd : Type -> Type :=
| RedisDel (key : string) : Cmd Z
| RedisGet (key : string) : Cmd (option string)
| RedisSet (key value : string) : Cmd unit
| RedisExpire (key : string) (seconds : Z) : Cmd Z
| FindBooks (limit offset : PageParam) : Cmd (list JsValue * Z)
| FindMostViewedBooks (detail : JsValue) : Cmd JsValue
| CreateBook (body : JsValue) : Cmd JsValue
| UpdateBook (id : JsValue) (body : JsValue) : Cmd JsValue
| RemoveBook (id : JsValue) : Cmd JsValue.

Definition is_cache_cmd {X} (c : Cmd X) : bool :=
  match c with
  | RedisDel _ | RedisGet _ | RedisSet _ _ | RedisExpire _ _ => true
  | _ => false
  end.

Definition is_cache_write {X} (c : Cmd X) : bool :=
  match c with
  | RedisSet _ _ | RedisExpire _ _ => true
  | _ => false
  end.

(** An asynchronous function body: it returns, throws, or issues a call
    and goes on with the settled promise (rejected on the left, fulfilled
    on the right). *)
Inductive Prog (A : Type) : Type :=
| Ret (a : A)
| Throw (e : Error)
| Call {X : Type} (c : Cmd X) (k : Error + X -> Prog A).

Arguments Ret {A} a.
Arguments Throw {A} e.
Arguments Call {A X} c k.

(** A step that makes no call: it yields its value or throws its
    error. *)
Definition eval {A} (r : Error + A) : Prog A :=
  match r with
  | inl e => Throw e
  | inr a => Ret a
  end.

(** [await c]: a rejection is thrown at the point of the [await]. *)
Definition await {X} (c : Cmd X) : Prog X :=
  Call c (fun r => match r with inl e => Throw e | inr x => Ret x end).

(** A call whose promise is dropped: the command is issued and the body
    goes on whatever becomes of it. A rejection is then nobody's to
    catch; what the runtime does with it is not followed here. *)
Definition no_await {X} (c : Cmd X) : Prog unit :=
  Call c (fun _ => Ret tt).

Fixpoint bind {A B} (p : Prog A) (f : A -> Prog B) : Prog B :=
  match p with
  | Ret a => f a
  | Throw e => Throw e
  | Call c k => Call c (fun r => bind (k r) f)
  end.

(** [try { p } catch (err) { h err }]. *)
Fixpoint try_catch {A} (p : Prog A) (h : Error -> Prog A) : Prog A :=
  match p with
  | Ret a => Ret a
  | Throw e => h e
  | Call c k => Call c (fun r => try_catch (k r) h)
  end.

#[global] Instance Prog_ret : MRet Prog := @Ret.
#[global] Instance Prog_bind : MBind Prog := fun A B f p => bind p f.

(** ** The cache *)

(** Modelled from the spec: the cache client of [config/redis], which is
    not among the sources. The interface is the spec's ([get], [set],
    [expire], [delete]); the meaning of each command is Redis's: [SET]
    stores a value with no expiry, [EXPIRE] arms the expiry of a key that
    exists and removes the key when the time given is not positive, [DEL]
    and [EXPIRE] answer how many keys they touched. A client that is
    not connected rejects every command. The passing of time is not part
    of the model: an armed expiry is recorded, not run. *)
Module Redis.

Record Entry : Type := { value : string; ttl : option Z }.

Record t : Type := { entries : gmap string Entry; online : bool }.

Definition with_entries (r : t) (m : gmap string Entry) : t :=
  {| entries := m; online := online r |}.

Definition down : Error := CacheError "connection is closed".

Definition del (key : string) (r : t) : (Error + Z) * t :=
  if online r then
    (inr (match entries r !! key with Some _ => 1 | None => 0 end),
     with_entries r (delete key (entries r)))
  else (inl down, r).

Definition get (key : string) (r : t) : (Error + option string) * t :=
  if online r then (inr (value <$> entries r !! key), r)
  else (inl down, r).

Definition set (key v : string) (r : t) : (Error + unit) * t :=
  if online r then
    (inr tt, with_entries r (<[key := {| value := v; ttl := None |}]> (entries r)))
  else (inl down, r).

Definition expire (key : string) (seconds : Z) (r : t) : (Error + Z) * t :=
  if online r then
    match entries r !! key with
    | Some e =>
        (inr 1,
         with_entries r
           (if seconds <=? 0 then delete key (entries r)
            else <[key := {| value := value e; ttl := Some seconds |}]> (entries r)))
    | None => (inr 0, r)
    end
  else (inl down, r).

End Redis.

(** ** The store *)

(** The operations of [BookService] the controllers call. The service is
    not among the sources, so it is an interface here: each operation
    reads and possibly changes a store of type [Store] and settles with
    a value or a rejection. *)
Class BookService (Store : Type) : Type := {
  findBooks : PageParam -> PageParam -> Store -> (Error + (list JsValue * Z)) * Store;
  findMostViewedBooks : JsValue -> Store -> (Error + JsValue) * Store;
  createBook : JsValue -> Store -> (Error + JsValue) * Store;
  updateBook : JsValue -> JsValue -> Store -> (Error + JsValue) * Store;
  removeBook : JsValue -> Store -> (Error + JsValue) * Store;
}.

(** ** Running a program *)

Record World (Store : Type) : Type := { store : Store; redis : Redis.t }.
Arguments store {Store} w.
Arguments redis {Store} w.

(** One settled call, as it appears in the history of a run. *)
Inductive Event : Type :=
| Ev {X : Type} (c : Cmd X) (r : Error + X).

Definition cache_event (e : Event) : bool :=
  match e with Ev c _ => is_cache_cmd c end.

Definition cache_write_event (e : Event) : bool :=
  match e with Ev c _ => is_cache_write c end.

Section Run.

Context {Store : Type} `{BookService Store}.

Definition on_redis {X} (f : Redis.t -> (Error + X) * Redis.t) (w : World Store)
    : (Error + X) * World Store :=
  let '(r, c) := f (redis w) in (r, {| store := store w; redis := c |}).

Definition on_store {X} (f : Store -> (Error + X) * Store) (w : World Store)
    : (Error + X) * World Store :=
  let '(r, s) := f (store w) in (r, {| store := s; redis := redis w |}).

Definition exec {X} (c : Cmd X) : World Store -> (Error + X) * World Store :=
  match c with
  | RedisDel key => on_redis (Redis.del key)
  | RedisGet key => on_redis (Redis.get key)
  | RedisSet key v => on_redis (Redis.set key v)
  | RedisExpire key seconds => on_redis (Redis.expire key seconds)
  | FindBooks limit offset => on_store (findBooks limit offset)
  | FindMostViewedBooks detail => on_store (findMostViewedBooks detail)
  | CreateBook body => on_store (createBook body)
  | UpdateBook id body => on_store (updateBook id body)
  | RemoveBook id => on_store (removeBook id)
  end.

(** A run to completion with no other request in between: the result,
    the world left behind and the calls made, oldest first. *)
Fixpoint run {A} (p : Prog A) (w : World Store)
    : (Error + A) * World Store * list Event :=
  match p with
  | Ret a => (inr a, w, [])
  | Throw e => (inl e, w, [])
  | Call c k =>
      let '(r, w1) := exec c w in
      let '(out, w2, tr) := run (k r) w1 in
      (out, w2, Ev c r :: tr)
  end.

(** A run up to the next suspension: one call is settled and the rest of
    the body is handed back. A body that is over stays as it is. *)
Definition step {A} (p : Prog A) (w : World Store)
    : Prog A * World Store * list Event :=
  match p with
  | Call c k => let '(r, w1) := exec c w in (k r, w1, [Ev c r])
  | _ => (p, w, [])
  end.

End Run.

(** ** Requests and responses *)

Record Pagination : Type := {
  page : PageParam;
  limit : PageParam;
  offset : PageParam;
}.

(** What a controller reads of an Express request. [pagination] and
    [calculatePagination] are put there by a middleware that is not among
    the sources; [calculatePagination total] is the value the middleware's
    function leaves in [req.paginationInfo]. *)
Record Request : Type := {
  body : JsValue;
  query : gmap string JsValue;
  params : gmap string JsValue;
  pagination : Pagination;
  calculatePagination : Z -> JsValue;
}.

(** Reading a property that may not be there. *)
Definition prop (name : string) (m : gmap string JsValue) : JsValue :=
  default JUndefined (m !! name).

(** How a controller ends: [res.status(s).json(v)] or [next(err)]. A
    controller whose body throws outside its [try] ends in neither: its
    promise is rejected, which a run shows as an error in place of an
    outcome. *)
Inductive Outcome : Type :=
| Respond (status : Z) (payload : JsValue)
| Next (err : Error).

(** ** The controllers *)

(** The key of the listing cache, the template literal [books_${body}]:
    it throws where the conversion of the body to a string does. *)
Definition cache_key (b : JsValue) : Error + string :=
  match Js.toString b with
  | inr s => inr ("books_" +:+ s)
  | inl e => inl e
  end.

(** The key is made before the [try]: an error thrown there is not
    handed to [next]. *)
Definition getBooks (req : Request) : Prog Outcome :=
  key ← eval (cache_key (body req));
  let page := page (pagination req) in
  let limit := limit (pagination req) in
  let offset := offset (pagination req) in
  try_catch
    (if negb (Js.truthy_param limit) || negb (Js.truthy_param page) then
       _ ← await (RedisDel key);
       '(results, totalBooks) ← await (FindBooks limit offset);
       mret (Respond 200 (JObj [("totalBooks", JNum totalBooks);
                                ("results", JArr results)]))
     else
       _ ← (if Js.truthy_param limit && Js.truthy_param page
            then _ ← await (RedisDel key); mret tt
            else mret tt);
       cachedData ← await (RedisGet key);
       match (if Js.truthy_reply cachedData then cachedData else None) with
       | Some text =>
           match JSON.parse text with
           | Some cachedResponse => mret (Respond 200 cachedResponse)
           | None => Throw SyntaxError
           end
       | None =>
           '(results, totalBooks) ← await (FindBooks limit offset);
           let response :=
             JObj [("info", calculatePagination req totalBooks);
                   ("results", JArr results)] in
           (* The response is an object literal, so [JSON.stringify]
              yields text (see [stringify_object]); the other branch is
              the client refusing [undefined] and is never taken. *)
           match JSON.stringify response with
           | Some text =>
               _ ← await (RedisSet key text);
               _ ← await (RedisExpire key 300);
               if Z.of_nat (List.length results) <? 1
               then Throw (NotFound "No se encontraron más libros")
               else mret (Respond 200 response)
           | None => Throw TypeError
           end
       end)
    (fun err => Ret (Next err)).

Definition getMostViewedBooks (req : Request) : Prog Outcome :=
  let detail := prop "detail" (query req) in
  try_catch
    (if negb (Js.truthy detail)
        || (negb (Js.strict_eq_str detail "summary")
            && negb (Js.strict_eq_str detail "full"))
     then Throw (BadRequest "Parámetro detail inválido")
     else
       result ← await (FindMostViewedBooks detail);
       mret (Respond 200 result))
    (fun err => Ret (Next err)).

Definition postBooks (req : Request) : Prog Outcome :=
  try_catch
    (resultBook ← await (CreateBook (body req));
     if negb (Js.truthy resultBook)
     then Throw (BadRequest "Error al publicar, la solicitud está vacia")
     else
       key ← eval (cache_key (body req));
       _ ← no_await (RedisExpire key 0);
       mret (Respond 201 resultBook))
    (fun err => Ret (Next err)).

Definition putBooks (req : Request) : Prog Outcome :=
  let id := prop "id" (params req) in
  try_catch
    (result ← await (UpdateBook id (body req));
     if negb (Js.truthy result)
     then Throw (BadRequest "No se pudo actualizar")
     else mret (Respond 201 result))
    (fun err => Ret (Next err)).

Definition deleteBook (req : Request) : Prog Outcome :=
  let id := prop "id" (params req) in
  try_catch
    (book ← await (RemoveBook id);
     if negb (Js.truthy book)
     then Throw (NotFound "Libro no encontrado")
     else mret (Respond 200
                  (JObj [("success", JObj [("message", JStr "Libro eliminado")])])))
    (fun err => Ret (Next err)).

(** ** The pagination middleware *)

(** Modelled from the spec: the Pagination Calculator (section 4.1). The
    middleware that fills [req.pagination] and installs
    [req.calculatePagination] is not among the sources. *)
Module PaginationCalculator.

Record PaginationInfo : Type := {
  totalItems : Z;
  itemsPerPage : Z;
  currentPage : Z;
  totalPages : Z;
  pageOffset : Z;
}.

(** [ceil (a / b)] for a positive [b]. *)
Definition ceil_div (a b : Z) : Z := - ((- a) / b).

Definition compute (page limit total : Z) : PaginationInfo :=
  {| totalItems := total;
     itemsPerPage := limit;
     currentPage := page;
     totalPages := ceil_div total limit;
     pageOffset := (page - 1) * limit |}.

Definition to_json (i : PaginationInfo) : JsValue :=
  JObj [("totalItems", JNum (totalItems i));
        ("itemsPerPage", JNum (itemsPerPage i));
        ("currentPage", JNum (currentPage i));
        ("totalPages", JNum (totalPages i));
        ("offset", JNum (pageOffset i))].

(** The request a listing call with the given page and limit becomes. *)
Definition paged (b : JsValue) (page limit : Z) : Request :=
  {| body := b; query := ∅; params := ∅;
     pagination := {| page := Given page; limit := Given limit;
                      offset := Given ((page - 1) * limit) |};
     calculatePagination := fun total => to_json (compute page limit total) |}.

(** A listing call that names no page and no limit. *)
Definition unpaged (b : JsValue) : Request :=
  {| body := b; query := ∅; params := ∅;
     pagination := {| page := Absent; limit := Absent; offset := Absent |};
     calculatePagination := fun _ => JUndefined |}.

End PaginationCalculator.

(** ** A store in memory *)

(** Modelled from the spec: a Store Adapter (section 6) that keeps the
    collection in a list. It stands in for [BookService], which is not
    among the sources, where a statement is tried on concrete data. *)
Module MemStore.

Definition id_of (book : JsValue) : option string :=
  match book with
  | JObj props =>
      match List.find (fun kv => String.eqb (fst kv) "id") props with
      | Some (_, JStr s) => Some s
      | _ => None
      end
  | _ => None
  end.

Definition has_id (id : JsValue) (book : JsValue) : bool :=
  match id, id_of book with
  | JStr a, Some b => String.eqb a b
  | _, _ => false
  end.

Definition listPage (limit offset : PageParam) (books : list JsValue) : list JsValue :=
  match limit, offset with
  | Given l, Given o =>
      if (0 <? l) && (0 <=? o) then take (Z.to_nat l) (drop (Z.to_nat o) books)
      else books
  | _, _ => books
  end.

#[global] Instance service : BookService (list JsValue) := {|
  findBooks limit offset books :=
    (inr (listPage limit offset books, Z.of_nat (List.length books)), books);
  findMostViewedBooks detail books := (inr (JArr (take 10 books)), books);
  createBook b books :=
    match b with
    | JObj (_ :: _) => (inr b, (books ++ [b])%list)
    | _ => (inr JNull, books)
    end;
  updateBook id b books :=
    match List.find (has_id id) books with
    | Some _ => (inr b, map (fun x => if has_id id x then b else x) books)
    | None => (inr JNull, books)
    end;
  removeBook id books :=
    match List.find (has_id id) books with
    | Some x => (inr x, List.filter (fun y => negb (has_id id y)) books)
    | None => (inr JNull, books)
    end;
|}.

Definition book (id title : string) : JsValue :=
  JObj [("id", JStr id); ("title", JStr title)].

Definition world (books : list JsValue) (cache : gmap string Redis.Entry)
    : World (list JsValue) :=
  {| store := books; redis := {| Redis.entries := cache; Redis.online := true |} |}.

End MemStore.

(** A store whose every operation is rejected. *)
Module DownStore.

Definition failure : Error := StoreError "connection refused".

Definition service : BookService unit := {|
  findBooks _ _ s := (inl failure, s);
  findMostViewedBooks _ s := (inl failure, s);
  createBook _ s := (inl failure, s);
  updateBook _ _ s := (inl failure, s);
  removeBook _ s := (inl failure, s);
|}.

End DownStore.

(** * Vocabulary of the statements *)

(** A value comes back from its own JSON text. *)
Definition round_trips (v : JsValue) : Prop :=
  exists text, JSON.stringify v = Some text /\ JSON.parse text = Some v.

(** What may follow a value inside a JSON text: nothing, a comma or a
    closing bracket. *)
Definition stops (rest : list ascii) : Prop :=
  match rest with
  | [] => True
  | c :: _ => c = ","%char \/ c = "]"%char \/ c = "}"%char
  end.

(** A surrogate stands at the head of [String c r]. *)
Definition surrogate_at (c : ascii) (r : string) : bool :=
  match r with
  | String c2 (String c3 _) =>
      match JSON.surrogate c c2 c3 with Some _ => true | None => false end
  | _ => false
  end.

(** A string that holds no surrogate. *)
Fixpoint plain (s : string) : bool :=
  match s with
  | EmptyString => true
  | String c r => negb (surrogate_at c r) && plain r
  end.

(** Values that JSON carries as they are: no [undefined] anywhere,
    Numbers that are integers below [2^53] in size, strings and property
    names without surrogates, and objects whose property names are
    distinct and are not array indices (those, JavaScript would
    reorder). *)
Inductive clean : JsValue -> Prop :=
| clean_null : clean JNull
| clean_bool b : clean (JBool b)
| clean_num n : Z.abs n < 2 ^ 53 -> clean (JNum n)
| clean_str s : plain s = true -> clean (JStr s)
| clean_arr items : Forall clean items -> clean (JArr items)
| clean_obj props :
    Forall (fun kv => clean kv.2) props ->
    Forall (fun kv => plain kv.1 = true) props ->
    Forall (fun kv => JSON.index_of kv.1 = None) props ->
    NoDup (map fst props) ->
    clean (JObj props).

(** The fuel the parser needs for the text of a value. *)
Fixpoint weight (v : JsValue) : nat :=
  match v with
  | JArr items =>
      S ((fix sum (l : list JsValue) : nat :=
            match l with [] => O | x :: r => (S (weight x) + sum r)%nat end) items)
  | JObj props =>
      S ((fix sum (l : list (string * JsValue)) : nat :=
            match l with [] => O | (_, x) :: r => (S (weight x) + sum r)%nat end) props)
  | _ => 1%nat
  end.

Fixpoint weights (l : list JsValue) : nat :=
  match l with [] => O | x :: r => (S (weight x) + weights r)%nat end.

Fixpoint prop_weights (l : list (string * JsValue)) : nat :=
  match l with [] => O | (_, x) :: r => (S (weight x) + prop_weights r)%nat end.

(** Induction on values that reaches the elements of arrays and the
    properties of objects. *)
Section JsValueInd.
Variable P : JsValue -> Prop.
Hypothesis Hundefined : P JUndefined.
Hypothesis Hnull : P JNull.
Hypothesis Hbool : forall b, P (JBool b).
Hypothesis Hnum : forall n, P (JNum n).
Hypothesis Hstr : forall s, P (JStr s).
Hypothesis Harr : forall items, Forall P items -> P (JArr items).
Hypothesis Hobj : forall props, Forall (fun kv => P kv.2) props -> P (JObj props).
Hypothesis Hfrac : forall m e, P (JFrac m e).
Hypothesis Hinfinity : forall negative, P (JInfinity negative).
Hypothesis Hnan : P JNaN.

Fixpoint JsValue_nested_ind (v : JsValue) : P v :=
  match v with
  | JUndefined => Hundefined
  | JNull => Hnull
  | JBool b => Hbool b
  | JNum n => Hnum n
  | JStr s => Hstr s
  | JArr items =>
      Harr items
        ((fix go (l : list JsValue) : Forall P l :=
            match l with
            | [] => @List.Forall_nil _ P
            | x :: r => @List.Forall_cons _ P x r (JsValue_nested_ind x) (go r)
            end) items)
  | JObj props =>
      Hobj props
        ((fix go (l : list (string * JsValue)) : Forall (fun kv => P kv.2) l :=
            match l with
            | [] => @List.Forall_nil _ _
            | (k, x) :: r =>
                @List.Forall_cons _ (fun kv => P kv.2) (k, x) r (JsValue_nested_ind x) (go r)
            end) props)
  | JFrac m e => Hfrac m e
  | JInfinity negative => Hinfinity negative
  | JNaN => Hnan
  end.
End JsValueInd.

(** A value whose text parses back to it, within its weight of fuel and
    before anything that ends a value. *)
Definition parses_back (v : JsValue) : Prop :=
  exists t,
    JSON.serialize v = Some t
    /\ (weight v <= 2 * List.length (list_ascii_of_string t))%nat
    /\ forall fuel rest,
         (weight v <= fuel)%nat -> stops rest ->
         JSON.parse_value fuel (list_ascii_of_string t ++ rest)%list = Some (v, rest).

(** The text of an array element: [null] where the element has none. *)
Definition element_text (e : JsValue) : string :=
  match JSON.serialize e with Some t => t | None => "null" end.

(** The head of a JSON text. *)
Definition opens_value (c : ascii) : Prop :=
  JSON.is_ws c = false /\ Ascii.eqb c "]" = false /\ Ascii.eqb c "}" = false.

(** The properties of an object text, put one after the other. *)
Definition put_all (props acc : list (string * JsValue)) : list (string * JsValue) :=
  fold_left (fun a kv => JSON.put_prop kv.1 kv.2 a) props acc.

(** [all_cmds P p]: every command [p] can issue, whatever the calls
    before it settle to, satisfies [P]. *)
Fixpoint all_cmds (P : forall X, Cmd X -> Prop) {A} (p : Prog A) : Prop :=
  match p with
  | Call c k => P _ c /\ forall r, all_cmds P (k r)
  | _ => True
  end.

Definition event_cmd (P : forall X, Cmd X -> Prop) (e : Event) : Prop :=
  match e with Ev c _ => P _ c end.

(** The key a cache command is about. *)
Definition cmd_key {X} (c : Cmd X) : option string :=
  match c with
  | RedisDel key | RedisGet key | RedisSet key _ | RedisExpire key _ => Some key
  | _ => None
  end.

Definition event_key (e : Event) : option string :=
  match e with Ev c _ => cmd_key c end.

Definition uses_key (key : string) (e : Event) : Prop :=
  forall k, event_key e = Some k -> k = key.



(** The two readings of a pagination parameter that is not a positive
    number: what the guard of [getBooks] tests, and what the word
    non-positive says. *)
Definition missing_or_zero (p : PageParam) : Prop := p = Absent \/ p = Given 0.

Definition missing_or_nonpositive (p : PageParam) : Prop :=
  p = Absent \/ exists n, p = Given n /\ n <= 0.

(** Page and limit are both there and truthy. *)
Definition paginated (req : Request) : Prop :=
  Js.truthy_param (page (pagination req)) = true
  /\ Js.truthy_param (limit (pagination req)) = true.

(** The object [{ info, results }] of the paginated path. *)
Definition response_of (req : Request) (results : list JsValue) (total : Z) : JsValue :=
  JObj [("info", calculatePagination req total); ("results", JArr results)].

Definition no_more_books : Error := NotFound "No se encontraron más libros".

Section Vocabulary.

Context {Store : Type} `{BookService Store}.

(** The unpaged path, for a request whose key is [key]: no write to the
    cache whatever the state of the client and, with the client
    connected, one [del] of the key, one query of the store, and the
    store's answer as [{ totalBooks, results }] (or its rejection handed
    to [next]). *)
Definition unpaged_path_taken (req : Request) (key : string) (w : World Store) : Prop :=
  let limit := limit (pagination req) in
  let offset := offset (pagination req) in
  let found := findBooks limit offset (store w) in
  existsb cache_write_event (run (getBooks req) w).2 = false
  /\ (Redis.online (redis w) = true ->
      run (getBooks req) w =
        (inr (match found.1 with
              | inr (results, totalBooks) =>
                  Respond 200 (JObj [("totalBooks", JNum totalBooks);
                                     ("results", JArr results)])
              | inl e => Next e
              end),
         {| store := found.2;
            redis := Redis.with_entries (redis w) (delete key (Redis.entries (redis w))) |},
         [Ev (RedisDel key)
            (inr (match Redis.entries (redis w) !! key with Some _ => 1 | None => 0 end));
          Ev (FindBooks limit offset) found.1])).

(** The run of the paginated path for a request whose key is [key],
    with the client connected, spelled out. *)
Definition paged_result (req : Request) (key : string) (w : World Store)
    : (Error + Outcome) * World Store * list Event :=
  let limit := limit (pagination req) in
  let offset := offset (pagination req) in
  let found := findBooks limit offset (store w) in
  let deleted := match Redis.entries (redis w) !! key with Some _ => 1 | None => 0 end in
  match found.1 with
  | inl e =>
      (inr (Next e),
       {| store := found.2;
          redis := Redis.with_entries (redis w) (delete key (Redis.entries (redis w))) |},
       [Ev (RedisDel key) (inr deleted);
        Ev (RedisGet key) (inr None);
        Ev (FindBooks limit offset) (inl e)])
  | inr (results, total) =>
      let text :=
        JSON.object_text [("info", calculatePagination req total);
                          ("results", JArr results)] in
      (inr (if Z.of_nat (List.length results) <? 1
            then Next no_more_books
            else Respond 200 (response_of req results total)),
       {| store := found.2;
          redis := Redis.with_entries (redis w)
                     (<[key := {| Redis.value := text; Redis.ttl := Some 300 |}]>
                        (Redis.entries (redis w))) |},
       [Ev (RedisDel key) (inr deleted);
        Ev (RedisGet key) (inr None);
        Ev (FindBooks limit offset) (inr (results, total));
        Ev (RedisSet key text) (inr tt);
        Ev (RedisExpire key 300) (inr 1)])
  end.

(** A history that opens with the [del] of the key, a read of the key
    that finds nothing, and the query of the store. *)
Definition misses_then_queries (req : Request) (key : string) (tr : list Event) : Prop :=
  exists n found rest,
    tr = Ev (RedisDel key) (inr n)
         :: Ev (RedisGet key) (inr None)
         :: Ev (FindBooks (limit (pagination req)) (offset (pagination req))) found
         :: rest.

(** Listing requests served one at a time, each against the world the
    one before left; every request is kept with the history of its
    run. *)
Fixpoint serve (reqs : list Request) (w : World Store) : list (Request * list Event) :=
  match reqs with
  | [] => []
  | req :: rest =>
      let '(_, w1, tr) := run (getBooks req) w in
      (req, tr) :: serve rest w1
  end.

(** What a listing request served in its turn does: with a key, it
    deletes, misses and queries; with a body whose conversion throws,
    it issues no command at all. *)
Definition served_in_turn (served : Request * list Event) : Prop :=
  match cache_key (body served.1) with
  | inr key => misses_then_queries served.1 key served.2
  | inl _ => served.2 = []
  end.



(** Request A is suspended after its [del]; request B, on the same
    key, runs from start to end and fills the cache; A resumes. A's
    read is then a hit: A makes no further call and answers 200 with
    the response B computed. *)
Definition hit_after_refill (reqA reqB : Request) (key : string) (w : World Store)
    (results : list JsValue) (total : Z) : Prop :=
  let '(restA, w1, _) := step (getBooks reqA) w in
  let '(_, w2, trB) := run (getBooks reqB) w1 in
  let '(outA, w3, trA) := run restA w2 in
  exists text,
    JSON.stringify (response_of reqB results total) = Some text
    /\ In (Ev (RedisSet key text) (inr tt)) trB
    /\ trA = [Ev (RedisGet key) (inr (Some text))]
    /\ outA = inr (Respond 200 (response_of reqB results total))
    /\ w3 = w2.

(** Two listing requests served one after the other share the key
    [key]: what the first left under it is gone, the key holds the text
    of the second's response. *)
Definition second_overwrites_first (reqA reqB : Request) (key : string) (w : World Store)
    (results : list JsValue) (total : Z) : Prop :=
  let '(_, w1, _) := run (getBooks reqA) w in
  let '(_, w2, _) := run (getBooks reqB) w1 in
  cache_key (body reqA) = inr key
  /\ cache_key (body reqB) = inr key
  /\ exists text,
       JSON.stringify (response_of reqB results total) = Some text
       /\ Redis.entries (redis w2) !! key
          = Some {| Redis.value := text; Redis.ttl := Some 300 |}.

End Vocabulary.

(** ** Sample data *)

Module Sample.

Import MemStore PaginationCalculator.

Definition ficciones : JsValue := book "b1" "Ficciones".
Definition rayuela : JsValue := book "b2" "Rayuela".
Definition el_tunel : JsValue := book "b3" "El tunel".

Definition library : list JsValue := [ficciones; rayuela; el_tunel].

(** The key of an object body that has no [toString] of its own. *)
Definition object_key : string := "books_[object Object]".

Definition stale_cache : gmap string Redis.Entry :=
  {[ object_key := {| Redis.value := "{}"; Redis.ttl := Some 120 |} ]}.

Definition by_borges : JsValue := JObj [("author", JStr "Borges")].
Definition by_sabato : JsValue := JObj [("author", JStr "Sabato")].

(** A body with a property named [toString], as the JSON text
    [{"author":"Borges","toString":1}] gives. *)
Definition own_toString : JsValue := JObj [("author", JStr "Borges"); ("toString", JNum 1)].

(** A request whose query reads [detail=...]. *)
Definition most_viewed (detail : JsValue) : Request :=
  {| body := JObj []; query := {[ "detail" := detail ]}; params := ∅;
     pagination := {| page := Absent; limit := Absent; offset := Absent |};
     calculatePagination := fun _ => JUndefined |}.

(** A request on [/:id] with the given body. *)
Definition on_id (id : string) (b : JsValue) : Request :=
  {| body := b; query := ∅; params := {[ "id" := JStr id ]};
     pagination := {| page := Absent; limit := Absent; offset := Absent |};
     calculatePagination := fun _ => JUndefined |}.

End Sample.

(** ** More of the JavaScript runtime: objects and strings *)

(** Ordinary objects, as lists of properties. *)
Module Obj.

(** The own property of that name, if there is one. *)
Definition lookup (k : string) (props : list (string * JsValue)) : option JsValue :=
  match List.find (fun kv => String.eqb kv.1 k) props with
  | Some (_, v) => Some v
  | None => None
  end.

(** [o.k]: [undefined] where the property is missing. *)
Definition get (k : string) (props : list (string * JsValue)) : JsValue :=
  default JUndefined (lookup k props).

(** [o.k = v]. *)
Definition set (k : string) (v : JsValue) (props : list (string * JsValue))
    : list (string * JsValue) :=
  JSON.put_prop k v props.

(** [delete o.k]. *)
Definition delete (k : string) (props : list (string * JsValue))
    : list (string * JsValue) :=
  List.filter (fun kv => negb (String.eqb kv.1 k)) props.

End Obj.

(** Strings are held as UTF-8 bytes; the functions below read the code
    points they need from the bytes. *)
Module Str.

Definition is_byte (c : ascii) (n : Z) : bool := JSON.code c =? n.

(** One-byte white space and line terminators: TAB, LF, VT, FF, CR and
    the space. *)
Definition ascii_space (c : ascii) : bool :=
  ((9 <=? JSON.code c) && (JSON.code c <=? 13)) || (JSON.code c =? 32).

(** What is left of a string once the white space and line terminators
    at its start are gone. The code points of more than one byte are
    U+00A0, U+1680, U+2000 to U+200A, U+2028, U+2029, U+202F, U+205F,
    U+3000 and U+FEFF. *)
Fixpoint trim_start (s : list ascii) : list ascii :=
  match s with
  | [] => []
  | c :: r =>
      if ascii_space c then trim_start r
      else
        match r with
        | c2 :: r2 =>
            if is_byte c 194 && is_byte c2 160 then trim_start r2
            else
              match r2 with
              | c3 :: r3 =>
                  if is_byte c 225 && is_byte c2 154 && is_byte c3 128
                  then trim_start r3
                  else if is_byte c 226 && is_byte c2 128
                          && (((128 <=? JSON.code c3) && (JSON.code c3 <=? 138))
                              || is_byte c3 168 || is_byte c3 169 || is_byte c3 175)
                  then trim_start r3
                  else if is_byte c 226 && is_byte c2 129 && is_byte c3 159
                  then trim_start r3
                  else if is_byte c 227 && is_byte c2 128 && is_byte c3 128
                  then trim_start r3
                  else if is_byte c 239 && is_byte c2 187 && is_byte c3 191
                  then trim_start r3
                  else s
              | [] => s
              end
        | [] => s
        end
  end.

(** The same from the end, on the bytes in reverse order. *)
Fixpoint trim_start_rev (s : list ascii) : list ascii :=
  match s with
  | [] => []
  | c :: r =>
      if ascii_space c then trim_start_rev r
      else
        match r with
        | c2 :: r2 =>
            if is_byte c2 194 && is_byte c 160 then trim_start_rev r2
            else
              match r2 with
              | c3 :: r3 =>
                  if is_byte c3 225 && is_byte c2 154 && is_byte c 128
                  then trim_start_rev r3
                  else if is_byte c3 226 && is_byte c2 128
                          && (((128 <=? JSON.code c) && (JSON.code c <=? 138))
                              || is_byte c 168 || is_byte c 169 || is_byte c 175)
                  then trim_start_rev r3
                  else if is_byte c3 226 && is_byte c2 129 && is_byte c 159
                  then trim_start_rev r3
                  else if is_byte c3 227 && is_byte c2 128 && is_byte c 128
                  then trim_start_rev r3
                  else if is_byte c3 239 && is_byte c2 187 && is_byte c 191
                  then trim_start_rev r3
                  else s
              | [] => s
              end
        | [] => s
        end
  end.

(** [s.trim()]. *)
Definition trim (s : string) : string :=
  string_of_list_ascii
    (rev (trim_start_rev (rev (trim_start (list_ascii_of_string s))))).

Fixpoint parse_hex_digits (acc : Z) (s : list ascii) : Z :=
  match s with
  | c :: r =>
      match JSON.hex_val c with
      | Some d => parse_hex_digits (acc * 16 + d) r
      | None => acc
      end
  | [] => acc
  end.

(** The digits of [parseInt] once the sign is gone: hexadecimal after a
    prefix [0x] or [0X], decimal otherwise; [None], which is [NaN], when
    no digit is there. *)
Definition parse_magnitude (s : list ascii) : option Z :=
  match s with
  | z :: x :: r =>
      if is_byte z 48 && (is_byte x 120 || is_byte x 88) then
        match r with
        | h :: _ =>
            match JSON.hex_val h with
            | Some _ => Some (parse_hex_digits 0 r)
            | None => None
            end
        | [] => None
        end
      else
        match JSON.digit_val z with
        | Some _ => Some (JSON.parse_digits 0 s).1
        | None => None
        end
  | [z] =>
      match JSON.digit_val z with
      | Some d => Some d
      | None => None
      end
  | [] => None
  end.

(** [parseInt(s)], with no radix given. [None] is [NaN]. *)
Definition parseInt (s : string) : option Z :=
  match trim_start (list_ascii_of_string s) with
  | c :: r =>
      if is_byte c 45 then Z.opp <$> parse_magnitude r
      else if is_byte c 43 then parse_magnitude r
      else parse_magnitude (c :: r)
  | [] => None
  end.

End Str.

(** ** The document model *)

(** The [toJSON] transform of the book model: the document's [_id] is
    handed over as [id], and [_v] and [_id] are deleted. *)
Definition toJSON_transform (returnedObject : list (string * JsValue))
    : list (string * JsValue) :=
  let o1 := Obj.set "id" (Obj.get "_id" returnedObject) returnedObject in
  let o2 := Obj.delete "_v" o1 in
  Obj.delete "_id" o2.

(** ** The schema of a book payload *)

(** [bookSchema], a zod object schema, read as the check that
    [safeParse] makes and the data it hands back on success. The
    library's meaning is followed: a string check first asks for a
    string, an array check for an array, an object check for an object
    that is not an array; the checks of all properties are made; the
    data handed back holds the properties of the schema, in the
    schema's order, and nothing else. The issues reported on failure are
    not kept. *)
Module bookSchema.

(** [z.string().nonempty()]. *)
Definition nonempty_string (v : JsValue) : bool :=
  match v with
  | JStr s => negb (String.eqb s "")
  | _ => false
  end.

(** [z.string()]. *)
Definition any_string (v : JsValue) : bool :=
  match v with
  | JStr _ => true
  | _ => false
  end.

(** [z.string().optional()]. *)
Definition optional_string (v : JsValue) : bool :=
  match v with
  | JUndefined | JStr _ => true
  | _ => false
  end.

(** [z.string().refine((item) => item.trim() !== '')]. *)
Definition unblank_string (v : JsValue) : bool :=
  match v with
  | JStr item => negb (String.eqb (Str.trim item) "")
  | _ => false
  end.

(** [z.array(item).nonempty()]. *)
Definition nonempty_array (item : JsValue -> bool) (v : JsValue) : bool :=
  match v with
  | JArr (x :: rest) => forallb item (x :: rest)
  | _ => false
  end.

(** [z.number()]: any Number but NaN. *)
Definition number (v : JsValue) : bool :=
  match v with
  | JNum _ | JFrac _ _ | JInfinity _ => true
  | _ => false
  end.

(** [z.array(z.number())]. *)
Definition number_array (v : JsValue) : bool :=
  match v with
  | JArr items => forallb number items
  | _ => false
  end.

(** The refinement of [year]: the parsed value is a number from 1800 to
    2050. *)
Definition year_refine (value : string) : bool :=
  match Str.parseInt value with
  | Some parsedValue => (1800 <=? parsedValue) && (parsedValue <=? 2050)
  | None => false
  end.

Definition year (v : JsValue) : bool :=
  match v with
  | JStr value => year_refine value
  | _ => false
  end.

(** The refinement of [numberPages]: the parsed value is a number, 49 at
    least. *)
Definition numberPages_refine (value : string) : bool :=
  match Str.parseInt value with
  | Some parsedValue => 49 <=? parsedValue
  | None => false
  end.

Definition numberPages (v : JsValue) : bool :=
  match v with
  | JStr value => numberPages_refine value
  | _ => false
  end.

(** The properties of a shape, each with its check. *)
Definition Shape : Type := list (string * (JsValue -> bool)).

(** The check of every property of the shape against the data. *)
Definition shape_ok (shape : Shape) (data : list (string * JsValue)) : bool :=
  forallb (fun kc => kc.2 (Obj.get kc.1 data)) shape.

(** The data handed back: the properties of the shape, in its order; a
    property missing from the data is left out. *)
Definition shape_data (keys : list string) (data : list (string * JsValue))
    : list (string * JsValue) :=
  omap (fun k => match Obj.lookup k data with
                 | Some v => Some (k, v)
                 | None => None
                 end) keys.

Definition image_shape : Shape :=
  [("url", number_array); ("public_id", any_string)].

(** [image]: an object schema within the schema. *)
Definition image (v : JsValue) : bool :=
  match v with
  | JObj data => shape_ok image_shape data
  | _ => false
  end.

Definition shape : Shape :=
  [("title", nonempty_string);
   ("authors", nonempty_array unblank_string);
   ("synopsis", nonempty_string);
   ("year", year);
   ("category", nonempty_array unblank_string);
   ("numberPages", numberPages);
   ("sourceLink", optional_string);
   ("language", nonempty_string);
   ("format", nonempty_string);
   ("pathUrl", nonempty_string);
   ("image", image)].

(** [bookSchema.safeParse(v).success]. *)
Definition accepts (v : JsValue) : bool :=
  match v with
  | JObj data => shape_ok shape data
  | _ => false
  end.

(** The data of [image] as handed back. *)
Definition image_data (v : JsValue) : JsValue :=
  match v with
  | JObj data => JObj (shape_data (map fst image_shape) data)
  | _ => v
  end.

(** [bookSchema.safeParse(v)]: the data on success, nothing on
    failure. *)
Definition safeParse (v : JsValue) : option JsValue :=
  match v with
  | JObj data =>
      if shape_ok shape data then
        Some (JObj (map (fun kv => if String.eqb kv.1 "image"
                                   then (kv.1, image_data kv.2) else kv)
                      (shape_data (map fst shape) data)))
      else None
  | _ => None
  end.

End bookSchema.

(** ** The controllers that only read the store *)

(** The operations of [BookService] behind the lookups. None of these
    controllers names the cache, so their bodies are programs over the
    store alone: a body reads and possibly changes the store and ends
    with a value or a thrown error. *)
Class LookupService (Store : Type) : Type := {
  findSearch : JsValue -> Store -> (Error + list JsValue) * Store;
  findByGroupFields : Store -> (Error + JsValue) * Store;
  findBooksRandom : Store -> (Error + JsValue) * Store;
  findRelatedBooks : JsValue -> Store -> (Error + JsValue) * Store;
  findMoreBooksAuthors : JsValue -> Store -> (Error + JsValue) * Store;
  findById : JsValue -> Store -> (Error + JsValue) * Store;
  findBySlug : JsValue -> Store -> (Error + JsValue) * Store;
}.

Module StoreM.

Definition t (Store A : Type) : Type := Store -> (Error + A) * Store.

Definition ret {Store A} (a : A) : t Store A := fun s => (inr a, s).

Definition throw {Store A} (e : Error) : t Store A := fun s => (inl e, s).

(** [await] of a call, then the rest of the body. *)
Definition bind {Store A B} (m : t Store A) (f : A -> t Store B) : t Store B :=
  fun s =>
    match m s with
    | (inr a, s1) => f a s1
    | (inl e, s1) => (inl e, s1)
    end.

(** [try { m } catch (err) { h err }]. *)
Definition try_catch {Store A} (m : t Store A) (h : Error -> t Store A) : t Store A :=
  fun s =>
    match m s with
    | (inr a, s1) => (inr a, s1)
    | (inl e, s1) => h e s1
    end.

End StoreM.

Section Lookups.

Context {Store : Type} `{LookupService Store}.

Definition getSearchBooks (req : Request) : StoreM.t Store Outcome :=
  let q := prop "q" (query req) in
  StoreM.try_catch
    (StoreM.bind (findSearch q) (fun results =>
       if Z.of_nat (List.length results) <? 1
       then
         match Js.toString q with
         | inr text => StoreM.throw (NotFound ("No se encontraron resultados para: " +:+ text))
         | inl e => StoreM.throw e
         end
       else StoreM.ret (Respond 200 (JArr results))))
    (fun err => StoreM.ret (Next err)).

Definition getAllOptions (req : Request) : StoreM.t Store Outcome :=
  StoreM.try_catch
    (StoreM.bind findByGroupFields (fun result =>
       StoreM.ret (Respond 200 result)))
    (fun err => StoreM.ret (Next err)).

Definition getBooksRandom (req : Request) : StoreM.t Store Outcome :=
  StoreM.try_catch
    (StoreM.bind findBooksRandom (fun result =>
       StoreM.ret (Respond 200 result)))
    (fun err => StoreM.ret (Next err)).

Definition getRelatedBooks (req : Request) : StoreM.t Store Outcome :=
  let id := prop "id" (params req) in
  StoreM.try_catch
    (StoreM.bind (findRelatedBooks id) (fun relatedBooks =>
       StoreM.ret (Respond 200 relatedBooks)))
    (fun err => StoreM.ret (Next err)).

Definition getMoreBooksAuthors (req : Request) : StoreM.t Store Outcome :=
  let id := prop "id" (params req) in
  StoreM.try_catch
    (StoreM.bind (findMoreBooksAuthors id) (fun moreBooksAuthors =>
       StoreM.ret (Respond 200 moreBooksAuthors)))
    (fun err => StoreM.ret (Next err)).

Definition getOneBooks (req : Request) : StoreM.t Store Outcome :=
  let id := prop "id" (params req) in
  StoreM.try_catch
    (StoreM.bind (findById id) (fun result =>
       if negb (Js.truthy result)
       then StoreM.throw (NotFound "No se encuentra o no existe")
       else StoreM.ret (Respond 200 result)))
    (fun err => StoreM.ret (Next err)).

Definition getPathUrlBooks (req : Request) : StoreM.t Store Outcome :=
  let pathUrl := prop "pathUrl" (params req) in
  StoreM.try_catch
    (StoreM.bind (findBySlug pathUrl) (fun result =>
       if negb (Js.truthy result)
       then StoreM.throw (NotFound "No se encuentra o no existe")
       else StoreM.ret (Respond 200 result)))
    (fun err => StoreM.ret (Next err)).

End Lookups.

(** ** Vocabulary of the further statements *)

Definition is_store_write {X} (c : Cmd X) : bool :=
  match c with
  | CreateBook _ | UpdateBook _ _ | RemoveBook _ => true
  | _ => false
  end.

Definition store_write_event (e : Event) : bool :=
  match e with Ev c _ => is_store_write c end.

(** Every cache command is about the key [key]. *)
Definition keyed (key : string) : forall X, Cmd X -> Prop :=
  fun X c => forall k, cmd_key c = Some k -> k = key.

(** Every cache command is about the key made from the body [b]. *)
Definition keyed_by (b : JsValue) : forall X, Cmd X -> Prop :=
  fun X c => forall k, cmd_key c = Some k -> cache_key b = inr k.

(** The outcome of a lookup that hands on what the store answers. *)
Definition handed_on (answer : Error + JsValue) : Error + Outcome :=
  match answer with
  | inr result => inr (Respond 200 result)
  | inl e => inr (Next e)
  end.

(** The properties that have a JSON text: those whose value is not
    [undefined]. *)
Definition defined_props (ps : list (string * JsValue)) : list (string * JsValue) :=
  List.filter (fun kv => match kv.2 with JUndefined => false | _ => true end) ps.

(** What may follow the decimal numeral of [n] without being read as
    more of the number: nothing, or a character that is not a digit and,
    after a lone [0], not the [x] of a hexadecimal prefix. *)
Definition ends_number (n : Z) (t : string) : Prop :=
  match list_ascii_of_string t with
  | [] => True
  | c :: _ =>
      JSON.digit_val c = None
      /\ (n = 0 -> Str.is_byte c 120 || Str.is_byte c 88 = false)
  end.

(** The statements about two listing requests that meet, and about a
    create after a listing, as predicates of their inputs. *)
Section MoreVocabulary.

Context {Store : Type} `{BookService Store}.

(** Request A is suspended after its [del] while request B, on the same
    key, finds no result: B ends in NotFound, and A, resumed, answers
    200 with the empty page B failed on. *)
Definition refill_answers_differ (reqA reqB : Request) (w : World Store) (total : Z)
    : Prop :=
  let '(restA, w1, _) := step (getBooks reqA) w in
  let '(outB, w2, _) := run (getBooks reqB) w1 in
  let '(outA, _, _) := run restA w2 in
  outB = inr (Next (NotFound "No se encontraron más libros"))
  /\ outA = inr (Respond 200 (response_of reqB [] total)).

(** The same request run twice in a row: the second run ends as the
    first did and leaves the world the first left. *)
Definition repeat_changes_nothing (req : Request) (w : World Store) : Prop :=
  let '(out1, w1, _) := run (getBooks req) w in
  let '(out2, w2, _) := run (getBooks req) w1 in
  out2 = out1 /\ w2 = w1.

(** A listing fills the cache under its key; the create that follows
    answers 201 and the key is gone. *)
Definition create_clears_listing (reqL reqP : Request) (key : string) (w : World Store)
    (created : JsValue) : Prop :=
  let '(_, w1, _) := run (getBooks reqL) w in
  let '(out, w2, _) := run (postBooks reqP) w1 in
  is_Some (Redis.entries (redis w1) !! key)
  /\ out = inr (Respond 201 created)
  /\ Redis.entries (redis w2) !! key = None.

End MoreVocabulary.

(** Modelled from the spec: the lookups of the Store Adapter (section 6)
    over the collection kept in a list, for trying statements on
    concrete data. *)
Module MemLookup.

Definition titled (q : JsValue) (book : JsValue) : bool :=
  match q, book with
  | JStr t, JObj props =>
      match Obj.lookup "title" props with
      | Some (JStr t') => String.eqb t t'
      | _ => false
      end
  | _, _ => false
  end.

Definition by_id (id : JsValue) (books : list JsValue) : JsValue :=
  match List.find (MemStore.has_id id) books with
  | Some b => b
  | None => JNull
  end.

#[global] Instance service : LookupService (list JsValue) := {|
  findSearch q books := (inr (List.filter (titled q) books), books);
  findByGroupFields books := (inr (JArr []), books);
  findBooksRandom books := (inr (JArr (take 3 books)), books);
  findRelatedBooks id books :=
    (inr (JArr (List.filter (fun b => negb (MemStore.has_id id b)) books)), books);
  findMoreBooksAuthors id books := (inr (JArr []), books);
  findById id books := (inr (by_id id books), books);
  findBySlug slug books := (inr JNull, books);
|}.

End MemLookup.

(** ** More sample data *)

Module MoreSample.

Import MemStore Sample.

Definition offline (books : list JsValue) (cache : gmap string Redis.Entry)
    : World (list JsValue) :=
  {| store := books; redis := {| Redis.entries := cache; Redis.online := false |} |}.

Definition cache_with (text : string) : gmap string Redis.Entry :=
  {[ object_key := {| Redis.value := text; Redis.ttl := Some 300 |} ]}.

Definition two_keys : gmap string Redis.Entry :=
  <[ "sessions" := {| Redis.value := "s"; Redis.ttl := None |} ]> stale_cache.

Definition down_world : World unit :=
  {| store := tt; redis := {| Redis.entries := stale_cache; Redis.online := true |} |}.

Definition payload : JsValue :=
  JObj [("draft", JBool true);
        ("title", JStr "Ficciones"); ("authors", JArr [JStr "Jorge Luis Borges"]);
        ("synopsis", JStr "Cuentos"); ("year", JStr "1944");
        ("category", JArr [JStr "Cuento"]); ("numberPages", JStr "203");
        ("language", JStr "es"); ("format", JStr "Fisico");
        ("pathUrl", JStr "ficciones");
        ("image", JObj [("public_id", JStr "covers/1"); ("url", JArr [JNum 1; JNum 2])])].

Definition parsed_payload : JsValue :=
  JObj [("title", JStr "Ficciones"); ("authors", JArr [JStr "Jorge Luis Borges"]);
        ("synopsis", JStr "Cuentos"); ("year", JStr "1944");
        ("category", JArr [JStr "Cuento"]); ("numberPages", JStr "203");
        ("language", JStr "es"); ("format", JStr "Fisico");
        ("pathUrl", JStr "ficciones");
        ("image", JObj [("url", JArr [JNum 1; JNum 2]); ("public_id", JStr "covers/1")])].

End MoreSample.

Example toString_object :
  Js.toString (JObj [("page", JNum 2); ("limit", JNum 10)]) = inr "[object Object]".
Proof. reflexivity. Qed.

Example toString_own_toString :
  Js.toString (JObj [("title", JStr "Ficciones"); ("toString", JNum 1)]) = inl TypeError
  /\ Js.toString (JArr [JNum 1; JObj [("toString", JStr "x")]]) = inl TypeError
  /\ Js.toString (JObj [("valueOf", JNum 1)]) = inr "[object Object]".
Proof. repeat split. Qed.

Example toString_array :
  Js.toString (JArr [JNum 1; JNull; JStr "a"; JArr [JNum (-2); JFrac 7 1]]) = inr "1,,a,-2,3.5".
Proof. vm_compute. reflexivity. Qed.

Example number_to_string :
  Num.to_string (JNum (10 ^ 21)) = "1e+21"
  /\ Num.to_string (JNum (10 ^ 21 - 1)) = "1e+21"
  /\ Num.to_string (JNum (10 ^ 20)) = "100000000000000000000"
  /\ Num.to_string (JNum (2 ^ 60)) = "1152921504606847000"
  /\ Num.to_string (JNum (- 2 ^ 70)) = "-1.1805916207174113e+21"
  /\ Num.to_string (JNum (2 ^ 53 + 1)) = "9007199254740992"
  /\ Num.to_string (JNum (2 ^ 1024)) = "Infinity"
  /\ Num.to_string (JFrac 1 1074) = "5e-324"
  /\ Num.to_string (JFrac (-3) 2) = "-0.75".
Proof. vm_compute. repeat split. Qed.

(** The numeral of an integer below [2^53] is what the search for the
    shortest digits finds, too. *)
Example number_print_small :
  Num.print (default Num.NotANumber (Num.read (JNum 1000))) = pretty 1000
  /\ Num.print (default Num.NotANumber (Num.read (JNum (2 ^ 53 - 1)))) = pretty (2 ^ 53 - 1)
  /\ Num.print (default Num.NotANumber (Num.read (JNum (-120)))) = pretty (-120)
  /\ Num.value (Num.of_decimal false 1000 0) = JNum 1000
  /\ Num.value (Num.of_decimal true (2 ^ 53 - 1) 0) = JNum (- (2 ^ 53 - 1)).
Proof. vm_compute. repeat split. Qed.

Example stringify_response :
  JSON.stringify
    (JObj [("info", JObj [("totalPages", JNum 0)]); ("results", JArr [])])
  = Some (JSON.sq "{'info':{'totalPages':0},'results':[]}").
Proof. vm_compute. reflexivity. Qed.

Example stringify_drops_undefined :
  JSON.stringify (JObj [("info", JUndefined); ("results", JArr [JUndefined; JStr "a
b"; JNaN; JInfinity false])])
  = Some (JSON.sq "{'results':[null,'a\nb',null,null]}").
Proof. vm_compute. reflexivity. Qed.

Example parse_response :
  JSON.parse (JSON.sq " {'info': {'totalPages':3, 'next': null},
    'results': [ {'title':'AA\n', 'views': -12}, [], {} , true] } ")
  = Some (JObj [("info", JObj [("totalPages", JNum 3); ("next", JNull)]);
                ("results", JArr [JObj [("title", JStr "AA
"); ("views", JNum (-12))]; JArr []; JObj []; JBool true])]).
Proof. vm_compute. reflexivity. Qed.

Example parse_duplicate_and_index_names :
  JSON.parse (JSON.sq "{'b':1,'2':2,'a':3,'b':4,'1':5}")
  = Some (JObj [("1", JNum 5); ("2", JNum 2); ("b", JNum 4); ("a", JNum 3)]).
Proof. vm_compute. reflexivity. Qed.

Example parse_numbers :
  JSON.parse "1e2" = Some (JNum 100) /\ JSON.parse "1.0" = Some (JNum 1)
  /\ JSON.parse (JSON.sq "{'rating':4.5}") = Some (JObj [("rating", JFrac 9 1)])
  /\ JSON.parse "-0" = Some (JNum 0) /\ JSON.parse "-2.5E-1" = Some (JFrac (-1) 2)
  /\ JSON.parse "9007199254740993" = Some (JNum 9007199254740992)
  /\ JSON.parse "1e400" = Some (JInfinity false)
  /\ JSON.parse "5e-324" = Some (JFrac 1 1074) /\ JSON.parse "2e-324" = Some (JNum 0).
Proof. vm_compute. repeat split. Qed.

Example stringify_numbers :
  JSON.stringify (JArr [JFrac 9 1; JNum (10 ^ 21); JFrac 3602879701896397 55;
                        JNum (2 ^ 1024); JFrac 1 20])
  = Some "[4.5,1e+21,0.1,null,9.5367431640625e-7]".
Proof. vm_compute. reflexivity. Qed.

(** A surrogate pair written as two escapes is one character of four
    bytes; a surrogate on its own is kept and written back as an
    escape. *)
Example parse_surrogates :
  JSON.parse (JSON.sq "'\ud83d\ude00'") = Some (JStr "😀")
  /\ JSON.parse (JSON.sq "'😀'") = Some (JStr "😀")
  /\ JSON.parse (JSON.sq "'\uD83D😀'") = Some (JStr (String.append (string_of_list_ascii (JSON.utf8 55357)) "😀"))
  /\ (JSON.parse (JSON.sq "'\ud83d'") ≫= JSON.stringify) = Some (JSON.sq "'\ud83d'")
  /\ (JSON.parse (JSON.sq "'\ude00\ud83d'") ≫= JSON.stringify)
     = Some (JSON.sq "'\ude00\ud83d'").
Proof. vm_compute. repeat split. Qed.

Example parse_rejects :
  JSON.parse "{'a':1}" = None /\ JSON.parse "[1,]" = None /\
  JSON.parse "01" = None /\ JSON.parse "" = None /\ JSON.parse "nul" = None /\
  JSON.parse "1." = None /\ JSON.parse ".5" = None /\ JSON.parse "1e" = None /\
  JSON.parse "+1" = None /\ JSON.parse "-" = None /\ JSON.parse "0x10" = None /\
  JSON.parse (JSON.sq "'\ud83'") = None /\ JSON.parse "{info" = None.
Proof. vm_compute. repeat split. Qed.


(** * Properties *)

(** ** JSON text of an object *)

Lemma stringify_object props :
  JSON.stringify (JObj props) = Some (JSON.object_text props).
Proof. reflexivity. Qed.

Lemma object_text_truthy props :
  Js.truthy_reply (Some (JSON.object_text props)) = true.
Proof. reflexivity. Qed.

(** ** JSON texts parse back *)

Lemma chars_app a b : list_ascii_of_string (a +:+ b) = (list_ascii_of_string a ++ list_ascii_of_string b)%list.
Proof. induction a as [|c a IH]; simpl; [reflexivity|]. rewrite <- IH. reflexivity. Qed.

Lemma parse_chars_quote_char c rest :
  JSON.parse_chars (list_ascii_of_string (JSON.quote_char c) ++ rest)%list
  = match JSON.parse_chars rest with
    | Some (t, r) => Some (String c t, r)
    | None => None
    end.
Proof.
  destruct c as [[] [] [] [] [] [] [] []]; reflexivity.
Qed.

(** In a string without surrogates every character is quoted by
    itself. *)
Lemma quote_chars_plain c r :
  surrogate_at c r = false ->
  JSON.quote_chars (String c r) = JSON.quote_char c +:+ JSON.quote_chars r.
Proof.
  unfold surrogate_at. destruct r as [|c2 [|c3 r3]]; try reflexivity.
  cbn [JSON.quote_chars]. destruct (JSON.surrogate c c2 c3); [discriminate | reflexivity].
Qed.

Lemma parse_chars_quote s rest :
  plain s = true ->
  JSON.parse_chars (list_ascii_of_string (JSON.quote_chars s) ++ JSON.dquote :: rest)%list = Some (s, rest).
Proof.
  induction s as [|c s IH]; [reflexivity|].
  cbn [plain]. rewrite andb_true_iff, negb_true_iff. intros [Hc Hs].
  rewrite quote_chars_plain by exact Hc.
  rewrite chars_app, <- app_assoc, parse_chars_quote_char, IH by exact Hs.
  reflexivity.
Qed.

Lemma join_surrogates_plain s : plain s = true -> JSON.join_surrogates s = s.
Proof.
  induction s as [|c1 t IH]; [reflexivity|].
  cbn [plain]. rewrite andb_true_iff, negb_true_iff. intros [Hc Hs].
  assert (JSON.join_surrogates (String c1 t) = String c1 (JSON.join_surrogates t)) as ->.
  { unfold surrogate_at in Hc.
    destruct t as [|c2 [|c3 [|c4 [|c5 [|c6 r]]]]]; try reflexivity.
    cbn [JSON.join_surrogates].
    destruct (JSON.surrogate c1 c2 c3); [discriminate | reflexivity]. }
  rewrite IH by exact Hs. reflexivity.
Qed.

Lemma parse_string_quote s rest :
  plain s = true ->
  JSON.parse_string (list_ascii_of_string (JSON.quote_chars s) ++ JSON.dquote :: rest)%list
  = Some (s, rest).
Proof.
  intros Hs. unfold JSON.parse_string.
  rewrite parse_chars_quote, join_surrogates_plain by exact Hs. reflexivity.
Qed.

Lemma digit_val_pretty_N_char (d : N) :
  (d < 10)%N -> JSON.digit_val (pretty_N_char d) = Some (Z.of_N d).
Proof.
  intros Hd.
  assert (d = 0 \/ d = 1 \/ d = 2 \/ d = 3 \/ d = 4 \/ d = 5 \/ d = 6 \/ d = 7
          \/ d = 8 \/ d = 9)%N as Hcases by lia.
  repeat (destruct Hcases as [-> | Hcases]; [reflexivity|]). subst. reflexivity.
Qed.

Lemma parse_digits_cons acc c d r :
  JSON.digit_val c = Some d ->
  JSON.parse_digits acc (c :: r) = JSON.parse_digits (acc * 10 + d) r.
Proof. intros Hd. simpl. rewrite Hd. reflexivity. Qed.

Lemma parse_digits_pretty (x : N) :
  (0 < x)%N ->
  forall s rest, exists k : nat, forall acc,
    JSON.parse_digits acc (list_ascii_of_string (pretty_N_go x s) ++ rest)%list
    = JSON.parse_digits (acc * 10 ^ Z.of_nat k + Z.of_N x) (list_ascii_of_string s ++ rest)%list.
Proof.
  induction (N.lt_wf_0 x) as [x _ IH]. intros Hx s rest.
  rewrite pretty_N_go_step by done.
  assert (x `div` 10 < x)%N as Hlt by (apply N.div_lt; lia).
  assert (x `mod` 10 < 10)%N as Hmod by (apply N.mod_lt; lia).
  pose proof (N.div_mod x 10 ltac:(lia)) as Hdm.
  destruct (decide (x `div` 10 = 0)%N) as [Hz|Hnz].
  - rewrite Hz, pretty_N_go_0. exists 1%nat. intros acc. simpl list_ascii_of_string.
    rewrite <- app_comm_cons.
    rewrite (parse_digits_cons _ _ _ _ (digit_val_pretty_N_char _ Hmod)).
    f_equal. lia.
  - destruct (IH (x `div` 10)%N Hlt ltac:(lia)
                (String (pretty_N_char (x `mod` 10)) s) rest) as [k Hk].
    exists (S k). intros acc. rewrite Hk. simpl list_ascii_of_string. rewrite <- app_comm_cons.
    rewrite (parse_digits_cons _ _ _ _ (digit_val_pretty_N_char _ Hmod)).
    f_equal. rewrite Nat2Z.inj_succ, Z.pow_succ_r by lia. lia.
Qed.

Lemma pretty_N_go_head (x : N) :
  (0 < x)%N ->
  forall s, exists c t d,
    pretty_N_go x s = String c t /\ JSON.digit_val c = Some d /\ 0 < d.
Proof.
  induction (N.lt_wf_0 x) as [x _ IH]. intros Hx s.
  rewrite pretty_N_go_step by done.
  assert (x `div` 10 < x)%N as Hlt by (apply N.div_lt; lia).
  assert (x `mod` 10 < 10)%N as Hmod by (apply N.mod_lt; lia).
  pose proof (N.div_mod x 10 ltac:(lia)) as Hdm.
  destruct (decide (x `div` 10 = 0)%N) as [Hz|Hnz].
  - rewrite Hz, pretty_N_go_0. eexists _, _, _. split; [reflexivity|].
    split; [apply digit_val_pretty_N_char, Hmod | lia].
  - apply (IH (x `div` 10)%N Hlt ltac:(lia)).
Qed.

Lemma parse_digits_stop acc rest :
  stops rest -> JSON.parse_digits acc rest = (acc, rest).
Proof.
  destruct rest as [|c r]; [reflexivity|]. simpl.
  intros [-> | [-> | ->]]; reflexivity.
Qed.

Lemma parse_fraction_stop rest :
  stops rest -> JSON.parse_fraction rest = Some (0, 0, rest).
Proof.
  destruct rest as [|c r]; [reflexivity|]. simpl.
  intros [-> | [-> | ->]]; reflexivity.
Qed.

Lemma parse_exponent_stop rest :
  stops rest -> JSON.parse_exponent rest = Some (0, rest).
Proof.
  destruct rest as [|c r]; [reflexivity|]. simpl.
  intros [-> | [-> | ->]]; reflexivity.
Qed.

Lemma parse_int_pos (p : positive) rest :
  stops rest ->
  JSON.parse_int (list_ascii_of_string (pretty (Z.pos p)) ++ rest)%list = Some (Z.pos p, rest).
Proof.
  intros Hstop.
  change (pretty (Z.pos p)) with (pretty_N_go (N.pos p) "").
  destruct (pretty_N_go_head (N.pos p) ltac:(lia) "") as (c & t & d & Ht & Hd & Hpos).
  destruct (parse_digits_pretty (N.pos p) ltac:(lia) "" rest) as [k Hk].
  specialize (Hk 0). rewrite Ht in Hk |- *. simpl list_ascii_of_string in *.
  rewrite <- app_comm_cons in *.
  rewrite (parse_digits_cons _ _ _ _ Hd) in Hk.
  replace (0 * 10 + d) with d in Hk by lia.
  replace (0 * 10 ^ Z.of_nat k + Z.of_N (N.pos p)) with (Z.pos p) in Hk by lia.
  change (list_ascii_of_string "" ++ rest)%list with rest in Hk.
  unfold JSON.parse_int. rewrite Hd.
  destruct (Z.eqb_spec d 0) as [->|_]; [lia|].
  rewrite Hk, parse_digits_stop by done. reflexivity.
Qed.

(** An integer numeral below [2^53] denotes its integer. *)
Lemma numeral_small negative n :
  0 <= n < 2 ^ 53 ->
  Num.numeral negative (n * 10 ^ 0 + 0) (0 - 0) = JNum (if negative then - n else n).
Proof.
  intros Hn. replace (n * 10 ^ 0 + 0) with n by lia.
  unfold Num.numeral. change (0 - 0 =? 0) with true.
  destruct (Z.ltb_spec n (2 ^ 53)); [reflexivity | lia].
Qed.

Lemma number_head c :
  (c = "-"%char \/ exists d, JSON.digit_val c = Some d) ->
  JSON.is_ws c = false
  /\ Ascii.eqb c "n" = false /\ Ascii.eqb c "t" = false /\ Ascii.eqb c "f" = false
  /\ Ascii.eqb c JSON.dquote = false /\ Ascii.eqb c "[" = false
  /\ Ascii.eqb c "{" = false /\ Ascii.eqb c "]" = false /\ Ascii.eqb c "}" = false.
Proof.
  intros [-> | [d Hd]]; [repeat split; reflexivity|].
  destruct c as [[] [] [] [] [] [] [] []]; try discriminate Hd; repeat split; reflexivity.
Qed.

Lemma pretty_Z_head (n : Z) :
  exists c t, pretty n = String c t
              /\ (c = "-"%char \/ exists d, JSON.digit_val c = Some d).
Proof.
  destruct n as [|p|p].
  - exists "0"%char, "". split; [reflexivity|]. right. exists 0. reflexivity.
  - change (pretty (Z.pos p)) with (pretty_N_go (N.pos p) "").
    destruct (pretty_N_go_head (N.pos p) ltac:(lia) "") as (c & t & d & Ht & Hd & _).
    exists c, t. split; [exact Ht|]. right. exists d. exact Hd.
  - exists "-"%char, (pretty (N.pos p)). split; [reflexivity|]. left. reflexivity.
Qed.

Lemma parse_number_pretty (n : Z) rest :
  Z.abs n < 2 ^ 53 ->
  stops rest ->
  JSON.parse_number (list_ascii_of_string (pretty n) ++ rest)%list = Some (JNum n, rest).
Proof.
  intros Hn Hstop. destruct n as [|p|p].
  - change (list_ascii_of_string (pretty 0) ++ rest)%list with ("0"%char :: rest).
    unfold JSON.parse_number, JSON.parse_int. simpl Ascii.eqb. cbv iota.
    change (JSON.digit_val "0") with (Some 0). cbv iota beta. change (0 =? 0) with true.
    cbv iota. rewrite parse_fraction_stop, parse_exponent_stop by exact Hstop.
    reflexivity.
  - pose proof (parse_int_pos p rest Hstop) as Hint.
    change (pretty (Z.pos p)) with (pretty_N_go (N.pos p) "") in *.
    destruct (pretty_N_go_head (N.pos p) ltac:(lia) "") as (c & t & d & Ht & Hd & _).
    rewrite Ht in *. simpl list_ascii_of_string in *. rewrite <- app_comm_cons in *.
    unfold JSON.parse_number.
    assert (Ascii.eqb c "-" = false) as ->.
    { destruct c as [[] [] [] [] [] [] [] []]; try discriminate Hd; reflexivity. }
    rewrite Hint, parse_fraction_stop, parse_exponent_stop by exact Hstop.
    rewrite numeral_small by lia. reflexivity.
  - change (list_ascii_of_string (pretty (Z.neg p)) ++ rest)%list
      with ("-"%char :: list_ascii_of_string (pretty (Z.pos p)) ++ rest)%list.
    unfold JSON.parse_number. simpl Ascii.eqb. cbv iota.
    rewrite (parse_int_pos p rest Hstop), parse_fraction_stop, parse_exponent_stop
      by exact Hstop.
    rewrite numeral_small by lia. reflexivity.
Qed.

Lemma json_text_small n : Z.abs n < 2 ^ 53 -> Num.json_text (JNum n) = pretty n.
Proof.
  intros Hn. unfold Num.json_text.
  destruct (Z.ltb_spec (Z.abs n) (2 ^ 53)); [reflexivity | lia].
Qed.

Lemma serialize_num n : Z.abs n < 2 ^ 53 -> JSON.serialize (JNum n) = Some (pretty n).
Proof. intros Hn. cbn [JSON.serialize]. rewrite json_text_small by exact Hn. reflexivity. Qed.

Lemma parse_value_S fuel s :
  JSON.parse_value (S fuel) s =
    match JSON.skip_ws s with
    | [] => None
    | c :: r =>
        if Ascii.eqb c "n" then
          match JSON.literal "ull" r with Some rest => Some (JNull, rest) | None => None end
        else if Ascii.eqb c "t" then
          match JSON.literal "rue" r with Some rest => Some (JBool true, rest) | None => None end
        else if Ascii.eqb c "f" then
          match JSON.literal "alse" r with Some rest => Some (JBool false, rest) | None => None end
        else if Ascii.eqb c JSON.dquote then
          match JSON.parse_string r with
          | Some (t, rest) => Some (JStr t, rest)
          | None => None
          end
        else if Ascii.eqb c "[" then
          match JSON.skip_ws r with
          | x :: r' =>
              if Ascii.eqb x "]" then Some (JArr [], r')
              else JSON.parse_elements fuel r []
          | [] => None
          end
        else if Ascii.eqb c "{" then
          match JSON.skip_ws r with
          | x :: r' =>
              if Ascii.eqb x "}" then Some (JObj [], r')
              else JSON.parse_members fuel r []
          | [] => None
          end
        else JSON.parse_number (c :: r)
    end.
Proof. reflexivity. Qed.

Lemma parse_elements_S fuel s acc :
  JSON.parse_elements (S fuel) s acc =
    match JSON.parse_value fuel s with
    | Some (v, rest) =>
        match JSON.skip_ws rest with
        | x :: r' =>
            if Ascii.eqb x "," then JSON.parse_elements fuel r' (acc ++ [v])
            else if Ascii.eqb x "]" then Some (JArr (acc ++ [v]), r')
            else None
        | [] => None
        end
    | None => None
    end.
Proof. reflexivity. Qed.

Lemma parse_members_S fuel s acc :
  JSON.parse_members (S fuel) s acc =
    match JSON.skip_ws s with
    | q :: r =>
        if Ascii.eqb q JSON.dquote then
          match JSON.parse_string r with
          | Some (k, r1) =>
              match JSON.skip_ws r1 with
              | colon :: r2 =>
                  if Ascii.eqb colon ":" then
                    match JSON.parse_value fuel r2 with
                    | Some (v, rest) =>
                        match JSON.skip_ws rest with
                        | x :: r' =>
                            if Ascii.eqb x ","
                            then JSON.parse_members fuel r' (JSON.put_prop k v acc)
                            else if Ascii.eqb x "}"
                            then Some (JObj (JSON.put_prop k v acc), r')
                            else None
                        | [] => None
                        end
                    | None => None
                    end
                  else None
              | [] => None
              end
          | None => None
          end
        else None
    | [] => None
    end.
Proof. reflexivity. Qed.

Lemma serialize_head v t :
  clean v ->
  JSON.serialize v = Some t -> exists c t', t = String c t' /\ opens_value c.
Proof.
  intros Hclean. destruct Hclean as [|[]|n Hn|s Hs|items Hitems|props Hprops Hnames Hidx Hnd];
    rewrite ?serialize_num by exact Hn; cbn [JSON.serialize]; intros Ht; injection Ht as <-.
  1-3, 5-7: eexists _, _; split; [reflexivity|]; repeat split; reflexivity.
  destruct (pretty_Z_head n) as (c & t & -> & Hc).
  exists c, t. split; [reflexivity|].
  destruct (number_head c Hc) as (? & _ & _ & _ & _ & _ & _ & ? & ?). repeat split; assumption.
Qed.

Lemma weight_arr items : weight (JArr items) = S (weights items).
Proof. reflexivity. Qed.

Lemma weight_obj props : weight (JObj props) = S (prop_weights props).
Proof. reflexivity. Qed.

Lemma serialize_arr items :
  JSON.serialize (JArr items)
  = Some ("[" +:+ Js.join "," (map element_text items) +:+ "]").
Proof. reflexivity. Qed.

Lemma serialize_obj props :
  JSON.serialize (JObj props) = Some ("{" +:+ Js.join "," (JSON.members props) +:+ "}").
Proof. reflexivity. Qed.

Lemma skip_ws_opens c r : JSON.is_ws c = false -> JSON.skip_ws (c :: r) = c :: r.
Proof. intros Hc. simpl. rewrite Hc. reflexivity. Qed.

Lemma join_cons2 sep a b l :
  Js.join sep (a :: b :: l) = a +:+ sep +:+ Js.join sep (b :: l).
Proof. reflexivity. Qed.

Lemma parse_elements_join items :
  Forall parses_back items -> items <> [] ->
  (weights items <= 2 * List.length (list_ascii_of_string (Js.join "," (map element_text items))) + 1)%nat
  /\ forall fuel acc rest,
       (weights items <= fuel)%nat ->
       JSON.parse_elements fuel
         (list_ascii_of_string (Js.join "," (map element_text items)) ++ "]"%char :: rest)%list acc
       = Some (JArr (acc ++ items), rest).
Proof.
  induction 1 as [|x items (t & Ht & Hlen & Hparse) Hitems IH]; [done|]. intros _.
  assert (element_text x = t) as Hx by (unfold element_text; rewrite Ht; reflexivity).
  destruct items as [|y items].
  - simpl map. simpl Js.join. rewrite Hx. split; [simpl; lia|].
    intros [|fuel] acc rest Hfuel; [simpl in Hfuel; lia|].
    rewrite parse_elements_S, Hparse; [reflexivity | simpl in Hfuel; lia | simpl; auto].
  - destruct (IH ltac:(done)) as [IHlen IHparse].
    cbn [map] in *. rewrite join_cons2, Hx, !chars_app, !length_app.
    split; [simpl in *; lia|].
    intros [|fuel] acc rest Hfuel; [simpl in Hfuel; lia|].
    rewrite parse_elements_S, <- !app_assoc, Hparse;
      [| simpl in Hfuel; lia | simpl; auto].
    simpl JSON.skip_ws. cbv iota. simpl Ascii.eqb. cbv iota.
    rewrite IHparse by (simpl in Hfuel |- *; lia).
    rewrite <- app_assoc. reflexivity.
Qed.

Lemma chars_quote k :
  list_ascii_of_string (JSON.quote k) = JSON.dquote :: (list_ascii_of_string (JSON.quote_chars k) ++ [JSON.dquote])%list.
Proof. unfold JSON.quote. simpl. rewrite chars_app. reflexivity. Qed.

Lemma parse_members_join props :
  Forall (fun kv => parses_back kv.2 /\ plain kv.1 = true) props -> props <> [] ->
  (prop_weights props <= 2 * List.length (list_ascii_of_string (Js.join "," (JSON.members props))) + 1)%nat
  /\ forall fuel acc rest,
       (prop_weights props <= fuel)%nat ->
       JSON.parse_members fuel
         (list_ascii_of_string (Js.join "," (JSON.members props)) ++ "}"%char :: rest)%list acc
       = Some (JObj (put_all props acc), rest).
Proof.
  induction 1 as [|[k x] props [(t & Ht & Hlen & Hparse) Hk] Hprops IH]; [done|]. intros _.
  simpl in Ht, Hlen, Hparse, Hk.
  destruct props as [|[k' y] props].
  - simpl JSON.members. rewrite Ht. simpl Js.join.
    rewrite !chars_app, chars_quote, !length_app. split; [simpl; lia|].
    intros [|fuel] acc rest Hfuel; [simpl in Hfuel; lia|].
    rewrite parse_members_S. rewrite <- !app_assoc. rewrite <- !app_comm_cons.
    rewrite skip_ws_opens by reflexivity.
    replace (Ascii.eqb JSON.dquote JSON.dquote) with true by reflexivity.
    rewrite <- app_assoc. simpl app at 2.
    rewrite parse_string_quote by exact Hk.
    simpl JSON.skip_ws. cbv iota. simpl Ascii.eqb. cbv iota.
    rewrite Hparse; [reflexivity | simpl in Hfuel; lia | simpl; auto].
  - destruct (IH ltac:(done)) as [IHlen IHparse].
    assert (exists m ms, JSON.members ((k', y) :: props) = m :: ms) as (m & ms & Hm).
    { inversion Hprops as [|? ? [(ty & Hty & _) _] _]; subst.
      simpl. simpl in Hty. rewrite Hty. eauto. }
    change (JSON.members ((k, x) :: (k', y) :: props))
      with (match JSON.serialize x with
            | Some tx => (JSON.quote k +:+ ":" +:+ tx) :: JSON.members ((k', y) :: props)
            | None => JSON.members ((k', y) :: props)
            end).
    rewrite Ht. rewrite Hm in *. rewrite join_cons2.
    rewrite !chars_app, chars_quote, !length_app. split; [simpl in *; lia|].
    intros [|fuel] acc rest Hfuel; [simpl in Hfuel; lia|].
    rewrite parse_members_S. rewrite <- !app_assoc. rewrite <- !app_comm_cons.
    rewrite skip_ws_opens by reflexivity.
    replace (Ascii.eqb JSON.dquote JSON.dquote) with true by reflexivity.
    rewrite <- app_assoc. simpl app at 2.
    rewrite parse_string_quote by exact Hk.
    simpl JSON.skip_ws. cbv iota. simpl Ascii.eqb. cbv iota.
    rewrite Hparse; [| simpl in Hfuel; lia | simpl; auto].
    simpl JSON.skip_ws. cbv iota. simpl Ascii.eqb. cbv iota.
    rewrite IHparse by (simpl in Hfuel |- *; lia). reflexivity.
Qed.

Lemma replace_prop_fresh k v ps :
  k ∉ map fst ps -> JSON.replace_prop k v ps = None.
Proof.
  induction ps as [|[k' v'] ps IH]; [reflexivity|]. simpl. intros Hk.
  apply not_elem_of_cons in Hk as [Hne Hk].
  destruct (String.eqb_spec k' k) as [->|_]; [done|].
  rewrite IH by done. reflexivity.
Qed.

Lemma put_prop_fresh k v ps :
  k ∉ map fst ps -> JSON.index_of k = None -> JSON.put_prop k v ps = (ps ++ [(k, v)])%list.
Proof.
  intros Hk Hi. unfold JSON.put_prop. rewrite replace_prop_fresh, Hi by done. reflexivity.
Qed.

Lemma put_all_fresh props acc :
  NoDup (map fst props) ->
  Forall (fun kv => JSON.index_of kv.1 = None) props ->
  (forall k, k ∈ map fst props -> k ∉ map fst acc) ->
  put_all props acc = (acc ++ props)%list.
Proof.
  revert acc. induction props as [|[k v] props IH]; intros acc Hnd Hidx Hfresh.
  - simpl. rewrite app_nil_r. reflexivity.
  - simpl in Hnd. apply NoDup_cons in Hnd as [Hk Hnd].
    apply Forall_cons in Hidx as [Hi Hidx]. simpl in Hi.
    unfold put_all. simpl fold_left.
    rewrite put_prop_fresh; [| apply Hfresh; simpl; left | exact Hi].
    fold (put_all props (acc ++ [(k, v)])).
    rewrite IH; [rewrite <- app_assoc; reflexivity | exact Hnd | exact Hidx |].
    intros k0 Hk0. rewrite map_app. simpl. rewrite elem_of_app, list_elem_of_singleton.
    intros [Hin | ->]; [|done].
    apply (Hfresh k0); [simpl; right; exact Hk0 | exact Hin].
Qed.

Lemma bracket_chars (o c : ascii) body rest :
  ((list_ascii_of_string (String o "") ++ list_ascii_of_string body ++ list_ascii_of_string (String c "")) ++ rest)%list
  = o :: (list_ascii_of_string body ++ c :: rest)%list.
Proof. simpl. rewrite <- app_assoc. reflexivity. Qed.

Lemma clean_parses_back v : clean v -> parses_back v.
Proof.
  induction v as [| |b|n|s|items IH|props IH|m e|negative|] using JsValue_nested_ind;
    intros Hclean.
  - inversion Hclean.
  - exists "null". split; [reflexivity|]. split; [simpl; lia|].
    intros [|fuel] rest Hfuel _; [simpl in Hfuel; lia | reflexivity].
  - exists (if b then "true" else "false").
    split; [destruct b; reflexivity|]. split; [destruct b; simpl; lia|].
    intros [|fuel] rest Hfuel _; [simpl in Hfuel; lia | destruct b; reflexivity].
  - inversion Hclean as [| |? Habs| | |]; subst.
    exists (pretty n). split; [apply serialize_num, Habs|].
    destruct (pretty_Z_head n) as (c & t & Hn & Hc).
    split; [rewrite Hn; simpl; lia|].
    intros [|fuel] rest Hfuel Hstop; [simpl in Hfuel; lia|].
    pose proof (parse_number_pretty n rest Habs Hstop) as Hnum.
    rewrite Hn in *. simpl list_ascii_of_string in *. rewrite <- app_comm_cons in *.
    rewrite parse_value_S.
    destruct (number_head c Hc) as (Hws & Hn1 & Hn2 & Hn3 & Hn4 & Hn5 & Hn6 & _).
    rewrite skip_ws_opens by exact Hws.
    rewrite Hn1, Hn2, Hn3, Hn4, Hn5, Hn6. exact Hnum.
  - inversion Hclean as [| | |? Hplain| |]; subst.
    exists (JSON.quote s). split; [reflexivity|].
    split; [rewrite chars_quote; simpl; lia|].
    intros [|fuel] rest Hfuel _; [simpl in Hfuel; lia|].
    rewrite parse_value_S, chars_quote. rewrite <- app_comm_cons.
    rewrite skip_ws_opens by reflexivity.
    change (Ascii.eqb JSON.dquote "n") with false.
    change (Ascii.eqb JSON.dquote "t") with false.
    change (Ascii.eqb JSON.dquote "f") with false.
    replace (Ascii.eqb JSON.dquote JSON.dquote) with true by reflexivity.
    cbv iota. rewrite <- app_assoc. simpl app at 2.
    rewrite parse_string_quote by exact Hplain. reflexivity.
  - inversion Hclean as [| | | |? Hitems|]; subst.
    assert (Forall parses_back items) as Hback.
    { clear Hclean. induction Hitems as [|x items Hx _ IHitems]; [constructor|].
      apply Forall_cons in IH as [IHx IH]. constructor; auto. }
    eexists. split; [apply serialize_arr|].
    rewrite !chars_app, !length_app, weight_arr.
    destruct items as [|x items].
    + split; [simpl; lia|].
      intros [|fuel] rest Hfuel _; [simpl in Hfuel; lia | reflexivity].
    + destruct (parse_elements_join (x :: items) Hback ltac:(done)) as [Hlen Hparse].
      split; [simpl List.length in *; lia|].
      intros [|fuel] rest Hfuel _; [lia|].
      rewrite bracket_chars, parse_value_S, skip_ws_opens by reflexivity.
      simpl Ascii.eqb. cbv iota.
      assert (exists c t', element_text x = String c t' /\ opens_value c)
        as (c & t' & Hx & Hws & Hc & _).
      { apply Forall_cons in Hback as [(t & Ht & _) _].
        apply Forall_cons in Hitems as [Hcx _].
        unfold element_text. rewrite Ht. apply (serialize_head x t Hcx Ht). }
      assert (exists tail, list_ascii_of_string (Js.join "," (map element_text (x :: items)))
                           = c :: tail) as [tail Htail].
      { destruct items; simpl map; [simpl Js.join | rewrite join_cons2];
          rewrite Hx; simpl; eauto. }
      pose proof (Hparse fuel [] rest ltac:(lia)) as Hp.
      rewrite Htail in *. rewrite <- app_comm_cons in *.
      rewrite skip_ws_opens by exact Hws. rewrite Hc. exact Hp.
  - inversion Hclean as [| | | | |? Hprops Hnames Hidx Hnd]; subst.
    assert (Forall (fun kv => parses_back kv.2 /\ plain kv.1 = true) props) as Hback.
    { clear Hclean Hidx Hnd.
      induction Hprops as [|x props Hx _ IHprops]; [constructor|].
      apply Forall_cons in IH as [IHx IH]. apply Forall_cons in Hnames as [Hn Hnames].
      constructor; auto. }
    eexists. split; [apply serialize_obj|].
    rewrite !chars_app, !length_app, weight_obj.
    destruct props as [|[k x] props].
    + split; [simpl; lia|].
      intros [|fuel] rest Hfuel _; [simpl in Hfuel; lia | reflexivity].
    + destruct (parse_members_join ((k, x) :: props) Hback ltac:(done)) as [Hlen Hparse].
      split; [simpl List.length in *; lia|].
      intros [|fuel] rest Hfuel _; [lia|].
      rewrite bracket_chars, parse_value_S, skip_ws_opens by reflexivity.
      simpl Ascii.eqb. cbv iota.
      assert (exists tail, list_ascii_of_string (Js.join "," (JSON.members ((k, x) :: props)))
                           = JSON.dquote :: tail) as [tail Htail].
      { apply Forall_cons in Hback as [[(t & Ht & _) _] _]. simpl in Ht.
        simpl JSON.members. rewrite Ht.
        destruct (JSON.members props); [simpl Js.join | rewrite join_cons2];
          rewrite ?chars_app, chars_quote; simpl; eauto. }
      pose proof (Hparse fuel [] rest ltac:(lia)) as Hp.
      rewrite Htail in *. rewrite <- app_comm_cons in *.
      rewrite skip_ws_opens by reflexivity.
      replace (Ascii.eqb JSON.dquote "}") with false by reflexivity.
      rewrite Hp. rewrite put_all_fresh; [reflexivity | exact Hnd | exact Hidx |].
      intros k0 _. simpl. apply not_elem_of_nil.
  - inversion Hclean.
  - inversion Hclean.
  - inversion Hclean.
Qed.

Theorem clean_round_trips v : clean v -> round_trips v.
Proof.
  intros Hclean. destruct (clean_parses_back v Hclean) as (t & Ht & Hlen & Hparse).
  exists t. split; [exact Ht|].
  unfold JSON.parse.
  specialize (Hparse (2 * List.length (list_ascii_of_string t) + 2)%nat [] ltac:(lia) I).
  rewrite app_nil_r in Hparse. rewrite Hparse. reflexivity.
Qed.

(** A name that differs from each name of a list written out. *)
Ltac not_among :=
  repeat (apply not_elem_of_cons; split; [discriminate|]); apply not_elem_of_nil.

(** Decides [clean] on a value that is written out. *)
Ltac solve_clean :=
  vm_compute;
  repeat match goal with
         | |- clean _ => constructor
         | |- Forall _ _ => constructor
         | |- NoDup _ => constructor
         | |- _ ∉ _ => not_among
         | |- _ = _ => reflexivity
         | |- Z.lt _ _ => reflexivity
         end.

(** A response whose [info] and results are clean comes back from its
    JSON text. *)
Lemma clean_response_round_trips req results total :
  clean (calculatePagination req total) ->
  Forall clean results ->
  round_trips (response_of req results total).
Proof.
  intros Hinfo Hresults. apply clean_round_trips. unfold response_of.
  constructor.
  - repeat constructor; simpl; assumption.
  - repeat constructor.
  - repeat constructor.
  - simpl. repeat (apply NoDup_cons; split; [not_among|]). apply NoDup_nil_2.
Qed.

(** ** Guards *)

Lemma truthy_param_false p : Js.truthy_param p = false <-> missing_or_zero p.
Proof.
  unfold missing_or_zero. destruct p as [|n]; simpl.
  - split; auto.
  - rewrite negb_false_iff, Z.eqb_eq. split.
    + intros ->. auto.
    + intros [Hn|Hn]; [discriminate | congruence].
Qed.

Lemma strict_eq_str_false v lit : v <> JStr lit -> Js.strict_eq_str v lit = false.
Proof.
  destruct v; simpl; try reflexivity.
  intros Hne. apply String.eqb_neq. congruence.
Qed.

(** An object body with no [toString] of its own gets the one key. *)
Lemma cache_key_object props :
  Js.has_own "toString" props = false ->
  cache_key (JObj props) = inr "books_[object Object]".
Proof. intros Hown. unfold cache_key. cbn [Js.toString]. rewrite Hown. reflexivity. Qed.

(** ** Runs *)

Section RunFacts.

Context {Store : Type} `{BookService Store}.

(** What holds of every command of a program holds of every call of
    each of its runs. *)
Lemma run_all_cmds P {A} (p : Prog A) (w : World Store) :
  all_cmds P p -> Forall (event_cmd P) (run p w).2.
Proof.
  revert w. induction p as [a|e|X c k IH]; intros w Hp; simpl.
  - constructor.
  - constructor.
  - destruct Hp as [Hc Hk].
    destruct (exec c w) as [r w1].
    specialize (IH r w1 (Hk r)).
    destruct (run (k r) w1) as [[out w2] tr]. simpl in *.
    constructor; assumption.
Qed.

Lemma run_never (f : forall X, Cmd X -> bool) {A} (p : Prog A) (w : World Store) :
  all_cmds (fun X c => f X c = false) p ->
  existsb (fun e => match e with Ev c _ => f _ c end) (run p w).2 = false.
Proof.
  intros Hp. apply (run_all_cmds _ p w) in Hp.
  induction Hp as [|[X c r] tr Hc _ IH]; simpl; [reflexivity|].
  simpl in Hc. rewrite Hc, IH. reflexivity.
Qed.

Lemma exec_store_only {X} (c : Cmd X) (w : World Store) :
  is_cache_cmd c = false -> redis (exec c w).2 = redis w.
Proof.
  destruct c; simpl; try discriminate; intros _; unfold on_store;
    match goal with |- context [let '(_, _) := ?t in _] => destruct t end;
    reflexivity.
Qed.

(** A program with no cache command leaves the cache as it found it. *)
Lemma run_frame_redis {A} (p : Prog A) (w : World Store) :
  all_cmds (fun _ c => is_cache_cmd c = false) p -> redis (run p w).1.2 = redis w.
Proof.
  revert w. induction p as [a|e|X c k IH]; intros w Hp; simpl; auto.
  destruct Hp as [Hc Hk].
  pose proof (exec_store_only c w Hc) as Hfr.
  destruct (exec c w) as [r w1]. simpl in Hfr.
  specialize (IH r w1 (Hk r)).
  destruct (run (k r) w1) as [[out w2] tr]. simpl in *. congruence.
Qed.

Lemma exec_del key (w : World Store) :
  Redis.online (redis w) = true ->
  exec (RedisDel key) w =
    (inr (match Redis.entries (redis w) !! key with Some _ => 1 | None => 0 end),
     {| store := store w;
        redis := Redis.with_entries (redis w) (delete key (Redis.entries (redis w))) |}).
Proof. intros Hon. simpl. unfold on_redis, Redis.del. rewrite Hon. reflexivity. Qed.

Lemma exec_get key (w : World Store) :
  Redis.online (redis w) = true ->
  exec (RedisGet key) w = (inr (Redis.value <$> Redis.entries (redis w) !! key), w).
Proof.
  intros Hon. simpl. unfold on_redis, Redis.get. rewrite Hon.
  destruct w; reflexivity.
Qed.

Lemma exec_set key v (w : World Store) :
  Redis.online (redis w) = true ->
  exec (RedisSet key v) w =
    (inr tt,
     {| store := store w;
        redis := Redis.with_entries (redis w)
                   (<[key := {| Redis.value := v; Redis.ttl := None |}]>
                      (Redis.entries (redis w))) |}).
Proof. intros Hon. simpl. unfold on_redis, Redis.set. rewrite Hon. reflexivity. Qed.

Lemma exec_expire_present key seconds e (w : World Store) :
  Redis.online (redis w) = true ->
  Redis.entries (redis w) !! key = Some e ->
  0 < seconds ->
  exec (RedisExpire key seconds) w =
    (inr 1,
     {| store := store w;
        redis := Redis.with_entries (redis w)
                   (<[key := {| Redis.value := Redis.value e; Redis.ttl := Some seconds |}]>
                      (Redis.entries (redis w))) |}).
Proof.
  intros Hon He Hs. simpl. unfold on_redis, Redis.expire. rewrite Hon, He.
  destruct (Z.leb_spec seconds 0); [lia | reflexivity].
Qed.

Lemma exec_find limit offset (w : World Store) :
  exec (FindBooks limit offset) w =
    ((findBooks limit offset (store w)).1,
     {| store := (findBooks limit offset (store w)).2; redis := redis w |}).
Proof. simpl. unfold on_store. destruct (findBooks _ _ _). reflexivity. Qed.

Lemma exec_del_offline key (w : World Store) :
  Redis.online (redis w) = false ->
  exec (RedisDel key) w = (inl Redis.down, w).
Proof.
  intros Hoff. simpl. unfold on_redis, Redis.del. rewrite Hoff.
  destruct w; reflexivity.
Qed.

Lemma exec_online {X} (c : Cmd X) (w : World Store) :
  Redis.online (redis (exec c w).2) = Redis.online (redis w).
Proof.
  destruct c; simpl;
    try (unfold on_store;
         match goal with |- context [let '(_, _) := ?t in _] => destruct t end;
         reflexivity).
  all: unfold on_redis, Redis.del, Redis.get, Redis.set, Redis.expire.
  all: destruct (Redis.online (redis w)) eqn:Hon;
    try destruct (Redis.entries (redis w) !! key); simpl; rewrite ?Hon; reflexivity.
Qed.

(** No program connects or disconnects the cache client. *)
Lemma run_online {A} (p : Prog A) (w : World Store) :
  Redis.online (redis (run p w).1.2) = Redis.online (redis w).
Proof.
  revert w. induction p as [a|e|X c k IH]; intros w; simpl; auto.
  pose proof (exec_online c w) as Ho.
  destruct (exec c w) as [r w1]. simpl in Ho.
  specialize (IH r w1).
  destruct (run (k r) w1) as [[out w2] tr]. simpl in *. congruence.
Qed.

End RunFacts.

(** Walks a program whose shape is known, command by command. *)
Ltac walk :=
  repeat first
    [ exact I | reflexivity | progress simpl | split
    | intros [?|[? ?]] | intros [?|?] | intros ? ].

(** ** The listing controller *)

Section Listing.

Context {Store : Type} `{BookService Store}.

Opaque JSON.stringify JSON.parse cache_key exec.

(** A body whose conversion throws: the error leaves [getBooks] before
    any command. *)
Lemma getBooks_no_key req e (w : World Store) :
  cache_key (body req) = inl e ->
  run (getBooks req) w = (inl e, w, []).
Proof. intros Hkey. unfold getBooks. rewrite Hkey. reflexivity. Qed.


(** The paginated path with the client connected: delete, read and
    miss, query, then set and expire unless the store rejected. *)
Lemma getBooks_paged_run req key (w : World Store) :
  cache_key (body req) = inr key ->
  Js.truthy_param (limit (pagination req)) = true ->
  Js.truthy_param (page (pagination req)) = true ->
  Redis.online (redis w) = true ->
  run (getBooks req) w = paged_result req key w.
Proof.
  intros Hkey Hl Hp Hon. destruct w as [s r]. simpl in Hon.
  unfold getBooks, paged_result. rewrite Hkey, Hl, Hp. simpl.
  rewrite exec_del by done. simpl. rewrite exec_get by done. simpl.
  rewrite lookup_delete_eq. simpl.
  rewrite exec_find. simpl.
  destruct (findBooks _ _ s) as [[e|[results total]] s']; simpl; [reflexivity|].
  rewrite stringify_object. simpl. rewrite exec_set by done. simpl.
  erewrite exec_expire_present; [| done | apply lookup_insert_eq | lia ]. simpl.
  unfold Redis.with_entries; simpl.
  destruct (Z.of_nat (List.length results) <? 1); simpl;
    rewrite ?insert_insert_eq, ?insert_delete_eq; reflexivity.
Qed.

Lemma paged_result_history req key (w : World Store) :
  misses_then_queries req key (paged_result req key w).2.
Proof.
  unfold paged_result, misses_then_queries.
  destruct (findBooks _ _ _) as [[e|[results total]] s']; simpl; eauto.
Qed.


(** What is left of [getBooks] once its [del] has settled, run against
    a cache that holds the key again. *)
Lemma getBooks_resumed_on_hit req key (w w' : World Store) e :
  cache_key (body req) = inr key ->
  paginated req ->
  Redis.online (redis w) = true ->
  Redis.online (redis w') = true ->
  Redis.entries (redis w') !! key = Some e ->
  Js.truthy_reply (Some (Redis.value e)) = true ->
  run (step (getBooks req) w).1.1 w' =
    (inr (match JSON.parse (Redis.value e) with
          | Some cachedResponse => Respond 200 cachedResponse
          | None => Next SyntaxError
          end),
     w',
     [Ev (RedisGet key) (inr (Some (Redis.value e)))]).
Proof.
  intros Hkey [Hp Hl] Hon Hon' He Ht.
  unfold getBooks. rewrite Hkey, Hl, Hp. simpl.
  rewrite exec_del by done. simpl. rewrite exec_get by done. rewrite He. simpl.
  simpl in Ht. rewrite Ht.
  destruct (JSON.parse (Redis.value e)); reflexivity.
Qed.

(** The first step of a paginated request with a key: its [del]. *)
Lemma getBooks_first_step req key (w : World Store) :
  cache_key (body req) = inr key ->
  paginated req ->
  Redis.online (redis w) = true ->
  (step (getBooks req) w).1.2 =
    {| store := store w;
       redis := Redis.with_entries (redis w) (delete key (Redis.entries (redis w))) |}.
Proof.
  intros Hkey [Hp Hl] Hon.
  unfold getBooks. rewrite Hkey, Hl, Hp. simpl. rewrite exec_del by done. reflexivity.
Qed.

(** C1, as the code has it: for every listing request whose body has a
    string conversion, and so a key, and in which page or limit is
    missing or zero, [getBooks] takes the unpaged path: it deletes the
    cache entry of the key, queries the store, returns
    [{ totalBooks, results }] and never writes to the cache. *)
Theorem getBooks_unpaged_path req key (w : World Store) :
  cache_key (body req) = inr key ->
  missing_or_zero (page (pagination req)) \/ missing_or_zero (limit (pagination req)) ->
  unpaged_path_taken req key w.
Proof.
  intros Hkey Hfalsy.
  assert (negb (Js.truthy_param (limit (pagination req)))
          || negb (Js.truthy_param (page (pagination req))) = true) as Hc.
  { destruct Hfalsy as [Hp|Hl];
      apply truthy_param_false in Hp || apply truthy_param_false in Hl;
      rewrite ?Hp, ?Hl; simpl; [apply orb_true_r | reflexivity]. }
  split.
  - apply (run_never (@is_cache_write)).
    unfold getBooks. rewrite Hkey, Hc. walk.
  - intros Hon. destruct w as [s r]. simpl in Hon.
    unfold getBooks. rewrite Hkey, Hc. simpl.
    rewrite exec_del by done. simpl. rewrite exec_find. simpl.
    destruct (findBooks _ _ s) as [[e|[results total]] s']; reflexivity.
Qed.

(** C2, what the code does where the claim fails: the template literal
    converts every object body that has no [toString] of its own to
    [[object Object]], so two listing requests with object bodies share
    the key [books_[object Object]] whatever the bodies hold, and the
    second, served after the first, replaces what the first left under
    it. *)
Theorem object_bodies_share_one_key reqA reqB propsA propsB (w : World Store) results total :
  body reqA = JObj propsA ->
  body reqB = JObj propsB ->
  Js.has_own "toString" propsA = false ->
  Js.has_own "toString" propsB = false ->
  paginated reqB ->
  Redis.online (redis w) = true ->
  (findBooks (limit (pagination reqB)) (offset (pagination reqB))
     (store (run (getBooks reqA) w).1.2)).1 = inr (results, total) ->
  second_overwrites_first reqA reqB "books_[object Object]" w results total.
Proof.
  intros HA HB HownA HownB [HpB HlB] Hon Hfound.
  assert (cache_key (body reqA) = inr "books_[object Object]") as HkA
    by (rewrite HA; apply cache_key_object, HownA).
  assert (cache_key (body reqB) = inr "books_[object Object]") as HkB
    by (rewrite HB; apply cache_key_object, HownB).
  unfold second_overwrites_first.
  pose proof (run_online (getBooks reqA) w) as Hon1. rewrite Hon in Hon1.
  destruct (run (getBooks reqA) w) as [[outA w1] trA]. simpl in Hon1, Hfound.
  rewrite (getBooks_paged_run reqB _ w1 HkB HlB HpB Hon1). unfold paged_result.
  rewrite Hfound. cbv zeta.
  split; [exact HkA|]. split; [exact HkB|].
  eexists. split; [apply stringify_object|]. apply lookup_insert_eq.
Qed.

(** C3, for every body: paginated listing requests are served one at a
    time. A request whose body has a key deletes the entry of the key
    before it reads it, so its read finds nothing and it queries the
    store. A request whose body has no string conversion issues no
    command at all: the key is made before the [try]. *)
Theorem getBooks_paginated_never_hits reqs (w : World Store) :
  Forall paginated reqs ->
  Redis.online (redis w) = true ->
  Forall served_in_turn (serve reqs w).
Proof.
  intros Hreqs. revert w.
  induction Hreqs as [|req rest [Hp Hl] _ IH]; intros w Hon; simpl; [constructor|].
  pose proof (run_online (getBooks req) w) as Hon'. rewrite Hon in Hon'.
  assert (served_in_turn (req, (run (getBooks req) w).2)) as Hserved.
  { unfold served_in_turn. simpl.
    destruct (cache_key (body req)) as [e|key] eqn:Hkey.
    - rewrite (getBooks_no_key req e w Hkey). reflexivity.
    - rewrite (getBooks_paged_run req key w Hkey Hl Hp Hon).
      apply paged_result_history. }
  destruct (run (getBooks req) w) as [[out w1] tr]. simpl in *.
  constructor; [exact Hserved|]. apply IH. exact Hon'.
Qed.




(** C10: when the read of the paginated path is a hit, the payload
    served is the parse of a text that an earlier run wrote as the
    JSON text of the response it computed; for a response that comes
    back from its JSON text, the hit serves that response. *)
Theorem getBooks_hit_serves_stored_response reqA reqB key (w : World Store) results total :
  paginated reqA ->
  paginated reqB ->
  cache_key (body reqA) = inr key ->
  cache_key (body reqB) = inr key ->
  Redis.online (redis w) = true ->
  (findBooks (limit (pagination reqB)) (offset (pagination reqB)) (store w)).1
    = inr (results, total) ->
  round_trips (response_of reqB results total) ->
  hit_after_refill reqA reqB key w results total.
Proof.
  intros HA [HpB HlB] HkA HkB Hon Hfound [text [Hs Hparse]].
  unfold hit_after_refill.
  pose proof (getBooks_resumed_on_hit reqA key w) as Hres.
  pose proof (getBooks_first_step reqA key w HkA HA Hon) as Hw1.
  destruct (step (getBooks reqA) w) as [[restA w1] tr0]. simpl in Hres, Hw1. subst w1.
  set (w1 := {| store := store w; redis := _ |}).
  assert (Redis.online (redis w1) = true) as Hon1 by exact Hon.
  rewrite (getBooks_paged_run reqB key w1 HkB HlB HpB Hon1). unfold paged_result.
  change (store w1) with (store w). rewrite Hfound.
  unfold response_of in Hs. rewrite stringify_object in Hs. injection Hs as <-.
  set (text := JSON.object_text _) in *.
  set (w2 := {| store := _; redis := _ |}).
  specialize (Hres w2 {| Redis.value := text; Redis.ttl := Some 300 |} HkA HA Hon Hon).
  rewrite Hres.
  - simpl. rewrite Hparse. exists text. repeat split. simpl. auto.
  - apply lookup_insert_eq.
  - reflexivity.
Qed.

Transparent JSON.stringify JSON.parse cache_key exec.

End Listing.

(** ** The other controllers *)

Section Writes.

Context {Store : Type} `{BookService Store}.

(** C6: a mostViewed request whose [detail] is missing or is anything
    but exactly [summary] or [full] fails with BadRequest and reaches
    no store; with [detail] exactly [summary] or [full] the store is
    called with that value. *)
Theorem getMostViewedBooks_detail req (w : World Store) :
  let detail := prop "detail" (query req) in
  let found := findMostViewedBooks detail (store w) in
  (detail <> JStr "summary" -> detail <> JStr "full" ->
     run (getMostViewedBooks req) w
     = (inr (Next (BadRequest "Parámetro detail inválido")), w, []))
  /\ (detail = JStr "summary" \/ detail = JStr "full" ->
     run (getMostViewedBooks req) w
     = (inr (match found.1 with
             | inr result => Respond 200 result
             | inl e => Next e
             end),
        {| store := found.2; redis := redis w |},
        [Ev (FindMostViewedBooks detail) found.1])).
Proof.
  intros detail found. subst found. unfold getMostViewedBooks. fold detail. split.
  - intros Hs Hf.
    rewrite (strict_eq_str_false _ _ Hs), (strict_eq_str_false _ _ Hf).
    simpl. rewrite orb_true_r. reflexivity.
  - intros Hd.
    assert (negb (Js.truthy detail)
            || negb (Js.strict_eq_str detail "summary")
               && negb (Js.strict_eq_str detail "full") = false) as ->.
    { destruct Hd as [-> | ->]; reflexivity. }
    simpl. unfold on_store.
    destruct (findMostViewedBooks detail (store w)) as [[e|result] s']; reflexivity.
Qed.

(** C7: an update request and a delete request issue no cache command
    ([get], [set], [expire] or [del]) and leave the cache as it was,
    whether they succeed or fail. *)
Theorem writes_leave_cache_alone req (w : World Store) :
  (redis (run (putBooks req) w).1.2 = redis w
   /\ existsb cache_event (run (putBooks req) w).2 = false)
  /\ (redis (run (deleteBook req) w).1.2 = redis w
      /\ existsb cache_event (run (deleteBook req) w).2 = false).
Proof.
  assert (all_cmds (fun _ c => is_cache_cmd c = false) (putBooks req)) as Hput.
  { unfold putBooks. simpl. split; [reflexivity|].
    intros [e|result]; simpl; [exact I|]. destruct (Js.truthy result); exact I. }
  assert (all_cmds (fun _ c => is_cache_cmd c = false) (deleteBook req)) as Hdel.
  { unfold deleteBook. simpl. split; [reflexivity|].
    intros [e|book]; simpl; [exact I|]. destruct (Js.truthy book); exact I. }
  repeat split.
  - apply run_frame_redis, Hput.
  - apply (run_never (@is_cache_cmd)), Hput.
  - apply run_frame_redis, Hdel.
  - apply (run_never (@is_cache_cmd)), Hdel.
Qed.

(** C8, for every body: when the store returns a created record and
    the body has a string conversion, the create handler issues
    [expire] with 0 seconds on the key made from the create request's
    own body and answers with the record; when the conversion throws,
    the record is in the store already, no [expire] is issued and the
    TypeError goes to [next]; when the store returns nothing, the
    request fails with BadRequest and no [expire] is issued. *)
Theorem postBooks_expires_own_key req (w : World Store) :
  let created := createBook (body req) (store w) in
  run (postBooks req) w =
    match created.1 with
    | inr resultBook =>
        if Js.truthy resultBook then
          match cache_key (body req) with
          | inr key =>
              (inr (Respond 201 resultBook),
               {| store := created.2; redis := (Redis.expire key 0 (redis w)).2 |},
               [Ev (CreateBook (body req)) (inr resultBook);
                Ev (RedisExpire key 0) (Redis.expire key 0 (redis w)).1])
          | inl e =>
              (inr (Next e),
               {| store := created.2; redis := redis w |},
               [Ev (CreateBook (body req)) (inr resultBook)])
          end
        else
          (inr (Next (BadRequest "Error al publicar, la solicitud está vacia")),
           {| store := created.2; redis := redis w |},
           [Ev (CreateBook (body req)) (inr resultBook)])
    | inl e =>
        (inr (Next e),
         {| store := created.2; redis := redis w |},
         [Ev (CreateBook (body req)) (inl e)])
    end.
Proof.
  intros created. subst created.
  unfold postBooks. simpl. unfold on_store.
  destruct (createBook (body req) (store w)) as [[e|resultBook] s']; simpl;
    [reflexivity|].
  destruct (Js.truthy resultBook); simpl; [|reflexivity].
  destruct (cache_key (body req)) as [e|key]; simpl; [reflexivity|].
  unfold on_redis. simpl.
  destruct (Redis.expire key 0 (redis w)) as [r c]. reflexivity.
Qed.

End Writes.

(** ** The statements on sample data *)

Module Instances.

Import MemStore PaginationCalculator Sample.

(** Page 0 is falsy: the request goes the unpaged way, over a cache
    that holds a stale entry under its key. *)
Lemma getBooks_unpaged_path_witness :
  cache_key (body (paged by_borges 0 10)) = inr object_key
  /\ (missing_or_zero (page (pagination (paged by_borges 0 10)))
      \/ missing_or_zero (limit (pagination (paged by_borges 0 10))))
  /\ unpaged_path_taken (paged by_borges 0 10) object_key (world library stale_cache).
Proof.
  split; [reflexivity|]. split; [left; right; reflexivity|].
  apply (getBooks_unpaged_path (paged by_borges 0 10) object_key (world library stale_cache)).
  - reflexivity.
  - left; right; reflexivity.
Defined.

(** Two requests on which the unpaged path is not taken. Page -1 is not
    positive, yet it is truthy: the request goes the paginated way and
    writes to the cache. And a request with no page and no limit whose
    body has a property [toString] has no key: nothing is deleted and
    the store is not asked. *)
Lemma getBooks_unpaged_path_not_taken :
  ((missing_or_nonpositive (page (pagination (paged by_borges (-1) 10)))
    \/ missing_or_nonpositive (limit (pagination (paged by_borges (-1) 10))))
   /\ cache_key (body (paged by_borges (-1) 10)) = inr object_key
   /\ ~ unpaged_path_taken (paged by_borges (-1) 10) object_key (world library ∅))
  /\ ((missing_or_nonpositive (page (pagination (unpaged own_toString)))
       \/ missing_or_nonpositive (limit (pagination (unpaged own_toString))))
      /\ run (getBooks (unpaged own_toString)) (world library stale_cache)
         = (inl TypeError, world library stale_cache, [])
      /\ forall key, ~ unpaged_path_taken (unpaged own_toString) key
                        (world library stale_cache)).
Proof.
  split.
  - split; [left; right; exists (-1); split; [reflexivity | lia]|].
    split; [reflexivity|].
    intros [Hnowrite _]. vm_compute in Hnowrite. discriminate.
  - split; [left; left; reflexivity|]. split; [reflexivity|].
    intros key [_ Hrun]. specialize (Hrun eq_refl). discriminate Hrun.
Qed.

(** Two bodies of different content, one key: the entry the first
    request leaves is replaced by the second. *)
Lemma object_bodies_share_one_key_witness :
  by_borges <> by_sabato
  /\ Js.has_own "toString" [("author", JStr "Borges")] = false
  /\ Js.has_own "toString" [("author", JStr "Sabato")] = false
  /\ paginated (paged by_sabato 2 1)
  /\ (findBooks (Given 1) (Given 1)
        (store (run (getBooks (paged by_borges 1 2)) (world library stale_cache)).1.2)).1
     = inr ([rayuela], 3)
  /\ second_overwrites_first (paged by_borges 1 2) (paged by_sabato 2 1)
       "books_[object Object]" (world library stale_cache) [rayuela] 3.
Proof.
  split; [discriminate|]. split; [reflexivity|]. split; [reflexivity|].
  split; [split; reflexivity|]. split; [reflexivity|].
  apply (object_bodies_share_one_key (paged by_borges 1 2) (paged by_sabato 2 1)
           [("author", JStr "Borges")] [("author", JStr "Sabato")]
           (world library stale_cache) [rayuela] 3).
  - reflexivity.
  - reflexivity.
  - reflexivity.
  - reflexivity.
  - split; reflexivity.
  - reflexivity.
  - reflexivity.
Defined.

(** The same page asked twice, a request whose body has no string
    conversion, then another page: three misses and one request that
    does nothing. *)
Lemma getBooks_paginated_never_hits_witness :
  Forall paginated
    [paged by_borges 1 2; paged by_borges 1 2; paged own_toString 1 2; paged by_sabato 2 1]
  /\ Redis.online (redis (world library stale_cache)) = true
  /\ Forall served_in_turn
       (serve [paged by_borges 1 2; paged by_borges 1 2; paged own_toString 1 2;
               paged by_sabato 2 1]
              (world library stale_cache)).
Proof.
  assert (Forall paginated
            [paged by_borges 1 2; paged by_borges 1 2; paged own_toString 1 2;
             paged by_sabato 2 1]) as Hreqs.
  { repeat (constructor; [split; reflexivity|]). constructor. }
  split; [exact Hreqs|]. split; [reflexivity|].
  apply (getBooks_paginated_never_hits _ (world library stale_cache) Hreqs).
  reflexivity.
Defined.




Lemma rayuela_clean : clean rayuela.
Proof. solve_clean. Defined.

Lemma sample_response_round_trips :
  round_trips (response_of (paged by_sabato 2 1) [rayuela] 3).
Proof. apply clean_response_round_trips; solve_clean. Defined.

Example sample_response_text :
  JSON.stringify (response_of (paged by_sabato 2 1) [rayuela] 3)
  = Some (JSON.sq "{'info':{'totalItems':3,'itemsPerPage':1,'currentPage':2,'totalPages':3,'offset':1},'results':[{'id':'b2','title':'Rayuela'}]}")
  /\ JSON.parse (JSON.sq "{'info':{'totalItems':3,'itemsPerPage':1,'currentPage':2,'totalPages':3,'offset':1},'results':[{'id':'b2','title':'Rayuela'}]}")
     = Some (response_of (paged by_sabato 2 1) [rayuela] 3).
Proof. split; vm_compute; reflexivity. Qed.

(** Page 1 of two is suspended after its delete while page 2 of one,
    on the same key, runs: page 1 is then served page 2. *)
Lemma getBooks_hit_serves_stored_response_witness :
  paginated (paged by_borges 1 2)
  /\ paginated (paged by_sabato 2 1)
  /\ cache_key by_borges = inr object_key
  /\ cache_key by_sabato = inr object_key
  /\ Redis.online (redis (world library stale_cache)) = true
  /\ (findBooks (Given 1) (Given 1) (store (world library stale_cache))).1
     = inr ([rayuela], 3)
  /\ round_trips (response_of (paged by_sabato 2 1) [rayuela] 3)
  /\ hit_after_refill (paged by_borges 1 2) (paged by_sabato 2 1) object_key
       (world library stale_cache) [rayuela] 3.
Proof.
  split; [split; reflexivity|]. split; [split; reflexivity|].
  split; [reflexivity|]. split; [reflexivity|]. split; [reflexivity|].
  split; [reflexivity|]. split; [exact sample_response_round_trips|].
  apply (getBooks_hit_serves_stored_response
           (paged by_borges 1 2) (paged by_sabato 2 1) object_key
           (world library stale_cache) [rayuela] 3).
  - split; reflexivity.
  - split; reflexivity.
  - reflexivity.
  - reflexivity.
  - reflexivity.
  - reflexivity.
  - exact sample_response_round_trips.
Defined.

(** [detail=other] is refused; [detail=summary] reaches the store as
    it is. *)
Lemma getMostViewedBooks_detail_witness :
  run (getMostViewedBooks (most_viewed (JStr "other"))) (world library ∅)
  = (inr (Next (BadRequest "Parámetro detail inválido")), world library ∅, [])
  /\ run (getMostViewedBooks (most_viewed (JStr "summary"))) (world library ∅)
     = (inr (Respond 200 (JArr library)), world library ∅,
        [Ev (FindMostViewedBooks (JStr "summary")) (inr (JArr library))]).
Proof.
  split.
  - apply (getMostViewedBooks_detail (most_viewed (JStr "other")) (world library ∅));
      intros Heq; vm_compute in Heq; discriminate.
  - exact (proj2 (getMostViewedBooks_detail (most_viewed (JStr "summary"))
                    (world library ∅))
             (or_introl eq_refl)).
Defined.

Example getBooks_unpaged_sample :
  run (getBooks (unpaged by_borges)) (world library stale_cache)
  = (inr (Respond 200 (JObj [("totalBooks", JNum 3); ("results", JArr library)])),
     world library ∅,
     [Ev (RedisDel object_key) (inr 1);
      Ev (FindBooks Absent Absent) (inr (library, 3))]).
Proof. vm_compute. reflexivity. Qed.

Example getBooks_first_page_sample :
  (run (getBooks (paged by_borges 1 2)) (world library ∅)).1.1
  = inr (Respond 200
           (JObj [("info",
                   JObj [("totalItems", JNum 3); ("itemsPerPage", JNum 2);
                         ("currentPage", JNum 1); ("totalPages", JNum 2);
                         ("offset", JNum 0)]);
                  ("results", JArr [ficciones; rayuela])])).
Proof. vm_compute. reflexivity. Qed.

Example getBooks_cache_offline :
  run (getBooks (paged by_borges 1 2))
      {| store := library;
         redis := {| Redis.entries := ∅; Redis.online := false |} |}
  = (inr (Next Redis.down),
     {| store := library;
        redis := {| Redis.entries := ∅; Redis.online := false |} |},
     [Ev (RedisDel object_key) (inl Redis.down)]).
Proof. vm_compute. reflexivity. Qed.

Example getBooks_store_down :
  (@run unit DownStore.service _ (getBooks (unpaged by_borges))
     {| store := tt; redis := {| Redis.entries := ∅; Redis.online := true |} |}).1.1
  = inr (Next DownStore.failure).
Proof. vm_compute. reflexivity. Qed.

Example postBooks_sample :
  run (postBooks (on_id "" ficciones)) (world [rayuela] stale_cache)
  = (inr (Respond 201 ficciones), world [rayuela; ficciones] ∅,
     [Ev (CreateBook ficciones) (inr ficciones);
      Ev (RedisExpire object_key 0) (inr 1)]).
Proof. vm_compute. reflexivity. Qed.

Example postBooks_own_toString_sample :
  run (postBooks (on_id "" own_toString)) (world [rayuela] stale_cache)
  = (inr (Next TypeError), world [rayuela; own_toString] stale_cache,
     [Ev (CreateBook own_toString) (inr own_toString)]).
Proof. vm_compute. reflexivity. Qed.

Example getBooks_own_toString_sample :
  run (getBooks (paged own_toString 1 2)) (world library stale_cache)
  = (inl TypeError, world library stale_cache, []).
Proof. vm_compute. reflexivity. Qed.

Example postBooks_empty_sample :
  run (postBooks (on_id "" (JObj []))) (world [rayuela] stale_cache)
  = (inr (Next (BadRequest "Error al publicar, la solicitud está vacia")),
     world [rayuela] stale_cache,
     [Ev (CreateBook (JObj [])) (inr JNull)]).
Proof. vm_compute. reflexivity. Qed.

Example deleteBook_sample :
  run (deleteBook (on_id "b2" JUndefined)) (world library stale_cache)
  = (inr (Respond 200 (JObj [("success", JObj [("message", JStr "Libro eliminado")])])),
     world [ficciones; el_tunel] stale_cache,
     [Ev (RemoveBook (JStr "b2")) (inr rayuela)]).
Proof. vm_compute. reflexivity. Qed.

Example putBooks_unknown_id_sample :
  run (putBooks (on_id "b9" ficciones)) (world library stale_cache)
  = (inr (Next (BadRequest "No se pudo actualizar")), world library stale_cache,
     [Ev (UpdateBook (JStr "b9") ficciones) (inr JNull)]).
Proof. vm_compute. reflexivity. Qed.

Example fractions_round_trip :
  round_trips (JObj [("rating", JFrac 9 1); ("views", JNum (10 ^ 21)); ("name", JStr "😀")]).
Proof.
  eexists. split; [vm_compute; reflexivity|]. vm_compute. reflexivity.
Qed.

Example undefined_property_does_not_round_trip :
  ~ round_trips (JObj [("info", JUndefined); ("results", JArr [])]).
Proof. intros [text [Hs Hp]]. vm_compute in Hs. injection Hs as <-. vm_compute in Hp. discriminate. Qed.

End Instances.

(** * Further properties *)

(** ** More on runs *)

Section RunFrames.

Context {Store : Type} `{BookService Store}.

(** A command that is not about the key [k'] leaves that key of the
    cache, and the state of the connection, as they were. *)
Lemma exec_other_keys {X} (c : Cmd X) (w : World Store) k' :
  cmd_key c <> Some k' ->
  Redis.entries (redis (exec c w).2) !! k' = Redis.entries (redis w) !! k'.
Proof.
  intros Hc.
  destruct c; simpl;
    try (unfold on_store;
         match goal with |- context [let '(_, _) := ?t in _] => destruct t end;
         reflexivity).
  all: assert (k' <> key) as Hk by (intros ->; apply Hc; reflexivity).
  all: unfold on_redis, Redis.del, Redis.get, Redis.set, Redis.expire.
  all: destruct (Redis.online (redis w)); simpl; try reflexivity.
  - rewrite lookup_delete_ne by done. reflexivity.
  - rewrite lookup_insert_ne by done. reflexivity.
  - destruct (Redis.entries (redis w) !! key); simpl; [|reflexivity].
    destruct (seconds <=? 0); simpl.
    + rewrite lookup_delete_ne by done. reflexivity.
    + rewrite lookup_insert_ne by done. reflexivity.
Qed.

Lemma run_other_keys {A} (p : Prog A) (w : World Store) b k' :
  all_cmds (keyed_by b) p -> cache_key b <> inr k' ->
  Redis.entries (redis (run p w).1.2) !! k' = Redis.entries (redis w) !! k'.
Proof.
  revert w. induction p as [a|e|X c k IH]; intros w Hp Hk; simpl; auto.
  destruct Hp as [Hc Hrest].
  assert (cmd_key c <> Some k') as Hne by (intros Heq; apply Hk, Hc, Heq).
  pose proof (exec_other_keys c w k' Hne) as He.
  destruct (exec c w) as [r w1]. simpl in He.
  specialize (IH r w1 (Hrest r) Hk).
  destruct (run (k r) w1) as [[out w2] tr]. simpl in *. congruence.
Qed.

(** A body inside [try]/[catch] that hands the error to [next] ends in
    an outcome. *)
Lemma run_try_catch_next (p : Prog Outcome) (w : World Store) :
  exists out, (run (try_catch p (fun err => Ret (Next err))) w).1.1 = inr out.
Proof.
  revert w. induction p as [a|e|X c k IH]; intros w; simpl; eauto.
  destruct (exec c w) as [r w1]. destruct (IH r w1) as [out Hout].
  destruct (run (try_catch (k r) _) w1) as [[o w2] tr]. simpl in *. eauto.
Qed.

End RunFrames.

(** ** More on the listing controller *)

Section ListingMore.

Context {Store : Type} `{BookService Store}.

Opaque JSON.stringify JSON.parse cache_key exec.

Lemma getBooks_cmds_keyed req :
  all_cmds (keyed_by (body req)) (getBooks req).
Proof.
  unfold getBooks, keyed_by.
  destruct (cache_key (body req)) as [e|key]; simpl; [exact I|].
  destruct (Js.truthy_param (limit (pagination req))),
           (Js.truthy_param (page (pagination req))); simpl.
  all: repeat first
         [ exact I | progress simpl | split | congruence
         | intros [?|[? ?]] | intros [?|?] | intros ?
         | match goal with |- context [match ?x with _ => _ end] => destruct x end ].
Qed.

Lemma postBooks_cmds_keyed req :
  all_cmds (keyed_by (body req)) (postBooks req).
Proof.
  unfold postBooks, keyed_by. simpl. split; [discriminate|].
  intros [e|resultBook]; simpl; [exact I|].
  destruct (Js.truthy resultBook); simpl; [|exact I].
  destruct (cache_key (body req)) as [e|key]; simpl; [exact I|].
  split; [congruence|]. intros _. exact I.
Qed.

(** X1: when the cache client rejects its commands, a listing request
    whose body has a key ends, on either path, in [next] with the
    client's error after its first command: the store is never asked
    and nothing changes. *)
Theorem getBooks_cache_down req key (w : World Store) :
  cache_key (body req) = inr key ->
  Redis.online (redis w) = false ->
  run (getBooks req) w
  = (inr (Next Redis.down), w, [Ev (RedisDel key) (inl Redis.down)]).
Proof.
  intros Hkey Hoff. unfold getBooks. rewrite Hkey.
  destruct (Js.truthy_param (limit (pagination req))),
           (Js.truthy_param (page (pagination req))); simpl;
    rewrite exec_del_offline by done; reflexivity.
Qed.

(** X2: when the store rejects the query of a paginated listing, the
    rejection goes to [next] as it is, nothing is written to the cache,
    and the key, deleted at the start, stays absent. *)
Theorem getBooks_store_rejection req key (w : World Store) e :
  cache_key (body req) = inr key ->
  paginated req ->
  Redis.online (redis w) = true ->
  (findBooks (limit (pagination req)) (offset (pagination req)) (store w)).1 = inl e ->
  (run (getBooks req) w).1.1 = inr (Next e)
  /\ existsb cache_write_event (run (getBooks req) w).2 = false
  /\ Redis.entries (redis (run (getBooks req) w).1.2) !! key = None.
Proof.
  intros Hkey [Hp Hl] Hon Hfound.
  rewrite (getBooks_paged_run req key w Hkey Hl Hp Hon). unfold paged_result.
  rewrite Hfound. simpl. repeat split. apply lookup_delete_eq.
Qed.

(** X3: a listing request and a create request change the cache at no
    key other than the one made from their own body, and leave the
    state of the connection as it was. *)
Theorem listing_and_create_touch_one_key req (w : World Store) k' :
  cache_key (body req) <> inr k' ->
  (Redis.entries (redis (run (getBooks req) w).1.2) !! k' = Redis.entries (redis w) !! k'
   /\ Redis.online (redis (run (getBooks req) w).1.2) = Redis.online (redis w))
  /\ (Redis.entries (redis (run (postBooks req) w).1.2) !! k' = Redis.entries (redis w) !! k'
      /\ Redis.online (redis (run (postBooks req) w).1.2) = Redis.online (redis w)).
Proof.
  intros Hk. split; split; try apply run_online.
  - apply (run_other_keys _ w (body req) k' (getBooks_cmds_keyed req) Hk).
  - apply (run_other_keys _ w (body req) k' (postBooks_cmds_keyed req) Hk).
Qed.

(** X4: an empty string read from the cache counts as no entry: the
    resumed listing queries the store. *)
Theorem getBooks_empty_cached_value_is_miss req key (w w' : World Store) e :
  cache_key (body req) = inr key ->
  paginated req ->
  Redis.online (redis w) = true ->
  Redis.online (redis w') = true ->
  Redis.entries (redis w') !! key = Some e ->
  Redis.value e = "" ->
  exists rest,
    (run (step (getBooks req) w).1.1 w').2
    = Ev (RedisGet key) (inr (Some ""))
      :: Ev (FindBooks (limit (pagination req)) (offset (pagination req)))
           (findBooks (limit (pagination req)) (offset (pagination req)) (store w')).1
      :: rest.
Proof.
  intros Hkey [Hp Hl] Hon Hon' He Hv.
  unfold getBooks. rewrite Hkey, Hl, Hp. simpl.
  rewrite exec_del by done. simpl. rewrite exec_get by done. rewrite He. simpl.
  rewrite Hv. simpl. rewrite exec_find.
  destruct (run _ _) as [[out w2] tr]. simpl. eauto.
Qed.

(** X5: a cached text that is not JSON makes the resumed listing end in
    [next] with a SyntaxError; the store is not asked and the cache is
    left as it was. *)
Theorem getBooks_hit_unparsable req key (w w' : World Store) e :
  cache_key (body req) = inr key ->
  paginated req ->
  Redis.online (redis w) = true ->
  Redis.online (redis w') = true ->
  Redis.entries (redis w') !! key = Some e ->
  Redis.value e <> "" ->
  JSON.parse (Redis.value e) = None ->
  run (step (getBooks req) w).1.1 w'
  = (inr (Next SyntaxError), w', [Ev (RedisGet key) (inr (Some (Redis.value e)))]).
Proof.
  intros Hkey Hpag Hon Hon' He Hne Hparse.
  rewrite (getBooks_resumed_on_hit req key w w' e Hkey Hpag Hon Hon' He).
  - rewrite Hparse. reflexivity.
  - simpl. apply negb_true_iff, String.eqb_neq, Hne.
Qed.

(** X8: with the client connected, the outcome of a listing request,
    the store it leaves and the entry it leaves under its key depend on
    the store alone, not on what the cache held. *)
Theorem getBooks_ignores_cache_content req key (w1 w2 : World Store) :
  cache_key (body req) = inr key ->
  store w1 = store w2 ->
  Redis.online (redis w1) = true ->
  Redis.online (redis w2) = true ->
  (run (getBooks req) w1).1.1 = (run (getBooks req) w2).1.1
  /\ store (run (getBooks req) w1).1.2 = store (run (getBooks req) w2).1.2
  /\ Redis.entries (redis (run (getBooks req) w1).1.2) !! key
     = Redis.entries (redis (run (getBooks req) w2).1.2) !! key.
Proof.
  intros Hkey Hs Hon1 Hon2.
  destruct (Js.truthy_param (limit (pagination req))) eqn:Hl;
    [destruct (Js.truthy_param (page (pagination req))) eqn:Hp|].
  - rewrite !(getBooks_paged_run req key) by done. unfold paged_result. rewrite Hs.
    destruct (findBooks _ _ (store w2)) as [[e|[results total]] s']; simpl.
    + repeat split. rewrite !lookup_delete_eq. reflexivity.
    + repeat split. rewrite !lookup_insert_eq. reflexivity.
  - destruct w1 as [s1 r1], w2 as [s2 r2]. simpl in *. subst s2.
    unfold getBooks. rewrite Hkey, Hl, Hp. simpl.
    rewrite !exec_del by done. simpl. rewrite !exec_find. simpl.
    destruct (findBooks _ _ s1) as [[e|[results total]] s']; simpl;
      repeat split; rewrite !lookup_delete_eq; reflexivity.
  - destruct w1 as [s1 r1], w2 as [s2 r2]. simpl in *. subst s2.
    unfold getBooks. rewrite Hkey, Hl. simpl.
    rewrite !exec_del by done. simpl. rewrite !exec_find. simpl.
    destruct (findBooks _ _ s1) as [[e|[results total]] s']; simpl;
      repeat split; rewrite !lookup_delete_eq; reflexivity.
Qed.

(** X12: the one error that leaves [getBooks] on neither [res] nor
    [next] is the one thrown while its key is made, before the [try]:
    a run ends in an escaped error exactly when the string conversion
    of the body throws, and then it has issued no command and changed
    nothing. [postBooks] makes the same key inside its [try]: there the
    error of the conversion goes to [next], after the record was
    created. *)
Theorem key_error_escapes_getBooks req (w : World Store) e :
  ((run (getBooks req) w).1.1 = inl e <-> cache_key (body req) = inl e)
  /\ (cache_key (body req) = inl e -> run (getBooks req) w = (inl e, w, []))
  /\ (cache_key (body req) = inl e ->
      forall resultBook s',
        createBook (body req) (store w) = (inr resultBook, s') ->
        Js.truthy resultBook = true ->
        run (postBooks req) w
        = (inr (Next e), {| store := s'; redis := redis w |},
           [Ev (CreateBook (body req)) (inr resultBook)])).
Proof.
  split; [|split; [apply getBooks_no_key|]].
  - destruct (cache_key (body req)) as [e'|key] eqn:Hkey.
    + rewrite (getBooks_no_key req e' w Hkey). simpl. split; congruence.
    + split; [|discriminate]. unfold getBooks. rewrite Hkey. simpl.
      match goal with
      | |- (run (try_catch ?p _) w).1.1 = _ -> _ =>
          destruct (run_try_catch_next p w) as [out ->]; discriminate
      end.
  - intros Hkey resultBook s' Hcreate Htruthy.
    Transparent exec.
    unfold postBooks. rewrite Hkey. simpl. unfold on_store.
    rewrite Hcreate. simpl. rewrite Htruthy. reflexivity.
    Opaque exec.
Qed.

Transparent JSON.stringify JSON.parse cache_key exec.

End ListingMore.

Section ListingCompose.

Context {Store : Type} `{BookService Store}.

Opaque JSON.stringify JSON.parse cache_key exec.

(** X6: when a paginated request is resumed on the entry that another
    one wrote for an empty page, the two differ in their answers: the
    one that computed the page ends in NotFound, the resumed one answers
    200 with that same page. *)
Theorem getBooks_refill_answers_differ reqA reqB key (w : World Store) total :
  paginated reqA ->
  paginated reqB ->
  cache_key (body reqA) = inr key ->
  cache_key (body reqB) = inr key ->
  Redis.online (redis w) = true ->
  (findBooks (limit (pagination reqB)) (offset (pagination reqB)) (store w)).1
    = inr ([], total) ->
  clean (calculatePagination reqB total) ->
  refill_answers_differ reqA reqB w total.
Proof.
  intros HA [HpB HlB] HkA HkB Hon Hfound Hclean. unfold refill_answers_differ.
  destruct (clean_response_round_trips reqB [] total Hclean ltac:(constructor))
    as [text [Hs Hparse]].
  pose proof (getBooks_resumed_on_hit reqA key w) as Hres.
  pose proof (getBooks_first_step reqA key w HkA HA Hon) as Hw1.
  destruct (step (getBooks reqA) w) as [[restA w1] tr0]. simpl in Hres, Hw1. subst w1.
  set (w1 := {| store := store w; redis := _ |}).
  assert (Redis.online (redis w1) = true) as Hon1 by exact Hon.
  rewrite (getBooks_paged_run reqB key w1 HkB HlB HpB Hon1). unfold paged_result.
  change (store w1) with (store w). rewrite Hfound.
  unfold response_of in Hs. rewrite stringify_object in Hs. injection Hs as <-.
  set (text := JSON.object_text _) in *.
  set (w2 := {| store := _; redis := _ |}).
  specialize (Hres w2 {| Redis.value := text; Redis.ttl := Some 300 |} HkA HA Hon Hon).
  rewrite Hres.
  - simpl. rewrite Hparse. split; reflexivity.
  - apply lookup_insert_eq.
  - reflexivity.
Qed.

(** X7: after a paginated miss whose [info] and results are values that
    JSON carries as they are, the text left under the key parses back
    to the response that was served. *)
Theorem getBooks_cached_text_parses_back req key (w : World Store) results total :
  cache_key (body req) = inr key ->
  paginated req ->
  Redis.online (redis w) = true ->
  (findBooks (limit (pagination req)) (offset (pagination req)) (store w)).1
    = inr (results, total) ->
  clean (calculatePagination req total) ->
  Forall clean results ->
  exists e,
    Redis.entries (redis (run (getBooks req) w).1.2) !! key = Some e
    /\ JSON.parse (Redis.value e) = Some (response_of req results total).
Proof.
  intros Hkey [Hp Hl] Hon Hfound Hinfo Hresults.
  destruct (clean_response_round_trips req results total Hinfo Hresults)
    as [text [Hs Hparse]].
  unfold response_of in Hs. rewrite stringify_object in Hs. injection Hs as <-.
  rewrite (getBooks_paged_run req key w Hkey Hl Hp Hon). unfold paged_result.
  rewrite Hfound. simpl. eexists. split; [apply lookup_insert_eq|]. exact Hparse.
Qed.

(** X9: a paginated request repeated at once, over a store that the
    query leaves as it was, ends as the first run did and leaves the
    same world. *)
Theorem getBooks_repeat_is_idempotent req (w : World Store) :
  paginated req ->
  Redis.online (redis w) = true ->
  (findBooks (limit (pagination req)) (offset (pagination req)) (store w)).2 = store w ->
  repeat_changes_nothing req w.
Proof.
  intros [Hp Hl] Hon Hsame. unfold repeat_changes_nothing.
  destruct (cache_key (body req)) as [e|key] eqn:Hkey.
  { rewrite !(getBooks_no_key req e) by exact Hkey. split; reflexivity. }
  rewrite (getBooks_paged_run req key w Hkey Hl Hp Hon).
  pose proof (run_online (getBooks req) w) as Hon1.
  rewrite (getBooks_paged_run req key w Hkey Hl Hp Hon), Hon in Hon1.
  destruct (paged_result req key w) as [[out1 w1] tr1] eqn:E. simpl in Hon1.
  rewrite (getBooks_paged_run req key w1 Hkey Hl Hp Hon1).
  unfold paged_result in *.
  destruct (findBooks _ _ (store w)) as [[e|[results total]] s'] eqn:Hf;
    simpl in Hsame, E; subst s'; injection E as <- <- <-; simpl; rewrite Hf; simpl.
  - split; [reflexivity|]. unfold Redis.with_entries. simpl.
    rewrite delete_delete_eq. reflexivity.
  - split; [reflexivity|]. unfold Redis.with_entries. simpl.
    rewrite insert_insert_eq. reflexivity.
Qed.

(** X10: the answer of a create request and the store it leaves do not
    depend on the cache: not on its content, and not on whether the
    client is connected. *)
Theorem postBooks_ignores_cache req (w1 w2 : World Store) :
  store w1 = store w2 ->
  (run (postBooks req) w1).1.1 = (run (postBooks req) w2).1.1
  /\ store (run (postBooks req) w1).1.2 = store (run (postBooks req) w2).1.2.
Proof.
  Transparent exec.
  intros Hs. destruct w1 as [s1 r1], w2 as [s2 r2]. simpl in Hs. subst s2.
  unfold postBooks. simpl. unfold on_store. simpl.
  destruct (createBook (body req) s1) as [[e|resultBook] s']; simpl; [auto|].
  destruct (Js.truthy resultBook); simpl; [|auto].
  destruct (cache_key (body req)) as [e|key]; simpl; [auto|].
  unfold on_redis. simpl.
  destruct (Redis.expire _ 0 r1), (Redis.expire _ 0 r2). simpl. auto.
  Opaque exec.
Qed.

(** X13: a listing request and a most-viewed request issue no create,
    update or remove on the store. *)
Theorem reads_issue_no_store_write req (w : World Store) :
  existsb store_write_event (run (getBooks req) w).2 = false
  /\ existsb store_write_event (run (getMostViewedBooks req) w).2 = false.
Proof.
  split; apply (run_never (@is_store_write)).
  - unfold getBooks.
    destruct (cache_key (body req)) as [e|key]; simpl; [exact I|].
    destruct (Js.truthy_param (limit (pagination req))),
             (Js.truthy_param (page (pagination req))); simpl.
    all: repeat first
           [ exact I | reflexivity | progress simpl | split
           | intros [?|[? ?]] | intros [?|?] | intros ?
           | match goal with |- context [match ?x with _ => _ end] => destruct x end ].
  - unfold getMostViewedBooks.
    destruct (negb _ || _); simpl; [exact I|].
    split; [reflexivity|]. intros [e|r]; exact I.
Qed.

Transparent JSON.stringify JSON.parse cache_key exec.

End ListingCompose.

Section CreateAfterListing.

Context {Store : Type} `{BookService Store}.

(** X11: when the bodies of a paginated listing and of a create are both
    objects with no [toString] of their own, the create that succeeds
    removes the entry the listing left in the cache. *)
Theorem postBooks_clears_object_listing reqL reqP (w : World Store)
    propsL propsP results total created s' :
  body reqL = JObj propsL ->
  body reqP = JObj propsP ->
  Js.has_own "toString" propsL = false ->
  Js.has_own "toString" propsP = false ->
  paginated reqL ->
  Redis.online (redis w) = true ->
  (findBooks (limit (pagination reqL)) (offset (pagination reqL)) (store w)).1
    = inr (results, total) ->
  createBook (body reqP)
    (findBooks (limit (pagination reqL)) (offset (pagination reqL)) (store w)).2
    = (inr created, s') ->
  Js.truthy created = true ->
  create_clears_listing reqL reqP "books_[object Object]" w created.
Proof.
  intros HL HP HownL HownP [Hp Hl] Hon Hfound Hcreate Htruthy.
  assert (cache_key (body reqL) = inr "books_[object Object]") as HkL
    by (rewrite HL; apply cache_key_object, HownL).
  assert (cache_key (body reqP) = inr "books_[object Object]") as HkP
    by (rewrite HP; apply cache_key_object, HownP).
  unfold create_clears_listing.
  rewrite (getBooks_paged_run reqL _ w HkL Hl Hp Hon). unfold paged_result.
  rewrite Hfound. cbv zeta.
  set (text := JSON.object_text _).
  set (w1 := {| store := _; redis := _ |}).
  unfold postBooks. rewrite HkP. simpl. unfold on_store. simpl.
  rewrite Hcreate. simpl. rewrite Htruthy. simpl.
  unfold on_redis, Redis.expire. simpl. rewrite Hon.
  rewrite lookup_insert_eq. simpl.
  split; [eauto|]. split; [reflexivity|]. apply lookup_delete_eq.
Qed.

End CreateAfterListing.

(** ** The document transform *)

Lemma find_key_replace k v ps ps' :
  JSON.replace_prop k v ps = Some ps' ->
  Obj.lookup k ps' = Some v
  /\ forall k', k' <> k -> Obj.lookup k' ps' = Obj.lookup k' ps.
Proof.
  revert ps'. induction ps as [|[k0 v0] ps IH]; intros ps'; simpl; [discriminate|].
  destruct (String.eqb_spec k0 k) as [->|Hne].
  - intros [= <-]. unfold Obj.lookup. simpl. rewrite String.eqb_refl. split; [reflexivity|].
    intros k' Hk'. destruct (String.eqb_spec k k'); [congruence | reflexivity].
  - destruct (JSON.replace_prop k v ps) as [rest|]; [|discriminate].
    intros [= <-]. destruct (IH rest eq_refl) as [IH1 IH2].
    unfold Obj.lookup in *. simpl.
    destruct (String.eqb_spec k0 k) as [|_]; [congruence|]. split; [exact IH1|].
    intros k' Hk'. destruct (String.eqb k0 k'); [reflexivity | apply IH2, Hk'].
Qed.

Lemma replace_prop_none k v ps :
  JSON.replace_prop k v ps = None -> Obj.lookup k ps = None.
Proof.
  induction ps as [|[k0 v0] ps IH]; simpl; [reflexivity|].
  unfold Obj.lookup in *. simpl.
  destruct (String.eqb k0 k); [discriminate|].
  destruct (JSON.replace_prop k v ps); [discriminate|]. auto.
Qed.

Lemma lookup_insert_index n k v ps :
  Obj.lookup k ps = None ->
  Obj.lookup k (JSON.insert_index n k v ps) = Some v
  /\ forall k', k' <> k ->
       Obj.lookup k' (JSON.insert_index n k v ps) = Obj.lookup k' ps.
Proof.
  induction ps as [|[k0 v0] ps IH]; simpl; intros Hnone.
  - unfold Obj.lookup. simpl. rewrite String.eqb_refl. split; [reflexivity|].
    intros k' Hk'. destruct (String.eqb_spec k k'); [congruence | reflexivity].
  - assert (k0 <> k /\ Obj.lookup k ps = None) as [Hk0 Hps].
    { unfold Obj.lookup in *. simpl in Hnone.
      destruct (String.eqb_spec k0 k); [destruct v0; discriminate | auto]. }
    assert (Obj.lookup k ((k, v) :: (k0, v0) :: ps) = Some v
            /\ forall k', k' <> k ->
                 Obj.lookup k' ((k, v) :: (k0, v0) :: ps)
                 = Obj.lookup k' ((k0, v0) :: ps)) as Hfront.
    { unfold Obj.lookup. simpl. rewrite String.eqb_refl. split; [reflexivity|].
      intros k' Hk'. destruct (String.eqb_spec k k'); [congruence | reflexivity]. }
    destruct (JSON.index_of k0) as [m|]; [|exact Hfront].
    destruct (m <? n); [|exact Hfront].
    destruct (IH Hps) as [IH1 IH2]. unfold Obj.lookup in *. simpl.
    destruct (String.eqb_spec k0 k); [congruence|]. split; [exact IH1|].
    intros k' Hk'. destruct (String.eqb k0 k'); [reflexivity | apply IH2, Hk'].
Qed.

Lemma lookup_app_fresh k v ps :
  Obj.lookup k ps = None ->
  Obj.lookup k (ps ++ [(k, v)])%list = Some v
  /\ forall k', k' <> k -> Obj.lookup k' (ps ++ [(k, v)])%list = Obj.lookup k' ps.
Proof.
  induction ps as [|[k0 v0] ps IH]; simpl; intros Hnone.
  - unfold Obj.lookup. simpl. rewrite String.eqb_refl. split; [reflexivity|].
    intros k' Hk'. destruct (String.eqb_spec k k'); [congruence | reflexivity].
  - assert (k0 <> k /\ Obj.lookup k ps = None) as [Hk0 Hps].
    { unfold Obj.lookup in *. simpl in Hnone.
      destruct (String.eqb_spec k0 k); [destruct v0; discriminate | auto]. }
    destruct (IH Hps) as [IH1 IH2]. unfold Obj.lookup in *. simpl.
    destruct (String.eqb_spec k0 k); [congruence|]. split; [exact IH1|].
    intros k' Hk'. destruct (String.eqb k0 k'); [reflexivity | apply IH2, Hk'].
Qed.

(** Writing a property: the name then reads the value written, and every
    other name reads what it read before. *)
Lemma lookup_set k v ps :
  Obj.lookup k (Obj.set k v ps) = Some v
  /\ forall k', k' <> k -> Obj.lookup k' (Obj.set k v ps) = Obj.lookup k' ps.
Proof.
  unfold Obj.set, JSON.put_prop.
  destruct (JSON.replace_prop k v ps) as [ps'|] eqn:Hr.
  - apply (find_key_replace k v ps ps' Hr).
  - apply replace_prop_none in Hr.
    destruct (JSON.index_of k); [apply lookup_insert_index | apply lookup_app_fresh];
      exact Hr.
Qed.

(** Deleting a property: the name is gone, and every other name reads
    what it read before. *)
Lemma lookup_delete k ps :
  Obj.lookup k (Obj.delete k ps) = None
  /\ forall k', k' <> k -> Obj.lookup k' (Obj.delete k ps) = Obj.lookup k' ps.
Proof.
  unfold Obj.lookup, Obj.delete.
  induction ps as [|[k0 v0] ps [IH1 IH2]]; simpl; [split; reflexivity|].
  destruct (String.eqb_spec k0 k) as [->|Hne]; simpl.
  - split; [exact IH1|]. intros k' Hk'.
    destruct (String.eqb_spec k k'); [congruence | apply IH2, Hk'].
  - destruct (String.eqb_spec k0 k) as [|_]; [congruence|]. split; [exact IH1|].
    intros k' Hk'. destruct (String.eqb k0 k'); [reflexivity | apply IH2, Hk'].
Qed.

Lemma toJSON_transform_id returnedObject :
  Obj.lookup "id" (toJSON_transform returnedObject)
  = Some (Obj.get "_id" returnedObject).
Proof.
  unfold toJSON_transform. cbv zeta.
  set (o1 := Obj.set "id" _ returnedObject).
  destruct (lookup_set "id" (Obj.get "_id" returnedObject) returnedObject) as [Hs1 _].
  fold o1 in Hs1.
  destruct (lookup_delete "_v" o1) as [_ Hv2].
  destruct (lookup_delete "_id" (Obj.delete "_v" o1)) as [_ Hi2].
  rewrite Hi2, Hv2 by discriminate. exact Hs1.
Qed.

(** X14: after the [toJSON] transform, [id] reads what [_id] read
    before, [_id] and [_v] are gone, and every other property, [__v]
    among them, reads as before. *)
Theorem toJSON_transform_reads returnedObject :
  Obj.lookup "id" (toJSON_transform returnedObject)
    = Some (Obj.get "_id" returnedObject)
  /\ Obj.lookup "_id" (toJSON_transform returnedObject) = None
  /\ Obj.lookup "_v" (toJSON_transform returnedObject) = None
  /\ forall k, k <> "id" -> k <> "_id" -> k <> "_v" ->
       Obj.lookup k (toJSON_transform returnedObject) = Obj.lookup k returnedObject.
Proof.
  unfold toJSON_transform. cbv zeta.
  set (o1 := Obj.set "id" _ returnedObject).
  destruct (lookup_set "id" (Obj.get "_id" returnedObject) returnedObject) as [Hs1 Hs2].
  fold o1 in Hs1, Hs2.
  destruct (lookup_delete "_v" o1) as [Hv1 Hv2].
  destruct (lookup_delete "_id" (Obj.delete "_v" o1)) as [Hi1 Hi2].
  repeat split.
  - rewrite Hi2, Hv2 by discriminate. exact Hs1.
  - exact Hi1.
  - rewrite Hi2 by discriminate. exact Hv1.
  - intros k Hk1 Hk2 Hk3. rewrite Hi2, Hv2, Hs2 by congruence. reflexivity.
Qed.

Lemma serialize_none v : JSON.serialize v = None <-> v = JUndefined.
Proof. destruct v as [| |[]| | | | | | |]; cbn [JSON.serialize]; split; congruence. Qed.

Lemma members_defined ps : JSON.members ps = JSON.members (defined_props ps).
Proof.
  induction ps as [|[k v] ps IH]; [reflexivity|].
  unfold defined_props in *.
  destruct v as [| |[]| | | | | | |];
    cbn [JSON.members JSON.serialize List.filter snd]; rewrite <- ?IH; reflexivity.
Qed.

Lemma defined_delete k ps :
  defined_props (Obj.delete k ps) = Obj.delete k (defined_props ps).
Proof.
  unfold defined_props, Obj.delete.
  induction ps as [|[k0 v0] ps IH]; [reflexivity|]. simpl.
  destruct (String.eqb k0 k) eqn:E; destruct v0; simpl; rewrite ?E; simpl;
    rewrite ?IH; reflexivity.
Qed.

Lemma delete_absent k ps : k ∉ map fst ps -> Obj.delete k ps = ps.
Proof.
  unfold Obj.delete. induction ps as [|[k0 v0] ps IH]; [reflexivity|]. simpl.
  intros Hk. apply not_elem_of_cons in Hk as [Hne Hk].
  destruct (String.eqb_spec k0 k); [congruence|]. simpl. rewrite IH by done. reflexivity.
Qed.

Lemma lookup_none_absent k ps : Obj.lookup k ps = None -> k ∉ map fst ps.
Proof.
  unfold Obj.lookup. induction ps as [|[k0 v0] ps IH]; simpl; [intros _; apply not_elem_of_nil|].
  destruct (String.eqb_spec k0 k); [discriminate|].
  intros Hn. apply not_elem_of_cons. split; [congruence | auto].
Qed.

Lemma replace_prop_absent k v ps :
  JSON.replace_prop k v ps = None -> k ∉ map fst ps.
Proof.
  induction ps as [|[k0 v0] ps IH]; simpl; [intros _; apply not_elem_of_nil|].
  destruct (String.eqb_spec k0 k); [discriminate|].
  destruct (JSON.replace_prop k v ps); [discriminate|].
  intros _. apply not_elem_of_cons. split; [congruence | auto].
Qed.

Lemma defined_replace_undefined k ps ps' :
  NoDup (map fst ps) ->
  JSON.replace_prop k JUndefined ps = Some ps' ->
  defined_props ps' = defined_props (Obj.delete k ps).
Proof.
  revert ps'. induction ps as [|[k0 v0] ps IH]; intros ps' Hnd; simpl; [discriminate|].
  simpl in Hnd. apply NoDup_cons in Hnd as [Hk0 Hnd].
  destruct (String.eqb_spec k0 k) as [->|Hne].
  - intros [= <-].
    change (Obj.delete k ((k, v0) :: ps))
      with (if negb (String.eqb k k) then (k, v0) :: Obj.delete k ps else Obj.delete k ps).
    simpl. rewrite delete_absent by done. reflexivity.
  - destruct (JSON.replace_prop k JUndefined ps) as [rest|]; [|discriminate].
    intros [= <-].
    change (Obj.delete k ((k0, v0) :: ps))
      with (if negb (String.eqb k0 k) then (k0, v0) :: Obj.delete k ps else Obj.delete k ps).
    simpl negb. cbv iota.
    change (defined_props ((k0, v0) :: rest))
      with (if match v0 with JUndefined => false | _ => true end
            then (k0, v0) :: defined_props rest else defined_props rest).
    change (defined_props ((k0, v0) :: Obj.delete k ps))
      with (if match v0 with JUndefined => false | _ => true end
            then (k0, v0) :: defined_props (Obj.delete k ps)
            else defined_props (Obj.delete k ps)).
    rewrite (IH rest Hnd eq_refl). reflexivity.
Qed.

Lemma defined_insert_index_undefined n k ps :
  defined_props (JSON.insert_index n k JUndefined ps) = defined_props ps.
Proof.
  induction ps as [|[k0 v0] ps IH]; [reflexivity|]. simpl.
  destruct (JSON.index_of k0) as [m|]; [|reflexivity].
  destruct (m <? n); [|reflexivity].
  unfold defined_props in *. simpl. rewrite IH. reflexivity.
Qed.

Lemma defined_app_undefined k ps :
  defined_props (ps ++ [(k, JUndefined)])%list = defined_props ps.
Proof.
  unfold defined_props. rewrite List.filter_app. simpl. apply app_nil_r.
Qed.

Lemma defined_set_undefined k ps :
  NoDup (map fst ps) ->
  defined_props (Obj.set k JUndefined ps) = defined_props (Obj.delete k ps).
Proof.
  intros Hnd. unfold Obj.set, JSON.put_prop.
  destruct (JSON.replace_prop k JUndefined ps) as [ps'|] eqn:Hr.
  - apply (defined_replace_undefined k ps ps' Hnd Hr).
  - apply replace_prop_absent in Hr. rewrite (delete_absent k ps Hr).
    destruct (JSON.index_of k);
      [apply defined_insert_index_undefined | apply defined_app_undefined].
Qed.

(** X15: for an object with no [_id], the transform leaves [id]
    undefined, so the JSON text of the result is that of the object
    without [id] and [_v]: an [id] the object had is lost. *)
Theorem toJSON_transform_without_id returnedObject :
  NoDup (map fst returnedObject) ->
  Obj.lookup "_id" returnedObject = None ->
  Obj.lookup "id" (toJSON_transform returnedObject) = Some JUndefined
  /\ JSON.stringify (JObj (toJSON_transform returnedObject))
     = JSON.stringify (JObj (Obj.delete "_v" (Obj.delete "id" returnedObject))).
Proof.
  intros Hnd Hid.
  assert (Obj.get "_id" returnedObject = JUndefined) as Hget
    by (unfold Obj.get; rewrite Hid; reflexivity).
  split.
  - rewrite toJSON_transform_id, Hget. reflexivity.
  - rewrite !stringify_object. unfold JSON.object_text. do 3 f_equal.
    unfold toJSON_transform. cbv zeta. rewrite Hget.
    rewrite members_defined, !defined_delete, defined_set_undefined by done.
    rewrite <- !defined_delete, <- members_defined.
    rewrite (delete_absent "_id").
    + reflexivity.
    + apply lookup_none_absent.
      destruct (lookup_delete "_v" (Obj.delete "id" returnedObject)) as [_ Hv].
      destruct (lookup_delete "id" returnedObject) as [_ Hi].
      rewrite Hv, Hi by discriminate. exact Hid.
Qed.

(** ** The schema *)

Lemma trim_start_plain c r :
  Str.ascii_space c = false -> JSON.code c < 128 ->
  Str.trim_start (c :: r) = c :: r.
Proof.
  intros Hs Hc. simpl. rewrite Hs.
  assert (forall n, 128 <= n -> Str.is_byte c n = false) as Hb.
  { intros n Hn. unfold Str.is_byte. apply Z.eqb_neq. lia. }
  rewrite !Hb by lia. simpl.
  destruct r as [|c2 [|c3 r3]]; reflexivity.
Qed.

Lemma digit_plain c d :
  JSON.digit_val c = Some d ->
  Str.ascii_space c = false /\ JSON.code c < 128
  /\ Str.is_byte c 45 = false /\ Str.is_byte c 43 = false
  /\ d = JSON.code c - 48 /\ 0 <= d <= 9.
Proof.
  unfold JSON.digit_val, Str.ascii_space, Str.is_byte.
  destruct (Z.leb_spec 48 (JSON.code c)); simpl; [|discriminate].
  destruct (Z.leb_spec (JSON.code c) 57); simpl; [|discriminate].
  intros [= <-].
  repeat split; try lia; try (apply Z.eqb_neq; lia).
Qed.

Lemma parse_digits_nondigit acc t :
  match t with [] => True | c :: _ => JSON.digit_val c = None end ->
  JSON.parse_digits acc t = (acc, t).
Proof. destruct t as [|c r]; [reflexivity|]. simpl. intros ->. reflexivity. Qed.

(** The magnitude read from a text that opens with a digit other than
    [0]: its decimal digits. *)
Lemma parse_magnitude_decimal c d r :
  JSON.digit_val c = Some d -> 0 < d ->
  Str.parse_magnitude (c :: r) = Some (JSON.parse_digits 0 (c :: r)).1.
Proof.
  intros Hd Hpos. destruct (digit_plain c d Hd) as (_ & _ & _ & _ & Hcode & _).
  destruct r as [|x r]; simpl; rewrite Hd; [reflexivity|].
  assert (Str.is_byte c 48 = false) as -> by (apply Z.eqb_neq; lia).
  reflexivity.
Qed.

Lemma parseInt_pos (p : positive) t :
  ends_number (Z.pos p) t ->
  Str.parse_magnitude (list_ascii_of_string (pretty (Z.pos p) +:+ t)) = Some (Z.pos p)
  /\ exists c d r, list_ascii_of_string (pretty (Z.pos p) +:+ t) = c :: r
                   /\ JSON.digit_val c = Some d.
Proof.
  intros Hend. rewrite chars_app.
  change (pretty (Z.pos p)) with (pretty_N_go (N.pos p) "").
  destruct (pretty_N_go_head (N.pos p) ltac:(lia) "") as (c & t' & d & Ht & Hd & Hpos).
  destruct (parse_digits_pretty (N.pos p) ltac:(lia) "" (list_ascii_of_string t))
    as [k Hk].
  specialize (Hk 0). rewrite Ht in Hk |- *. simpl list_ascii_of_string in *.
  rewrite <- app_comm_cons in *.
  split; [|eauto].
  rewrite (parse_magnitude_decimal c d _ Hd Hpos), Hk.
  replace (0 * 10 ^ Z.of_nat k + Z.of_N (N.pos p)) with (Z.pos p) by lia.
  rewrite parse_digits_nondigit; [reflexivity|].
  unfold ends_number in Hend. destruct (list_ascii_of_string t); [exact I | apply Hend].
Qed.

Lemma parseInt_pretty (n : Z) t :
  ends_number n t -> Str.parseInt (pretty n +:+ t) = Some n.
Proof.
  intros Hend. unfold Str.parseInt. destruct n as [|p|p].
  - rewrite chars_app.
    change (list_ascii_of_string (pretty 0) ++ list_ascii_of_string t)%list
      with ("0"%char :: list_ascii_of_string t).
    rewrite trim_start_plain by (reflexivity || (vm_compute; reflexivity)).
    change (Str.is_byte "0" 45) with false. change (Str.is_byte "0" 43) with false.
    cbv iota. unfold ends_number in Hend.
    destruct (list_ascii_of_string t) as [|x r]; [reflexivity|].
    destruct Hend as [Hx Hhex]. specialize (Hhex eq_refl).
    unfold Str.parse_magnitude. change (Str.is_byte "0" 48) with true.
    rewrite Hhex. simpl. rewrite Hx. reflexivity.
  - destruct (parseInt_pos p t Hend) as [Hmag (c & d & r & Hc & Hd)].
    rewrite Hc in *.
    destruct (digit_plain c d Hd) as (Hs & Hlt & Hm & Hp & _).
    rewrite trim_start_plain, Hm, Hp by done. exact Hmag.
  - assert (ends_number (Z.pos p) t) as Hend'.
    { unfold ends_number in *. destruct (list_ascii_of_string t); [exact I|].
      split; [apply Hend | discriminate]. }
    destruct (parseInt_pos p t Hend') as [Hmag _].
    change (pretty (Z.neg p) +:+ t) with (String "-" (pretty (Z.pos p) +:+ t)).
    simpl list_ascii_of_string.
    rewrite trim_start_plain by (reflexivity || (vm_compute; reflexivity)).
    change (Str.is_byte "-" 45) with true. cbv iota.
    rewrite Hmag. reflexivity.
Qed.

(** X16: for a string that opens with the decimal numeral of [n],
    whatever follows it, the schema accepts it as [year] exactly when
    [n] is from 1800 to 2050 and as [numberPages] exactly when [n] is 49
    at least. *)
Theorem year_and_pages_by_leading_number (n : Z) (t : string) :
  ends_number n t ->
  bookSchema.year (JStr (pretty n +:+ t)) = (1800 <=? n) && (n <=? 2050)
  /\ bookSchema.numberPages (JStr (pretty n +:+ t)) = (49 <=? n).
Proof.
  intros Hend. unfold bookSchema.year, bookSchema.year_refine,
    bookSchema.numberPages, bookSchema.numberPages_refine.
  rewrite (parseInt_pretty n t Hend). split; reflexivity.
Qed.

Lemma image_data_ok v :
  bookSchema.image v = true ->
  bookSchema.image (bookSchema.image_data v) = true
  /\ bookSchema.image_data (bookSchema.image_data v) = bookSchema.image_data v.
Proof.
  destruct v as [| | | | | |data| | |]; try discriminate.
  unfold bookSchema.image, bookSchema.shape_ok, bookSchema.image_shape.
  simpl forallb. rewrite !andb_true_iff. intros (Hu & Hp & _).
  unfold Obj.get in Hu, Hp. unfold bookSchema.image_data, bookSchema.shape_data.
  simpl omap.
  destruct (Obj.lookup "url" data) as [u|]; [|discriminate Hu].
  destruct (Obj.lookup "public_id" data) as [p|]; [|discriminate Hp].
  simpl in Hu, Hp |- *. unfold Obj.get, Obj.lookup. simpl.
  rewrite Hu, Hp. split; reflexivity.
Qed.

(** X17: the data the schema hands back for an accepted payload is
    itself accepted, and is handed back as it is. *)
Theorem safeParse_idempotent v out :
  bookSchema.safeParse v = Some out ->
  bookSchema.safeParse out = Some out /\ bookSchema.accepts out = true.
Proof.
  destruct v as [| | | | | |data| | |]; try discriminate.
  unfold bookSchema.safeParse at 1.
  destruct (bookSchema.shape_ok bookSchema.shape data) eqn:Hok; [|discriminate].
  intros [= <-].
  unfold bookSchema.shape_ok, bookSchema.shape in Hok. simpl forallb in Hok.
  rewrite !andb_true_iff in Hok.
  destruct Hok as (H1 & H2 & H3 & H4 & H5 & H6 & H7 & H8 & H9 & H10 & H11 & _).
  unfold Obj.get in H1, H2, H3, H4, H5, H6, H7, H8, H9, H10, H11.
  simpl fst in *. simpl snd in *.
  unfold bookSchema.shape_data. simpl map at 2. simpl omap.
  destruct (Obj.lookup "title" data) as [v1|]; [|discriminate H1].
  destruct (Obj.lookup "authors" data) as [v2|]; [|discriminate H2].
  destruct (Obj.lookup "synopsis" data) as [v3|]; [|discriminate H3].
  destruct (Obj.lookup "year" data) as [v4|]; [|discriminate H4].
  destruct (Obj.lookup "category" data) as [v5|]; [|discriminate H5].
  destruct (Obj.lookup "numberPages" data) as [v6|]; [|discriminate H6].
  destruct (Obj.lookup "language" data) as [v8|]; [|discriminate H8].
  destruct (Obj.lookup "format" data) as [v9|]; [|discriminate H9].
  destruct (Obj.lookup "pathUrl" data) as [v10|]; [|discriminate H10].
  destruct (Obj.lookup "image" data) as [v11|]; [|discriminate H11].
  simpl default in *.
  destruct (image_data_ok v11 H11) as [Hi1 Hi2].
  destruct (Obj.lookup "sourceLink" data) as [v7|]; simpl default in H7.
  Opaque bookSchema.nonempty_string bookSchema.nonempty_array bookSchema.year
    bookSchema.numberPages bookSchema.optional_string bookSchema.image
    bookSchema.image_data.
  - unfold bookSchema.safeParse, bookSchema.accepts, bookSchema.shape_ok,
      bookSchema.shape, bookSchema.shape_data, Obj.get, Obj.lookup.
    simpl.
    rewrite H1, H2, H3, H4, H5, H6, H7, H8, H9, H10, Hi1. simpl. rewrite Hi2.
    split; reflexivity.
  - unfold bookSchema.safeParse, bookSchema.accepts, bookSchema.shape_ok,
      bookSchema.shape, bookSchema.shape_data, Obj.get, Obj.lookup.
    simpl.
    rewrite H1, H2, H3, H4, H5, H6, H8, H9, H10, Hi1. simpl. rewrite Hi2.
    split; reflexivity.
  Transparent bookSchema.nonempty_string bookSchema.nonempty_array bookSchema.year
    bookSchema.numberPages bookSchema.optional_string bookSchema.image
    bookSchema.image_data.
Qed.

(** ** The lookups *)

Section LookupFacts.

Context {Store : Type} `{LookupService Store}.

(** X18: a search answers 200 only with a list that is not empty; an
    empty result is a NotFound whose message ends with the string
    conversion of [q], or the TypeError of that conversion where it
    throws; a rejection of the store goes to [next] as it is. *)
Theorem getSearchBooks_answers req (s : Store) :
  let q := prop "q" (query req) in
  (forall status payload,
      (getSearchBooks req s).1 = inr (Respond status payload) ->
      status = 200
      /\ exists x rest, payload = JArr (x :: rest) /\ (findSearch q s).1 = inr (x :: rest))
  /\ ((findSearch q s).1 = inr [] ->
      (getSearchBooks req s).1
      = inr (Next (match Js.toString q with
                   | inr text => NotFound ("No se encontraron resultados para: " +:+ text)
                   | inl e => e
                   end)))
  /\ (forall e, (findSearch q s).1 = inl e -> (getSearchBooks req s).1 = inr (Next e)).
Proof.
  intros q. unfold getSearchBooks, StoreM.try_catch, StoreM.bind. fold q.
  destruct (findSearch q s) as [[e|[|x rest]] s1]; simpl.
  - repeat split; try discriminate. intros e' [= <-]. reflexivity.
  - destruct (Js.toString q) as [e|text]; simpl; repeat split; discriminate.
  - assert ((Z.of_nat (S (List.length rest)) <? 1) = false) as -> by (apply Z.ltb_ge; lia).
    simpl. split; [|split; discriminate].
    intros status payload Heq. inversion Heq; subst. split; [reflexivity|]. eauto.
Qed.

(** X19: the lookups by id and by slug answer 200 only with a truthy
    result of the store, and end in NotFound for a falsy one. *)
Theorem single_lookups_serve_a_record req (s : Store) :
  (forall status payload,
      (getOneBooks req s).1 = inr (Respond status payload) ->
      status = 200 /\ Js.truthy payload = true
      /\ (findById (prop "id" (params req)) s).1 = inr payload)
  /\ (forall status payload,
      (getPathUrlBooks req s).1 = inr (Respond status payload) ->
      status = 200 /\ Js.truthy payload = true
      /\ (findBySlug (prop "pathUrl" (params req)) s).1 = inr payload)
  /\ (forall result,
      (findById (prop "id" (params req)) s).1 = inr result ->
      Js.truthy result = false ->
      (getOneBooks req s).1 = inr (Next (NotFound "No se encuentra o no existe")))
  /\ (forall result,
      (findBySlug (prop "pathUrl" (params req)) s).1 = inr result ->
      Js.truthy result = false ->
      (getPathUrlBooks req s).1 = inr (Next (NotFound "No se encuentra o no existe"))).
Proof.
  unfold getOneBooks, getPathUrlBooks, StoreM.try_catch, StoreM.bind.
  destruct (findById _ s) as [[e|r1] s1]; destruct (findBySlug _ s) as [[e'|r2] s2]; simpl;
    try destruct (Js.truthy r1) eqn:T1; try destruct (Js.truthy r2) eqn:T2; simpl;
    repeat split; try discriminate; try congruence;
    try (intros ? ? Heq; inversion Heq; subst; auto).
Qed.

(** X20: the four collection lookups raise no error of their own and
    look at no result: whatever the store answers, an empty list
    included, is sent with 200, and a rejection of the store goes to
    [next] as it is. *)
Theorem collection_lookups_raise_nothing req (s : Store) :
  (getAllOptions req s).1 = handed_on (findByGroupFields s).1
  /\ (getBooksRandom req s).1 = handed_on (findBooksRandom s).1
  /\ (getRelatedBooks req s).1 = handed_on (findRelatedBooks (prop "id" (params req)) s).1
  /\ (getMoreBooksAuthors req s).1
     = handed_on (findMoreBooksAuthors (prop "id" (params req)) s).1.
Proof.
  unfold getAllOptions, getBooksRandom, getRelatedBooks, getMoreBooksAuthors,
    StoreM.try_catch, StoreM.bind.
  destruct (findByGroupFields s) as [[e1|r1] s1];
    destruct (findBooksRandom s) as [[e2|r2] s2];
    destruct (findRelatedBooks _ s) as [[e3|r3] s3];
    destruct (findMoreBooksAuthors _ s) as [[e4|r4] s4]; simpl;
    repeat split.
Qed.

End LookupFacts.

(** ** The further statements on sample data *)

Module MoreInstances.

Import MemStore PaginationCalculator Sample MoreSample.

Lemma getBooks_cache_down_witness :
  cache_key (body (paged by_borges 1 2)) = inr object_key
  /\ Redis.online (redis (offline library stale_cache)) = false
  /\ run (getBooks (paged by_borges 1 2)) (offline library stale_cache)
     = (inr (Next Redis.down), offline library stale_cache,
        [Ev (RedisDel object_key) (inl Redis.down)]).
Proof.
  split; [reflexivity|]. split; [reflexivity|].
  apply (getBooks_cache_down (paged by_borges 1 2) object_key (offline library stale_cache));
    reflexivity.
Defined.

Lemma getBooks_store_rejection_witness :
  cache_key (body (paged by_borges 1 2)) = inr object_key
  /\ paginated (paged by_borges 1 2)
  /\ Redis.online (redis down_world) = true
  /\ (@findBooks unit DownStore.service (Given 2) (Given 0) (store down_world)).1
     = inl DownStore.failure
  /\ (@run unit DownStore.service _ (getBooks (paged by_borges 1 2)) down_world).1.1
     = inr (Next DownStore.failure)
  /\ existsb cache_write_event
       (@run unit DownStore.service _ (getBooks (paged by_borges 1 2)) down_world).2 = false
  /\ Redis.entries
       (redis (@run unit DownStore.service _ (getBooks (paged by_borges 1 2)) down_world).1.2)
       !! object_key = None.
Proof.
  split; [reflexivity|]. split; [split; reflexivity|]. split; [reflexivity|].
  split; [reflexivity|].
  apply (@getBooks_store_rejection unit DownStore.service
           (paged by_borges 1 2) object_key down_world DownStore.failure).
  - reflexivity.
  - split; reflexivity.
  - reflexivity.
  - reflexivity.
Defined.

Lemma listing_and_create_touch_one_key_witness :
  cache_key (body (paged by_borges 1 2)) <> inr "sessions"
  /\ Redis.entries (redis (run (getBooks (paged by_borges 1 2)) (world library two_keys)).1.2)
       !! "sessions"
     = Redis.entries (redis (world library two_keys)) !! "sessions"
  /\ Redis.entries (redis (run (postBooks (paged by_borges 1 2)) (world library two_keys)).1.2)
       !! "sessions"
     = Redis.entries (redis (world library two_keys)) !! "sessions".
Proof.
  assert (cache_key (body (paged by_borges 1 2)) <> inr "sessions") as Hne by discriminate.
  split; [exact Hne|].
  destruct (listing_and_create_touch_one_key (paged by_borges 1 2)
              (world library two_keys) "sessions" Hne) as [[Hl _] [Hc _]].
  split; [exact Hl | exact Hc].
Defined.

Lemma getBooks_empty_cached_value_is_miss_witness :
  cache_key (body (paged by_borges 1 2)) = inr object_key
  /\ paginated (paged by_borges 1 2)
  /\ Redis.entries (redis (world library (cache_with ""))) !! object_key
     = Some {| Redis.value := ""; Redis.ttl := Some 300 |}
  /\ exists rest,
       (run (step (getBooks (paged by_borges 1 2)) (world library ∅)).1.1
            (world library (cache_with ""))).2
       = Ev (RedisGet object_key) (inr (Some ""))
         :: Ev (FindBooks (Given 2) (Given 0)) (inr ([ficciones; rayuela], 3))
         :: rest.
Proof.
  split; [reflexivity|]. split; [split; reflexivity|]. split; [reflexivity|].
  exact (getBooks_empty_cached_value_is_miss (paged by_borges 1 2) object_key
           (world library ∅) (world library (cache_with ""))
           {| Redis.value := ""; Redis.ttl := Some 300 |}
           eq_refl (conj eq_refl eq_refl) eq_refl eq_refl eq_refl eq_refl).
Defined.

Lemma getBooks_hit_unparsable_witness :
  cache_key (body (paged by_borges 1 2)) = inr object_key
  /\ paginated (paged by_borges 1 2)
  /\ JSON.parse "{info" = None
  /\ run (step (getBooks (paged by_borges 1 2)) (world library ∅)).1.1
         (world library (cache_with "{info"))
     = (inr (Next SyntaxError), world library (cache_with "{info"),
        [Ev (RedisGet object_key) (inr (Some "{info"))]).
Proof.
  split; [reflexivity|]. split; [split; reflexivity|]. split; [reflexivity|].
  apply (getBooks_hit_unparsable (paged by_borges 1 2) object_key
           (world library ∅) (world library (cache_with "{info"))
           {| Redis.value := "{info"; Redis.ttl := Some 300 |}).
  - reflexivity.
  - split; reflexivity.
  - reflexivity.
  - reflexivity.
  - reflexivity.
  - discriminate.
  - reflexivity.
Defined.

Lemma getBooks_refill_answers_differ_witness :
  paginated (paged by_borges 1 2)
  /\ paginated (paged by_sabato 3 10)
  /\ cache_key by_borges = inr object_key
  /\ cache_key by_sabato = inr object_key
  /\ (findBooks (Given 10) (Given 20) (store (world library stale_cache))).1 = inr ([], 3)
  /\ refill_answers_differ (paged by_borges 1 2) (paged by_sabato 3 10)
       (world library stale_cache) 3.
Proof.
  split; [split; reflexivity|]. split; [split; reflexivity|].
  split; [reflexivity|]. split; [reflexivity|]. split; [reflexivity|].
  apply (getBooks_refill_answers_differ (paged by_borges 1 2) (paged by_sabato 3 10)
           object_key (world library stale_cache) 3).
  - split; reflexivity.
  - split; reflexivity.
  - reflexivity.
  - reflexivity.
  - reflexivity.
  - reflexivity.
  - solve_clean.
Defined.

Lemma getBooks_cached_text_parses_back_witness :
  cache_key (body (paged by_sabato 2 1)) = inr object_key
  /\ paginated (paged by_sabato 2 1)
  /\ (findBooks (Given 1) (Given 1) (store (world library ∅))).1 = inr ([rayuela], 3)
  /\ exists e,
       Redis.entries (redis (run (getBooks (paged by_sabato 2 1)) (world library ∅)).1.2)
         !! object_key = Some e
       /\ JSON.parse (Redis.value e) = Some (response_of (paged by_sabato 2 1) [rayuela] 3).
Proof.
  split; [reflexivity|]. split; [split; reflexivity|]. split; [reflexivity|].
  apply (getBooks_cached_text_parses_back (paged by_sabato 2 1) object_key (world library ∅)
           [rayuela] 3).
  - reflexivity.
  - split; reflexivity.
  - reflexivity.
  - reflexivity.
  - solve_clean.
  - solve_clean.
Defined.

Lemma getBooks_ignores_cache_content_witness :
  cache_key (body (paged by_borges 1 2)) = inr object_key
  /\ store (world library ∅) = store (world library stale_cache)
  /\ (run (getBooks (paged by_borges 1 2)) (world library ∅)).1.1
     = (run (getBooks (paged by_borges 1 2)) (world library stale_cache)).1.1.
Proof.
  split; [reflexivity|]. split; [reflexivity|].
  apply (getBooks_ignores_cache_content (paged by_borges 1 2) object_key
           (world library ∅) (world library stale_cache)); reflexivity.
Defined.

Lemma getBooks_repeat_is_idempotent_witness :
  paginated (paged by_borges 1 2)
  /\ (findBooks (Given 2) (Given 0) (store (world library stale_cache))).2
     = store (world library stale_cache)
  /\ repeat_changes_nothing (paged by_borges 1 2) (world library stale_cache).
Proof.
  split; [split; reflexivity|]. split; [reflexivity|].
  apply (getBooks_repeat_is_idempotent (paged by_borges 1 2) (world library stale_cache)).
  - split; reflexivity.
  - reflexivity.
  - reflexivity.
Defined.

Lemma postBooks_ignores_cache_witness :
  store (world library stale_cache) = store (offline library ∅)
  /\ (run (postBooks (on_id "" ficciones)) (world library stale_cache)).1.1
     = (run (postBooks (on_id "" ficciones)) (offline library ∅)).1.1
  /\ store (run (postBooks (on_id "" ficciones)) (world library stale_cache)).1.2
     = store (run (postBooks (on_id "" ficciones)) (offline library ∅)).1.2.
Proof.
  split; [reflexivity|].
  apply (postBooks_ignores_cache (on_id "" ficciones)
           (world library stale_cache) (offline library ∅)).
  reflexivity.
Defined.

Lemma postBooks_clears_object_listing_witness :
  paginated (paged by_borges 1 2)
  /\ Js.has_own "toString" [("author", JStr "Borges")] = false
  /\ Js.has_own "toString" [("id", JStr "b1"); ("title", JStr "Ficciones")] = false
  /\ Js.truthy ficciones = true
  /\ create_clears_listing (paged by_borges 1 2) (on_id "" ficciones)
       "books_[object Object]" (world [rayuela] ∅) ficciones.
Proof.
  split; [split; reflexivity|]. split; [reflexivity|]. split; [reflexivity|].
  split; [reflexivity|].
  apply (postBooks_clears_object_listing (paged by_borges 1 2) (on_id "" ficciones)
           (world [rayuela] ∅) [("author", JStr "Borges")]
           [("id", JStr "b1"); ("title", JStr "Ficciones")]
           [rayuela] 1 ficciones [rayuela; ficciones]).
  - reflexivity.
  - reflexivity.
  - reflexivity.
  - reflexivity.
  - split; reflexivity.
  - reflexivity.
  - reflexivity.
  - reflexivity.
  - reflexivity.
Defined.

Example getBooks_escapes_sample :
  run (getBooks (paged own_toString 1 2)) (world library stale_cache)
  = (inl TypeError, world library stale_cache, [])
  /\ run (getBooks (unpaged (JArr [JNum 1; own_toString]))) (offline library stale_cache)
     = (inl TypeError, offline library stale_cache, []).
Proof. vm_compute. split; reflexivity. Qed.

Lemma toJSON_transform_without_id_witness :
  NoDup (map fst [("id", JStr "b1"); ("title", JStr "Ficciones"); ("_v", JNum 0)])
  /\ Obj.lookup "_id" [("id", JStr "b1"); ("title", JStr "Ficciones"); ("_v", JNum 0)] = None
  /\ Obj.lookup "id"
       (toJSON_transform [("id", JStr "b1"); ("title", JStr "Ficciones"); ("_v", JNum 0)])
     = Some JUndefined
  /\ JSON.stringify
       (JObj (toJSON_transform
                [("id", JStr "b1"); ("title", JStr "Ficciones"); ("_v", JNum 0)]))
     = JSON.stringify (JObj [("title", JStr "Ficciones")]).
Proof.
  assert (NoDup (map fst [("id", JStr "b1"); ("title", JStr "Ficciones"); ("_v", JNum 0)]))
    as Hnd.
  { simpl. repeat (apply NoDup_cons; split; [not_among|]). apply NoDup_nil_2. }
  split; [exact Hnd|]. split; [reflexivity|].
  apply (toJSON_transform_without_id
           [("id", JStr "b1"); ("title", JStr "Ficciones"); ("_v", JNum 0)] Hnd).
  reflexivity.
Defined.

Lemma year_and_pages_by_leading_number_witness :
  ends_number 2000 "-01-01"
  /\ bookSchema.year (JStr "2000-01-01") = true
  /\ bookSchema.numberPages (JStr "2000-01-01") = true.
Proof.
  assert (ends_number 2000 "-01-01") as Hend by (split; [reflexivity | discriminate]).
  split; [exact Hend|].
  exact (year_and_pages_by_leading_number 2000 "-01-01" Hend).
Defined.

Lemma safeParse_idempotent_witness :
  bookSchema.safeParse payload = Some parsed_payload
  /\ bookSchema.safeParse parsed_payload = Some parsed_payload
  /\ bookSchema.accepts parsed_payload = true.
Proof.
  assert (bookSchema.safeParse payload = Some parsed_payload) as Hp
    by (vm_compute; reflexivity).
  split; [exact Hp|].
  exact (safeParse_idempotent payload parsed_payload Hp).
Defined.

Example toJSON_transform_sample :
  toJSON_transform
    [("_id", JStr "64f0"); ("title", JStr "Ficciones"); ("__v", JNum 0); ("_v", JNum 1)]
  = [("title", JStr "Ficciones"); ("__v", JNum 0); ("id", JStr "64f0")].
Proof. vm_compute. reflexivity. Qed.

Example parseInt_samples :
  Str.parseInt " 1999abc" = Some 1999 /\ Str.parseInt "0x7E4" = Some 2020
  /\ Str.parseInt "-12" = Some (-12) /\ Str.parseInt "+7" = Some 7
  /\ Str.parseInt "MCMXLIV" = None /\ Str.parseInt "0x" = None
  /\ Str.parseInt "" = None.
Proof. vm_compute. repeat split. Qed.

Example year_samples :
  bookSchema.year (JStr "1944") = true /\ bookSchema.year (JStr "1799") = false
  /\ bookSchema.year (JStr "2051") = false /\ bookSchema.year (JStr "0x7E4") = true
  /\ bookSchema.year (JNum 1944) = false
  /\ bookSchema.number_array (JArr [JNum 1; JFrac 9 1; JInfinity false]) = true
  /\ bookSchema.number_array (JArr [JNum 1; JNaN]) = false
  /\ bookSchema.numberPages (JStr "48") = false
  /\ bookSchema.numberPages (JStr "49 pages") = true.
Proof. vm_compute. repeat split. Qed.

Example schema_rejects_blank_author :
  bookSchema.nonempty_array bookSchema.unblank_string (JArr [JStr "Borges"; JStr "   "])
  = false
  /\ bookSchema.nonempty_array bookSchema.unblank_string (JArr []) = false
  /\ bookSchema.nonempty_array bookSchema.unblank_string (JArr [JStr " Borges "]) = true.
Proof. vm_compute. repeat split. Qed.

Example getSearchBooks_samples :
  (getSearchBooks (most_viewed JNull) library).1
  = inr (Next (NotFound "No se encontraron resultados para: undefined"))
  /\ (getSearchBooks
        {| body := JObj []; query := {[ "q" := JObj [("toString", JStr "1")] ]}; params := ∅;
           pagination := {| page := Absent; limit := Absent; offset := Absent |};
           calculatePagination := fun _ => JUndefined |} library).1
     = inr (Next TypeError)
  /\ (getSearchBooks
        {| body := JObj []; query := {[ "q" := JStr "Rayuela" ]}; params := ∅;
           pagination := {| page := Absent; limit := Absent; offset := Absent |};
           calculatePagination := fun _ => JUndefined |} library).1
     = inr (Respond 200 (JArr [rayuela])).
Proof. vm_compute. repeat split. Qed.

Example lookups_samples :
  (getOneBooks (on_id "b2" JUndefined) library).1 = inr (Respond 200 rayuela)
  /\ (getOneBooks (on_id "b9" JUndefined) library).1
     = inr (Next (NotFound "No se encuentra o no existe"))
  /\ (getMoreBooksAuthors (on_id "b9" JUndefined) library).1 = inr (Respond 200 (JArr [])).
Proof. vm_compute. repeat split. Qed.

End MoreInstances.
